(** * The formula-collection viewer (src/main.js)

  A shallow embedding of the application engine: the STATE object and
  the page are explicit records, every method is a function on them,
  and the browser (clock, network, HTML parser, regular expressions) is
  an explicit environment.

  A JavaScript string is modelled as a [string] whose characters are its
  UTF-16 code units, each below 256 (the Latin-1 range); pages and
  queries that hold other code units are outside the model.  On these
  strings the case mapping, the white space of trim and the matching of a
  literal pattern with the flag i are those of the language. *)

From Stdlib Require Import ZArith String Ascii List Bool Lia.
From Stdlib Require Import Floats.SpecFloat.
From stdpp Require Import base option list functions gmap sets strings.

Local Open Scope string_scope.

(** ** JavaScript string primitives used by the engine *)
Module Js.

(** [s.length] *)
Definition len (s : string) : nat := String.length s.

(** The code units below 256 that toLowerCase changes: A to Z, and the
    capital letters of Latin-1 from U+00C0 to U+00DE without the
    multiplication sign U+00D7.  Each one is lowered by adding 32; no
    other code unit below 256 is changed. *)
Definition is_upper (c : ascii) : bool :=
  let n := nat_of_ascii c in
  ((65 <=? n)%nat && (n <=? 90)%nat)
  || ((192 <=? n)%nat && (n <=? 222)%nat && negb (n =? 215)%nat).

Definition lower_char (c : ascii) : ascii :=
  if is_upper c then ascii_of_nat (nat_of_ascii c + 32) else c.

(** [String.prototype.toLowerCase] *)
Fixpoint toLowerCase (s : string) : string :=
  match s with
  | EmptyString => EmptyString
  | String c r => String (lower_char c) (toLowerCase r)
  end.

(** White space and line terminators, as [trim] sees them. *)
Definition is_space (c : ascii) : bool :=
  let n := nat_of_ascii c in
  (n =? 32)%nat || ((9 <=? n)%nat && (n <=? 13)%nat) || (n =? 160)%nat.

Fixpoint trimStart (s : string) : string :=
  match s with
  | EmptyString => EmptyString
  | String c r => if is_space c then trimStart r else s
  end.

Fixpoint trimEnd (s : string) : string :=
  match s with
  | EmptyString => EmptyString
  | String c r =>
      match trimEnd r with
      | EmptyString => if is_space c then EmptyString else String c EmptyString
      | r' => String c r'
      end
  end.

(** [String.prototype.trim] *)
Definition trim (s : string) : string := trimEnd (trimStart s).

(** Truthiness of a string value: only the empty string is falsy. *)
Definition truthy (s : string) : bool :=
  match s with EmptyString => false | _ => true end.

(** Truthiness of a property that may be [undefined]. *)
Definition truthy_opt (o : option string) : bool :=
  match o with Some s => truthy s | None => false end.

(** [text.includes(q)] *)
Fixpoint includes (text q : string) : bool :=
  String.prefix q text ||
  match text with
  | EmptyString => false
  | String _ r => includes r q
  end.

(** [Array.prototype.join('')] *)
Definition join (l : list string) : string := fold_right String.append "" l.

Fixpoint take (n : nat) (s : string) : string :=
  match n, s with
  | S n', String c r => String c (take n' r)
  | _, _ => EmptyString
  end.

Fixpoint drop (n : nat) (s : string) : string :=
  match n, s with
  | S n', String _ r => drop n' r
  | _, _ => s
  end.

(** *** Regular expressions built from the query

    handleSearch builds a RegExp with flags gi from the raw query put
    between parentheses.  When the query holds no syntax character the
    pattern is one capture group around a literal, and replace with the
    mark template wraps each leftmost, non-overlapping, case-insensitive
    occurrence. *)

Definition dq : string := String (ascii_of_nat 34) EmptyString.

Definition mark_open : string := "<mark class=" ++ dq ++ "highlight" ++ dq ++ ">".
Definition mark_close : string := "</mark>".

(** The syntax characters of a pattern: ^ $ \ . * + ? ( ) [ ] { } | *)
Definition syntax_char (c : ascii) : bool :=
  existsb (Nat.eqb (nat_of_ascii c))
    [94; 36; 92; 46; 42; 43; 63; 40; 41; 91; 93; 123; 125; 124]%nat.

Fixpoint literal_pattern (q : string) : bool :=
  match q with
  | EmptyString => true
  | String c r => negb (syntax_char c) && literal_pattern r
  end.

(** Does the pattern match at the start of [s], ignoring case? *)
Definition prefix_ci (q s : string) : bool :=
  String.prefix (toLowerCase q) (toLowerCase s).

(** The subject cut into untouched characters and matches. *)
Inductive piece : Type :=
| Plain (c : ascii)
| Marked (m : string).

Fixpoint scan (fuel : nat) (q s : string) : list piece :=
  match fuel with
  | O => []
  | S fuel' =>
      match s with
      | EmptyString =>
          match q with EmptyString => [Marked EmptyString] | _ => [] end
      | String c r =>
          if prefix_ci q s then
            match len q with
            | O => Marked EmptyString :: Plain c :: scan fuel' q r
            | n => Marked (take n s) :: scan fuel' q (drop n s)
            end
          else Plain c :: scan fuel' q r
      end
  end.

Definition render_piece (p : piece) : string :=
  match p with
  | Plain c => String c EmptyString
  | Marked m => mark_open ++ m ++ mark_close
  end.

Definition raw_piece (p : piece) : string :=
  match p with
  | Plain c => String c EmptyString
  | Marked m => m
  end.

Definition render (ps : list piece) : string := join (map render_piece ps).
Definition raw (ps : list piece) : string := join (map raw_piece ps).

Definition pieces (q s : string) : list piece := scan (S (len s)) q s.

(** The replace call of handleSearch, for a query [q] of literal
    characters. *)
Definition replace_literal (q s : string) : string := render (pieces q s).

End Js.

(** ** Configuration (CONFIG) *)

Definition CHAPTERS_DIRECTORY : string := "chapters".
Definition CHAPTERS_TO_LOAD : list string := ["kinematics.html"; "dynamics.html"].
Definition LAZY_LOAD_THRESHOLD : Z := 100.
Definition ANIMATION_FPS : Z := 60.
Definition DEBOUNCE_DELAY : Z := 150.
Definition CACHE_DURATION : Z := 600000.

(** ** The page

    Elements are identified by a number standing for object identity.
    The tree keeps what the selectors of the engine look at: chapters,
    their content node, subsections, formula items and interactive plots,
    in document order.  Chapters are top-level blocks of the document
    (they do not nest), as every fragment is one chapter. *)

Record PlotNode : Type := {
  pl_el : nat;               (* the .interactive-plot element *)
  pl_plotId : string;        (* its data-plot-id attribute *)
  pl_forceCanvas : bool;     (* has a #forceCanvas descendant *)
  pl_plotCanvas : bool       (* has a .plot-canvas descendant *)
}.

Record ItemNode : Type := {
  it_el : nat;               (* the .formula-item element *)
  it_h3 : option string      (* text of its first h3, when it has one *)
}.

Inductive Leaf : Type :=
| LeafItem (i : ItemNode)
| LeafPlot (p : PlotNode).

Record Subsection : Type := {
  ss_el : nat;
  ss_content : option nat;   (* its .subsection-content, when present *)
  ss_icon : option nat;      (* its .toggle-icon, when present *)
  ss_leaves : list Leaf
}.

Inductive Child : Type :=
| ChildLeaf (l : Leaf)
| ChildSub (s : Subsection).

Record Chapter : Type := {
  ch_el : nat;
  ch_h2 : option string;     (* text of its first h2, when it has one *)
  ch_content : option nat;   (* its .chapter-content, when present *)
  ch_children : list Child
}.

Inductive Block : Type :=
| BlockChapter (c : Chapter)
| BlockLeaf (l : Leaf).

(** Selector results, in document order. *)

Definition leaf_items (l : Leaf) : list ItemNode :=
  match l with LeafItem i => [i] | LeafPlot _ => [] end.

Definition leaf_plots (l : Leaf) : list PlotNode :=
  match l with LeafItem _ => [] | LeafPlot p => [p] end.

Definition subsection_plots (s : Subsection) : list PlotNode :=
  flat_map leaf_plots (ss_leaves s).

Definition child_items (c : Child) : list ItemNode :=
  match c with
  | ChildLeaf l => leaf_items l
  | ChildSub s => flat_map leaf_items (ss_leaves s)
  end.

Definition child_plots (c : Child) : list PlotNode :=
  match c with
  | ChildLeaf l => leaf_plots l
  | ChildSub s => subsection_plots s
  end.

Definition child_subsections (c : Child) : list Subsection :=
  match c with ChildLeaf _ => [] | ChildSub s => [s] end.

(** chapter.querySelectorAll('.formula-item') *)
Definition chapter_items (c : Chapter) : list ItemNode :=
  flat_map child_items (ch_children c).

(** chapter.querySelectorAll('.interactive-plot[data-plot-id]') *)
Definition chapter_plots (c : Chapter) : list PlotNode :=
  flat_map child_plots (ch_children c).

(** chapter.querySelectorAll('.subsection') *)
Definition chapter_subsections (c : Chapter) : list Subsection :=
  flat_map child_subsections (ch_children c).

(** document.querySelectorAll('.chapter') *)
Definition doc_chapters (body : list Block) : list Chapter :=
  flat_map (fun b => match b with BlockChapter c => [c] | BlockLeaf _ => [] end) body.

(** document.querySelectorAll('.formula-item') *)
Definition doc_items (body : list Block) : list ItemNode :=
  flat_map (fun b => match b with
                     | BlockChapter c => chapter_items c
                     | BlockLeaf l => leaf_items l
                     end) body.

(** document.querySelectorAll('.interactive-plot[data-plot-id]') *)
Definition doc_plots (body : list Block) : list PlotNode :=
  flat_map (fun b => match b with
                     | BlockChapter c => chapter_plots c
                     | BlockLeaf l => leaf_plots l
                     end) body.

(** Mutable parts of the elements.  There is one store per kind of node,
    so that nodes of different kinds never alias. *)

Inductive CssValue : Type :=
| CssText (s : string)
| CssPx (n : nat).

Record ItemEl : Type := {
  it_classList : gset string;
  innerHTML : string;
  dataset : gmap string string
}.

Record Page : Type := {
  body : list Block;
  itemEls : nat -> ItemEl;
  chapterClass : nat -> gset string;     (* classList of each .chapter *)
  subsectionClass : nat -> gset string;  (* classList of each .subsection *)
  styles : nat -> gmap string CssValue;  (* style of content and icon nodes *)
  scrollHeight : nat -> nat              (* layout, read only *)
}.

(** The fixed elements of index.html that the engine looks up by id;
    [None] when the element is absent. *)

Record Container : Type := {
  c_innerHTML : string;
  c_hidden : bool
}.

Record Chrome : Type := {
  container : option Container;          (* #formula-collection-container *)
  errorContainer : option bool;          (* #error-container, its hidden flag *)
  errorMessage : option string;          (* #error-message, its textContent *)
  retryBtn : option nat;                 (* #retry-load, its click listeners *)
  noResultsMessage : option bool;        (* #no-results-message, hidden flag *)
  loadingOverlay : option (gset string); (* #loading-overlay, classList *)
  searchInput : option string;           (* #search-input, its value *)
  clearButton : option bool              (* #clear-search, hidden flag *)
}.

(** ** Global state (STATE) *)

Record CacheEntry : Type := {
  content : string;
  timestamp : Z
}.

Record IndexEntry : Type := {
  element : nat;
  chapter : nat;
  chapterTitle : string;
  text : string;
  title : string
}.

Record STATE : Type := {
  loadedChapters : gset string;
  activeCharts : gmap string nat;        (* plot id to chart object *)
  activeAnimations : gmap string nat;    (* plot id to animation controller *)
  observedElements : gset nat;           (* keys of the WeakMap *)
  chapterCache : gmap string CacheEntry;
  searchIndex : option (list IndexEntry);
  currentTheme : string;
  isLoading : bool;
  animationSpeed : spec_float            (* a double *)
}.

(** What the engine did to the outside world, oldest first. *)
Record Effects : Type := {
  fetched : list string;                 (* URLs passed to fetch *)
  observing : list nat;                  (* lazyLoader.observe(element) *)
  initialized : list (string * nat);     (* PLOT_INITIALIZERS[id](element) *)
  destroyed : list nat;                  (* chart.destroy() *)
  stopped : list nat;                    (* controller.stop() *)
  created : nat                          (* objects allocated so far *)
}.

Record App : Type := {
  st : STATE;
  page : Page;
  ui : Chrome;
  fx : Effects
}.

Definition initial_STATE : STATE :=
  {| loadedChapters := ∅; activeCharts := ∅; activeAnimations := ∅;
     observedElements := ∅; chapterCache := ∅; searchIndex := None;
     currentTheme := "light"; isLoading := false; animationSpeed := binary_normalize 53 1024 1 0 false |}.

Definition no_effects : Effects :=
  {| fetched := []; observing := []; initialized := []; destroyed := [];
     stopped := []; created := 0 |}.

(** Field updates. *)

Definition set_loadedChapters (f : gset string -> gset string) (s : STATE) : STATE :=
  {| loadedChapters := f (loadedChapters s); activeCharts := activeCharts s;
     activeAnimations := activeAnimations s; observedElements := observedElements s;
     chapterCache := chapterCache s; searchIndex := searchIndex s;
     currentTheme := currentTheme s; isLoading := isLoading s;
     animationSpeed := animationSpeed s |}.

Definition set_activeCharts (f : gmap string nat -> gmap string nat) (s : STATE) : STATE :=
  {| loadedChapters := loadedChapters s; activeCharts := f (activeCharts s);
     activeAnimations := activeAnimations s; observedElements := observedElements s;
     chapterCache := chapterCache s; searchIndex := searchIndex s;
     currentTheme := currentTheme s; isLoading := isLoading s;
     animationSpeed := animationSpeed s |}.

Definition set_activeAnimations (f : gmap string nat -> gmap string nat) (s : STATE) : STATE :=
  {| loadedChapters := loadedChapters s; activeCharts := activeCharts s;
     activeAnimations := f (activeAnimations s); observedElements := observedElements s;
     chapterCache := chapterCache s; searchIndex := searchIndex s;
     currentTheme := currentTheme s; isLoading := isLoading s;
     animationSpeed := animationSpeed s |}.

Definition set_observedElements (f : gset nat -> gset nat) (s : STATE) : STATE :=
  {| loadedChapters := loadedChapters s; activeCharts := activeCharts s;
     activeAnimations := activeAnimations s; observedElements := f (observedElements s);
     chapterCache := chapterCache s; searchIndex := searchIndex s;
     currentTheme := currentTheme s; isLoading := isLoading s;
     animationSpeed := animationSpeed s |}.

Definition set_chapterCache (f : gmap string CacheEntry -> gmap string CacheEntry)
    (s : STATE) : STATE :=
  {| loadedChapters := loadedChapters s; activeCharts := activeCharts s;
     activeAnimations := activeAnimations s; observedElements := observedElements s;
     chapterCache := f (chapterCache s); searchIndex := searchIndex s;
     currentTheme := currentTheme s; isLoading := isLoading s;
     animationSpeed := animationSpeed s |}.

Definition set_searchIndex (i : option (list IndexEntry)) (s : STATE) : STATE :=
  {| loadedChapters := loadedChapters s; activeCharts := activeCharts s;
     activeAnimations := activeAnimations s; observedElements := observedElements s;
     chapterCache := chapterCache s; searchIndex := i;
     currentTheme := currentTheme s; isLoading := isLoading s;
     animationSpeed := animationSpeed s |}.

Definition set_isLoading (b : bool) (s : STATE) : STATE :=
  {| loadedChapters := loadedChapters s; activeCharts := activeCharts s;
     activeAnimations := activeAnimations s; observedElements := observedElements s;
     chapterCache := chapterCache s; searchIndex := searchIndex s;
     currentTheme := currentTheme s; isLoading := b;
     animationSpeed := animationSpeed s |}.

Definition on_st (f : STATE -> STATE) (a : App) : App :=
  {| st := f (st a); page := page a; ui := ui a; fx := fx a |}.

Definition on_page (f : Page -> Page) (a : App) : App :=
  {| st := st a; page := f (page a); ui := ui a; fx := fx a |}.

Definition on_ui (f : Chrome -> Chrome) (a : App) : App :=
  {| st := st a; page := page a; ui := f (ui a); fx := fx a |}.

Definition on_fx (f : Effects -> Effects) (a : App) : App :=
  {| st := st a; page := page a; ui := ui a; fx := f (fx a) |}.

Definition set_itemEls (f : (nat -> ItemEl) -> nat -> ItemEl) (p : Page) : Page :=
  {| body := body p; itemEls := f (itemEls p); chapterClass := chapterClass p;
     subsectionClass := subsectionClass p; styles := styles p;
     scrollHeight := scrollHeight p |}.

Definition set_chapterClass (f : (nat -> gset string) -> nat -> gset string)
    (p : Page) : Page :=
  {| body := body p; itemEls := itemEls p; chapterClass := f (chapterClass p);
     subsectionClass := subsectionClass p; styles := styles p;
     scrollHeight := scrollHeight p |}.

Definition set_subsectionClass (f : (nat -> gset string) -> nat -> gset string)
    (p : Page) : Page :=
  {| body := body p; itemEls := itemEls p; chapterClass := chapterClass p;
     subsectionClass := f (subsectionClass p); styles := styles p;
     scrollHeight := scrollHeight p |}.

Definition set_styles
    (f : (nat -> gmap string CssValue) -> nat -> gmap string CssValue)
    (p : Page) : Page :=
  {| body := body p; itemEls := itemEls p; chapterClass := chapterClass p;
     subsectionClass := subsectionClass p; styles := f (styles p);
     scrollHeight := scrollHeight p |}.

Definition set_container (c : option Container) (u : Chrome) : Chrome :=
  {| container := c; errorContainer := errorContainer u;
     errorMessage := errorMessage u; retryBtn := retryBtn u;
     noResultsMessage := noResultsMessage u; loadingOverlay := loadingOverlay u;
     searchInput := searchInput u; clearButton := clearButton u |}.

Definition set_errorContainer (e : option bool) (u : Chrome) : Chrome :=
  {| container := container u; errorContainer := e;
     errorMessage := errorMessage u; retryBtn := retryBtn u;
     noResultsMessage := noResultsMessage u; loadingOverlay := loadingOverlay u;
     searchInput := searchInput u; clearButton := clearButton u |}.

Definition set_errorMessage (e : option string) (u : Chrome) : Chrome :=
  {| container := container u; errorContainer := errorContainer u;
     errorMessage := e; retryBtn := retryBtn u;
     noResultsMessage := noResultsMessage u; loadingOverlay := loadingOverlay u;
     searchInput := searchInput u; clearButton := clearButton u |}.

Definition set_retryBtn (r : option nat) (u : Chrome) : Chrome :=
  {| container := container u; errorContainer := errorContainer u;
     errorMessage := errorMessage u; retryBtn := r;
     noResultsMessage := noResultsMessage u; loadingOverlay := loadingOverlay u;
     searchInput := searchInput u; clearButton := clearButton u |}.

Definition set_noResultsMessage (n : option bool) (u : Chrome) : Chrome :=
  {| container := container u; errorContainer := errorContainer u;
     errorMessage := errorMessage u; retryBtn := retryBtn u;
     noResultsMessage := n; loadingOverlay := loadingOverlay u;
     searchInput := searchInput u; clearButton := clearButton u |}.

Definition set_loadingOverlay (l : option (gset string)) (u : Chrome) : Chrome :=
  {| container := container u; errorContainer := errorContainer u;
     errorMessage := errorMessage u; retryBtn := retryBtn u;
     noResultsMessage := noResultsMessage u; loadingOverlay := l;
     searchInput := searchInput u; clearButton := clearButton u |}.

Definition set_searchInput (v : option string) (u : Chrome) : Chrome :=
  {| container := container u; errorContainer := errorContainer u;
     errorMessage := errorMessage u; retryBtn := retryBtn u;
     noResultsMessage := noResultsMessage u; loadingOverlay := loadingOverlay u;
     searchInput := v; clearButton := clearButton u |}.

Definition set_clearButton (b : option bool) (u : Chrome) : Chrome :=
  {| container := container u; errorContainer := errorContainer u;
     errorMessage := errorMessage u; retryBtn := retryBtn u;
     noResultsMessage := noResultsMessage u; loadingOverlay := loadingOverlay u;
     searchInput := searchInput u; clearButton := b |}.

(** classList.toggle(name, force) *)
Definition classList_toggle (name : string) (force : bool) (cl : gset string)
    : gset string :=
  if force then cl ∪ {[name]} else cl ∖ {[name]}.

(** classList.contains(name) *)
Definition classList_contains (name : string) (cl : gset string) : bool :=
  bool_decide (name ∈ cl).

(** ** Calls that may throw *)

(** A call either returns or throws, and keeps its writes either way. *)
Inductive Completion (S : Type) : Type :=
| Normal (s : S)
| Throw (message : string) (s : S).

Arguments Normal {S} s.
Arguments Throw {S} message s.

Definition completed {S : Type} (c : Completion S) : S :=
  match c with Normal s => s | Throw _ s => s end.

(** Array.prototype.forEach with a callback that may throw. *)
Fixpoint forEach {A S : Type} (f : A -> S -> Completion S) (l : list A) (s : S)
    : Completion S :=
  match l with
  | [] => Normal s
  | x :: r =>
      match f x s with
      | Normal s' => forEach f r s'
      | Throw m s' => Throw m s'
      end
  end.

Definition log_fetched (url : string) (e : Effects) : Effects :=
  {| fetched := fetched e ++ [url]; observing := observing e;
     initialized := initialized e; destroyed := destroyed e;
     stopped := stopped e; created := created e |}.

Definition log_observing (el : nat) (e : Effects) : Effects :=
  {| fetched := fetched e; observing := observing e ++ [el];
     initialized := initialized e; destroyed := destroyed e;
     stopped := stopped e; created := created e |}.

Definition log_initialized (plotId : string) (el : nat) (e : Effects) : Effects :=
  {| fetched := fetched e; observing := observing e;
     initialized := initialized e ++ [(plotId, el)]; destroyed := destroyed e;
     stopped := stopped e; created := created e |}.

Definition log_destroyed (h : nat) (e : Effects) : Effects :=
  {| fetched := fetched e; observing := observing e;
     initialized := initialized e; destroyed := destroyed e ++ [h];
     stopped := stopped e; created := created e |}.

Definition log_stopped (h : nat) (e : Effects) : Effects :=
  {| fetched := fetched e; observing := observing e;
     initialized := initialized e; destroyed := destroyed e;
     stopped := stopped e ++ [h]; created := created e |}.

Definition log_created (e : Effects) : Effects :=
  {| fetched := fetched e; observing := observing e;
     initialized := initialized e; destroyed := destroyed e;
     stopped := stopped e; created := S (created e) |}.

(** ** The chapter cache (ChapterManager.getCachedChapters, cacheChapters)

    [now] is the value of Date.now() at the call. *)

Definition getCachedChapters (now : Z) (s : STATE) : option string * STATE :=
  match chapterCache s !! "chapters" with
  | None => (None, s)
  | Some cached =>
      if (CACHE_DURATION <? now - timestamp cached)%Z
      then (None, set_chapterCache (delete "chapters") s)
      else (Some (content cached), s)
  end.

Definition cacheChapters (c : string) (now : Z) (s : STATE) : STATE :=
  set_chapterCache (<["chapters" := {| content := c; timestamp := now |}]>) s.

(** ** Plot initializers and the lazy loader *)

Inductive Initializer : Type :=
| Kinematics1dChartjs
| ForceAnalysisSim.

(** What the property access PLOT_INITIALIZERS[plotId] finds.  The object
    is a literal, so besides its two own properties the access finds the
    members of Object.prototype. *)
Inductive Property : Type :=
| Own (i : Initializer)
| InheritedMethod     (* a method that returns when called with the element *)
| InheritedThrowing.  (* a member whose call with the element throws *)

(** The methods of Object.prototype that return when they are called with
    one element as argument. *)
Definition returning_members : list string :=
  ["constructor"; "hasOwnProperty"; "isPrototypeOf"; "propertyIsEnumerable";
   "toLocaleString"; "toString"; "valueOf"; "__lookupGetter__";
   "__lookupSetter__"].

(** __proto__ is the prototype object, not a function; __defineGetter__
    and __defineSetter__ throw a TypeError when their second argument is
    not a function. *)
Definition throwing_members : list string :=
  ["__proto__"; "__defineGetter__"; "__defineSetter__"].

Definition PLOT_INITIALIZERS (plotId : string) : option Property :=
  if String.eqb plotId "kinematics-1d-chartjs" then Some (Own Kinematics1dChartjs)
  else if String.eqb plotId "force-analysis-sim" then Some (Own ForceAnalysisSim)
  else if existsb (String.eqb plotId) returning_members then Some InheritedMethod
  else if existsb (String.eqb plotId) throwing_members then Some InheritedThrowing
  else None.

(** The call of an initializer, up to its first await.  The chart plot
    awaits its libraries before anything else; the force simulation runs
    to its end and registers its controller when it finds its canvas. *)
Definition call_initializer (i : Initializer) (p : PlotNode) (a : App) : App :=
  let a := on_fx (log_initialized (pl_plotId p) (pl_el p)) a in
  match i with
  | Kinematics1dChartjs => a
  | ForceAnalysisSim =>
      if pl_forceCanvas p then
        on_fx log_created
          (on_st (set_activeAnimations (<[pl_plotId p := created (fx a)]>)) a)
      else a
  end.

(** The rest of the chart plot, run once its libraries are loaded. *)
Definition kinematics_resume (p : PlotNode) (a : App) : App :=
  if pl_plotCanvas p then
    on_fx log_created
      (on_st (set_activeCharts (<[pl_plotId p := created (fx a)]>)) a)
  else a.

Record IntersectionObserverEntry : Type := {
  target : PlotNode;
  isIntersecting : bool
}.

(** LazyLoader.initializePlot.  The initializers of the object are async
    functions: their call returns a promise and never throws. *)
Definition initializePlot (p : PlotNode) (a : App) : Completion App :=
  if Js.truthy (pl_plotId p) then
    match PLOT_INITIALIZERS (pl_plotId p) with
    | Some (Own i) => Normal (call_initializer i p a)
    | Some InheritedMethod => Normal a
    | Some InheritedThrowing => Throw "TypeError" a
    | None => Normal a
    end
  else Normal a.

(** The callback of entries.forEach in handleIntersection. *)
Definition handleEntry (entry : IntersectionObserverEntry) (a : App)
    : Completion App :=
  if isIntersecting entry
     && negb (bool_decide (pl_el (target entry) ∈ observedElements (st a)))
  then
    initializePlot (target entry)
      (on_st (set_observedElements (fun o => o ∪ {[pl_el (target entry)]})) a)
  else Normal a.

(** LazyLoader.handleIntersection: an exception leaves the loop, and the
    entries that follow are not looked at. *)
Definition handleIntersection (entries : list IntersectionObserverEntry) (a : App)
    : Completion App :=
  forEach handleEntry entries a.

(** ** Expanding and collapsing *)

Definition cleanupPlot (a : App) (plot : PlotNode) : App :=
  let plotId := pl_plotId plot in
  let a :=
    match activeCharts (st a) !! plotId with
    | Some chart =>
        on_st (set_activeCharts (delete plotId)) (on_fx (log_destroyed chart) a)
    | None => a
    end in
  let a :=
    match activeAnimations (st a) !! plotId with
    | Some controller =>
        on_st (set_activeAnimations (delete plotId))
          (on_fx (log_stopped controller) a)
    | None => a
    end in
  on_st (set_observedElements (fun o => o ∖ {[pl_el plot]})) a.

(** ChapterManager.cleanupChapterResources *)
Definition cleanupChapterResources (c : Chapter) (a : App) : App :=
  fold_left cleanupPlot (chapter_plots c) a.

Definition set_style (el : nat) (prop : string) (v : option CssValue) (a : App) : App :=
  on_page (set_styles (fun s =>
    <[el := match v with
            | Some v => <[prop := v]> (s el)
            | None => delete prop (s el)
            end]> s)) a.

Definition rotate_icon (icon : option nat) (v : string) (a : App) : App :=
  match icon with
  | Some i => set_style i "transform" (Some (CssText v)) a
  | None => a
  end.

(** ChapterManager.toggleSubsection; [forceState = None] is the default
    argument null. *)
Definition toggleSubsection (s : Subsection) (forceState : option bool) (a : App)
    : App :=
  match ss_content s with
  | None => a
  | Some contentEl =>
      let isActive :=
        match forceState with
        | Some b => b
        | None => negb (classList_contains "active" (subsectionClass (page a) (ss_el s)))
        end in
      if isActive then
        let a := on_page (set_subsectionClass (fun cl =>
                   <[ss_el s := cl (ss_el s) ∪ {["active"]}]> cl)) a in
        let a := set_style contentEl "maxHeight"
                   (Some (CssPx (scrollHeight (page a) contentEl))) a in
        rotate_icon (ss_icon s) "rotate(45deg)" a
      else
        let a := on_page (set_subsectionClass (fun cl =>
                   <[ss_el s := cl (ss_el s) ∖ {["active"]}]> cl)) a in
        let a := set_style contentEl "maxHeight" None a in
        rotate_icon (ss_icon s) "rotate(0deg)" a
  end.

(** ChapterManager.toggleChapter.  The delayed recomputation of the
    height (setTimeout) is layout only and is left out. *)
Definition toggleChapter (c : Chapter) (forceState : option bool) (a : App) : App :=
  match ch_content c with
  | None => a
  | Some contentEl =>
      let isActive :=
        match forceState with
        | Some b => b
        | None => negb (classList_contains "active" (chapterClass (page a) (ch_el c)))
        end in
      let hasSubsections := (0 <? length (chapter_subsections c))%nat in
      let a := on_page (set_chapterClass (fun cl =>
                 <[ch_el c := classList_toggle "has-subsections" hasSubsections
                                (cl (ch_el c))]> cl)) a in
      if isActive then
        let a := on_page (set_chapterClass (fun cl =>
                   <[ch_el c := cl (ch_el c) ∪ {["active"]}]> cl)) a in
        if hasSubsections then
          let a := set_style contentEl "maxHeight" (Some (CssText "none")) a in
          set_style contentEl "overflow" (Some (CssText "visible")) a
        else
          set_style contentEl "maxHeight"
            (Some (CssPx (scrollHeight (page a) contentEl))) a
      else
        let a := on_page (set_chapterClass (fun cl =>
                   <[ch_el c := cl (ch_el c) ∖ {["active"]}]> cl)) a in
        let a := set_style contentEl "maxHeight" None a in
        let a := set_style contentEl "overflow" None a in
        cleanupChapterResources c a
  end.

(** ** The browser

    What the page gets from the browser and the model does not compute:
    the text of an element from its HTML source, the source of a formula
    item once initializeCopyButtons has appended its buttons, and the
    regular-expression engine on patterns that hold syntax characters
    ([None]: the RegExp constructor throws a SyntaxError; [Some f]: [f]
    is the replace call with the mark template). *)

Record Browser : Type := {
  textContent : string -> string;
  withCopyButtons : string -> string;
  RegExp_other : string -> option (string -> string)
}.

(** ** Search index *)

Definition index_item (B : Browser) (p : Page) (c : Chapter) (chapterTitle : string)
    (index : list IndexEntry) (item : ItemNode) : list IndexEntry :=
  index ++
  [{| element := it_el item;
      chapter := ch_el c;
      chapterTitle := chapterTitle;
      text := Js.toLowerCase (textContent B (innerHTML (itemEls p (it_el item))));
      title := default "" (it_h3 item) |}].

Definition index_chapter (B : Browser) (p : Page) (index : list IndexEntry)
    (c : Chapter) : list IndexEntry :=
  let chapterTitle := default "" (ch_h2 c) in
  fold_left (index_item B p c chapterTitle) (chapter_items c) index.

(** ChapterManager.buildSearchIndex *)
Definition buildSearchIndex (B : Browser) (a : App) : App :=
  let index := fold_left (index_chapter B (page a)) (doc_chapters (body (page a))) [] in
  on_st (set_searchIndex (Some index)) a.

(** ** Search *)

Definition set_item (el : nat) (v : ItemEl) (a : App) : App :=
  on_page (set_itemEls (fun els => <[el := v]> els)) a.

Definition originalContent (e : ItemEl) : option string :=
  dataset e !! "originalContent".

Definition clearItem (a : App) (item : ItemNode) : App :=
  let e := itemEls (page a) (it_el item) in
  let cl := it_classList e ∖ {["hidden"]} in
  if Js.truthy_opt (originalContent e) then
    set_item (it_el item)
      {| it_classList := cl;
         innerHTML := default "" (originalContent e);
         dataset := delete "originalContent" (dataset e) |} a
  else
    set_item (it_el item)
      {| it_classList := cl; innerHTML := innerHTML e; dataset := dataset e |} a.

Definition unhideChapter (a : App) (c : Chapter) : App :=
  on_page (set_chapterClass (fun cl => <[ch_el c := cl (ch_el c) ∖ {["hidden"]}]> cl)) a.

(** SearchManager.clearSearch *)
Definition clearSearch (a : App) : App :=
  let a := on_ui (fun u => match searchInput u with
                           | Some _ => set_searchInput (Some "") u
                           | None => u
                           end) a in
  let a := on_ui (fun u => match clearButton u with
                           | Some _ => set_clearButton (Some true) u
                           | None => u
                           end) a in
  let a := fold_left clearItem (doc_items (body (page a))) a in
  let a := fold_left unhideChapter (doc_chapters (body (page a))) a in
  on_ui (fun u => match noResultsMessage u with
                  | Some _ => set_noResultsMessage (Some true) u
                  | None => u
                  end) a.

(** new RegExp of the query between parentheses, flags gi, as the
    function that replace applies with the mark template. *)
Definition highlightRegex (B : Browser) (query : string) : option (string -> string) :=
  if Js.literal_pattern query then Some (Js.replace_literal query)
  else RegExp_other B query.

Record SearchLoop : Type := {
  hasResults : bool;
  matchedChapters : gset nat;
  loop_app : App
}.

(** The callback of STATE.searchIndex.forEach in handleSearch. *)
Definition searchEntry (B : Browser) (query : string) (entry : IndexEntry)
    (s : SearchLoop) : Completion SearchLoop :=
  let a := loop_app s in
  let matches := Js.includes (text entry) query in
  let e := itemEls (page a) (element entry) in
  let cl := classList_toggle "hidden" (negb matches) (it_classList e) in
  if matches then
    let ds := if negb (Js.truthy_opt (originalContent e))
              then <["originalContent" := innerHTML e]> (dataset e)
              else dataset e in
    let saved := {| it_classList := cl; innerHTML := innerHTML e; dataset := ds |} in
    let found (a' : App) :=
      {| hasResults := true;
         matchedChapters := matchedChapters s ∪ {[chapter entry]};
         loop_app := a' |} in
    match highlightRegex B query with
    | None => Throw "SyntaxError" (found (set_item (element entry) saved a))
    | Some replace =>
        Normal (found (set_item (element entry)
          {| it_classList := cl;
             innerHTML := replace (default "" (ds !! "originalContent"));
             dataset := ds |} a))
    end
  else if Js.truthy_opt (originalContent e) then
    Normal {| hasResults := hasResults s; matchedChapters := matchedChapters s;
              loop_app := set_item (element entry)
                {| it_classList := cl;
                   innerHTML := default "" (originalContent e);
                   dataset := dataset e |} a |}
  else
    Normal {| hasResults := hasResults s; matchedChapters := matchedChapters s;
              loop_app := set_item (element entry)
                {| it_classList := cl; innerHTML := innerHTML e;
                   dataset := dataset e |} a |}.

Definition showChapter (query : string) (matched : gset nat) (a : App) (c : Chapter)
    : App :=
  let hasMatch := bool_decide (ch_el c ∈ matched) in
  let a := on_page (set_chapterClass (fun cl =>
             <[ch_el c := classList_toggle "hidden" (negb hasMatch) (cl (ch_el c))]> cl))
             a in
  if hasMatch && Js.truthy query then toggleChapter c (Some true) a else a.

(** SearchManager.handleSearch; [value] is event.target.value. *)
Definition handleSearch (B : Browser) (value : string) (a : App) : Completion App :=
  let query := Js.trim (Js.toLowerCase value) in
  if negb (Js.truthy query) then Normal (clearSearch a)
  else
    let start := {| hasResults := false; matchedChapters := ∅; loop_app := a |} in
    let scanned :=
      match searchIndex (st a) with
      | Some index => forEach (searchEntry B query) index start
      | None => Normal start
      end in
    match scanned with
    | Throw m s => Throw m (loop_app s)
    | Normal s =>
        let a := loop_app s in
        let a := fold_left (showChapter query (matchedChapters s))
                   (doc_chapters (body (page a))) a in
        Normal (on_ui (fun u =>
          match noResultsMessage u with
          | Some _ => set_noResultsMessage (Some (hasResults s || negb (Js.truthy query))) u
          | None => u
          end) a)
    end.

(** ** Loading the chapters *)

Inductive FetchOutcome : Type :=
| NetworkError                                (* fetch rejects *)
| Response (ok : bool) (html : option string) (* [None]: reading the body rejects *).

(** What one run of loadChapters meets: the clock at the cache lookup and
    at the store, the network, the parser behind container.innerHTML, and
    the error that the initialisation of the new page throws, if any. *)
Record LoadEnv : Type := {
  now_lookup : Z;
  now_store : Z;
  fetch : string -> FetchOutcome;
  parse : string -> Page;
  init_error : option string
}.

Definition chapter_url (file : string) : string :=
  CHAPTERS_DIRECTORY ++ "/" ++ file.

Definition failed_chapter (file : string) : string :=
  "<div class=" ++ Js.dq ++ "chapter error" ++ Js.dq ++ ">Failed to load "
  ++ file ++ "</div>".

(** Did the fetch of [file] yield its HTML? *)
Definition fetched_html (env : LoadEnv) (file : string) : option string :=
  match fetch env (chapter_url file) with
  | Response true (Some html) => Some html
  | _ => None
  end.

(** The async callback of CHAPTERS_TO_LOAD.map. *)
Definition fetchChapter (env : LoadEnv) (file : string) (a : App) : string * App :=
  let a := on_fx (log_fetched (chapter_url file)) a in
  match fetch env (chapter_url file) with
  | Response true (Some html) =>
      (html, on_st (set_loadedChapters (fun l => l ∪ {[file]})) a)
  | _ => (failed_chapter file, a)
  end.

(** Promise.all over the callbacks: results in the order of the files. *)
Fixpoint fetchAll (env : LoadEnv) (files : list string) (a : App)
    : list string * App :=
  match files with
  | [] => ([], a)
  | file :: rest =>
      let (html, a) := fetchChapter env file a in
      let (htmls, a) := fetchAll env rest a in
      (html :: htmls, a)
  end.

(** container.innerHTML = html *)
Definition inject (env : LoadEnv) (html : string) (a : App) : App :=
  match container (ui a) with
  | None => a
  | Some c =>
      on_page (fun _ => parse env html)
        (on_ui (set_container (Some {| c_innerHTML := html; c_hidden := c_hidden c |})) a)
  end.

Definition addCopyButtons (B : Browser) (a : App) (item : ItemNode) : App :=
  let e := itemEls (page a) (it_el item) in
  set_item (it_el item)
    {| it_classList := it_classList e;
       innerHTML := withCopyButtons B (innerHTML e);
       dataset := dataset e |} a.

(** ChapterManager.initializeCopyButtons, as seen from the formula items *)
Definition initializeCopyButtons (B : Browser) (a : App) : App :=
  fold_left (addCopyButtons B) (doc_items (body (page a))) a.

(** ChapterManager.initializePlots *)
Definition initializePlots (a : App) : App :=
  fold_left (fun a p => on_fx (log_observing (pl_el p)) a) (doc_plots (body (page a))) a.

(** ChapterManager.onChaptersLoaded.  The toggles and the navigation only
    add listeners, which are the operations below. *)
Definition onChaptersLoaded (B : Browser) (env : LoadEnv) (a : App) : Completion App :=
  match init_error env with
  | Some message => Throw message a
  | None =>
      let a := initializeCopyButtons B a in
      let a := initializePlots a in
      Normal (buildSearchIndex B a)
  end.

Definition fadeOut (a : App) : App :=
  on_ui (fun u => match loadingOverlay u with
                  | Some cl => set_loadingOverlay (Some (cl ∪ {["fade-out"]})) u
                  | None => u
                  end) a.

(** ChapterManager.showError *)
Definition showError (message : string) (a : App) : App :=
  let a := on_ui (fun u => match container u with
                           | Some c => set_container
                               (Some {| c_innerHTML := c_innerHTML c; c_hidden := true |}) u
                           | None => u
                           end) a in
  match errorContainer (ui a) with
  | None => a
  | Some _ =>
      let a := on_ui (set_errorContainer (Some false)) a in
      let a := on_ui (fun u => match errorMessage u with
                               | Some _ => set_errorMessage (Some message) u
                               | None => u
                               end) a in
      on_ui (fun u => match retryBtn u with
                      | Some n => set_retryBtn (Some (S n)) u
                      | None => u
                      end) a
  end.

(** The body of the try block of loadChapters. *)
Definition loadChapters_try (B : Browser) (env : LoadEnv) (a : App) : Completion App :=
  let a := on_st (set_isLoading true) a in
  let (cached, s) := getCachedChapters (now_lookup env) (st a) in
  let a := on_st (fun _ => s) a in
  if Js.truthy_opt cached then
    let a := inject env (default "" cached) a in
    match onChaptersLoaded B env a with
    | Normal a => Normal (fadeOut a)
    | Throw m a => Throw m a
    end
  else
    let (chapterHtmls, a) := fetchAll env CHAPTERS_TO_LOAD a in
    let content := Js.join chapterHtmls in
    let a := inject env content a in
    let a := on_st (cacheChapters content (now_store env)) a in
    match onChaptersLoaded B env a with
    | Normal a => Normal (fadeOut a)
    | Throw m a => Throw m a
    end.

(** ChapterManager.loadChapters, from the call to the end of the function
    with nothing else in between: the first load of the page. *)
Definition loadChapters (B : Browser) (env : LoadEnv) (a : App) : App :=
  match container (ui a) with
  | None => a
  | Some _ =>
      let a :=
        match loadChapters_try B env a with
        | Normal a => a
        | Throw message a => showError message a
        end in
      on_st (set_isLoading false) a
  end.

(** *** The phases of a load

    loadChapters is an async function.  A call runs at once up to its
    first await: on a cache hit there is none, and the call runs to its
    end; on a miss the callbacks of map issue the requests, one per file
    and in order, and the call then waits for the responses. *)
Definition loadChapters_start (B : Browser) (env : LoadEnv) (a : App)
    : App * option LoadEnv :=
  match container (ui a) with
  | None => (a, None)
  | Some _ =>
      let a := on_st (set_isLoading true) a in
      let (cached, s) := getCachedChapters (now_lookup env) (st a) in
      let a := on_st (fun _ => s) a in
      if Js.truthy_opt cached then
        let a := inject env (default "" cached) a in
        (on_st (set_isLoading false)
           match onChaptersLoaded B env a with
           | Normal a => fadeOut a
           | Throw message a => showError message a
           end, None)
      else
        (fold_left (fun a file => on_fx (log_fetched (chapter_url file)) a)
           CHAPTERS_TO_LOAD a, Some env)
  end.

(** The rest of the callback of map for one file, once its response is
    there. *)
Definition receive (env : LoadEnv) (a : App) (file : string) : App :=
  match fetch env (chapter_url file) with
  | Response true (Some _) => on_st (set_loadedChapters (fun l => l ∪ {[file]})) a
  | _ => a
  end.

Definition chapterHtml (env : LoadEnv) (file : string) : string :=
  match fetch env (chapter_url file) with
  | Response true (Some html) => html
  | _ => failed_chapter file
  end.

(** The rest of a load that waited: what runs from the responses to the
    end of the function.  The files join the loaded set as their
    responses arrive; nothing reads the set in between, and they are
    added here in one go. *)
Definition loadChapters_finish (B : Browser) (env : LoadEnv) (a : App) : App :=
  let a := fold_left (receive env) CHAPTERS_TO_LOAD a in
  let content := Js.join (map (chapterHtml env) CHAPTERS_TO_LOAD) in
  let a := inject env content a in
  let a := on_st (cacheChapters content (now_store env)) a in
  on_st (set_isLoading false)
    match onChaptersLoaded B env a with
    | Normal a => fadeOut a
    | Throw message a => showError message a
    end.

(** *** The retry button *)

(** One click listener of the retry button, as showError registers it:
    it hides the error, shows the container and calls loadChapters
    without awaiting it.  [waiting] are the loads that wait for their
    responses. *)
Definition retryListener (B : Browser) (env : LoadEnv) (acc : App * list LoadEnv)
    : App * list LoadEnv :=
  let (a, waiting) := acc in
  let a := on_ui (set_errorContainer (Some true)) a in
  let a := on_ui (fun u => match container u with
                           | Some c => set_container
                               (Some {| c_innerHTML := c_innerHTML c; c_hidden := false |}) u
                           | None => u
                           end) a in
  let (a, started) := loadChapters_start B env a in
  (a, (waiting ++ match started with Some e => [e] | None => [] end)%list).

(** The loads that wait finish in an order that the network decides:
    each pick names, among the loads still waiting, the one whose
    responses are complete next; when the picks run out the rest finish
    in the order in which they started. *)
Fixpoint finishLoads (B : Browser) (picks : list nat) (waiting : list LoadEnv)
    (a : App) : App :=
  match picks with
  | [] => fold_left (fun a env => loadChapters_finish B env a) waiting a
  | pick :: picks' =>
      let k := (pick mod length waiting)%nat in
      match waiting !! k with
      | Some env => finishLoads B picks' (delete k waiting) (loadChapters_finish B env a)
      | None => a
      end
  end.

(** A click on the retry button, up to the end of the loads it starts.
    The listeners registered so far run one after the other; [envs k] is
    what the load of the k-th listener meets.  A listener added during
    the click is not run by it.  Nothing else happens on the page until
    the loads have finished. *)
Definition retryClick (B : Browser) (envs : nat -> LoadEnv) (picks : list nat)
    (a : App) : App :=
  let (a, waiting) :=
    fold_left (fun acc k => retryListener B (envs k) acc)
      (seq 0 (default 0 (retryBtn (ui a)))) (a, []) in
  finishLoads B picks waiting a.

(** ** The operations of the page as one machine *)

Inductive Op : Type :=
| OpLoadChapters (env : LoadEnv)
| OpRetryClick (envs : nat -> LoadEnv) (picks : list nat)
| OpHandleIntersection (entries : list IntersectionObserverEntry)
| OpKinematicsResume (p : PlotNode)
| OpToggleChapter (c : Chapter) (forceState : option bool)
| OpToggleSubsection (s : Subsection) (forceState : option bool)
| OpExpandAll
| OpCollapseAll
| OpHandleSearch (value : string)
| OpClearSearch.

Definition step (B : Browser) (op : Op) (a : App) : App :=
  match op with
  | OpLoadChapters env => loadChapters B env a
  | OpRetryClick envs picks => retryClick B envs picks a
  | OpHandleIntersection entries => completed (handleIntersection entries a)
  | OpKinematicsResume p => kinematics_resume p a
  | OpToggleChapter c f => toggleChapter c f a
  | OpToggleSubsection s f => toggleSubsection s f a
  | OpExpandAll =>
      fold_left (fun a c => toggleChapter c (Some true) a) (doc_chapters (body (page a))) a
  | OpCollapseAll =>
      fold_left (fun a c => toggleChapter c (Some false) a) (doc_chapters (body (page a))) a
  | OpHandleSearch value => completed (handleSearch B value a)
  | OpClearSearch => clearSearch a
  end.

Definition run (B : Browser) (ops : list Op) (a : App) : App :=
  fold_left (fun a op => step B op a) ops a.

(** Does the operation load chapters (and so rebuild the search index)? *)
Definition loads (op : Op) : bool :=
  match op with
  | OpLoadChapters _ | OpRetryClick _ _ => true
  | _ => false
  end.

(** ** The force-analysis simulation (PLOT_INITIALIZERS['force-analysis-sim'])

    The closure state of one widget.  A number is an IEEE 754 double,
    as in the language: [spec_float] with a precision of 53 bits and
    infinities at exponent 1024, with the operations of the Standard
    Library, which round to nearest, ties to even. *)
Module ForceSim.

Definition prec : Z := 53.
Definition emax : Z := 1024.

Definition number : Type := spec_float.

(** The double of an integer literal. *)
Definition of_Z (z : Z) : number := binary_normalize prec emax z 0 false.

Definition zero : number := S754_zero false.

Definition add : number -> number -> number := SFadd prec emax.
Definition sub : number -> number -> number := SFsub prec emax.
Definition mul : number -> number -> number := SFmul prec emax.
Definition div : number -> number -> number := SFdiv prec emax.

(** [a > b], [a <= b] and [a < b]: false when an operand is NaN. *)
Definition gt (a b : number) : bool := SFltb b a.
Definition le (a b : number) : bool := SFleb a b.
Definition lt (a b : number) : bool := SFltb a b.

Definition is_nan (a : number) : bool :=
  match a with S754_nan => true | _ => false end.

(** Math.max(0, v): NaN for NaN, and +0 for both zeros. *)
Definition max0 (v : number) : number :=
  match v with
  | S754_nan => S754_nan
  | _ => if gt v zero then v else zero
  end.

Record PhysicsState : Type := {
  mass : number;
  force : number;
  friction : number;
  position : number;
  velocity : number;
  maxPosition : number;
  time : number
}.

Record Sim : Type := {
  state : PhysicsState;
  isPlaying : bool
}.

(** The literal 9.81 *)
Definition g : number := div (of_Z 981) (of_Z 100).

(** The state at the end of the initializer; [width] is canvas.width.
    The literal 0.2 is the double nearest to two tenths. *)
Definition start (width : N) : Sim :=
  {| state := {| mass := of_Z 10; force := of_Z 50;
                 friction := div (of_Z 2) (of_Z 10);
                 position := zero; velocity := zero;
                 maxPosition := sub (of_Z (Z.of_N width)) (of_Z 50);
                 time := zero |};
     isPlaying := true |}.

(** The position that a frame computes before its boundary check, and
    the velocity that goes with it. *)
Definition advanced_velocity (speed : number) (sim : Sim) : number :=
  let s := state sim in
  let dt := mul (div (of_Z 1) (of_Z ANIMATION_FPS)) speed in
  let normalForce := mul (mass s) g in
  let frictionForce := mul (friction s) normalForce in
  let netForce := sub (force s) (if gt (velocity s) zero then frictionForce else zero) in
  let acceleration := div netForce (mass s) in
  max0 (add (velocity s) (mul acceleration dt)).

Definition advanced (speed : number) (sim : Sim) : number :=
  let dt := mul (div (of_Z 1) (of_Z ANIMATION_FPS)) speed in
  add (position (state sim)) (mul (mul (advanced_velocity speed sim) dt) (of_Z 10)).

(** One frame of the animation loop; [speed] is STATE.animationSpeed. *)
Definition animate (speed : number) (sim : Sim) : Sim :=
  if negb (isPlaying sim) then sim
  else
    let s := state sim in
    let dt := mul (div (of_Z 1) (of_Z ANIMATION_FPS)) speed in
    let normalForce := mul (mass s) g in
    let frictionForce := mul (friction s) normalForce in
    let netForce :=
      sub (force s) (if gt (velocity s) zero then frictionForce else zero) in
    let acceleration := div netForce (mass s) in
    let v := add (velocity s) (mul acceleration dt) in
    let v := max0 v in
    let p := add (position s) (mul (mul v dt) (of_Z 10)) in
    if gt p (maxPosition s) then
      {| state := {| mass := mass s; force := force s; friction := friction s;
                     position := maxPosition s; velocity := zero;
                     maxPosition := maxPosition s; time := add (time s) dt |};
         isPlaying := isPlaying sim |}
    else
      {| state := {| mass := mass s; force := force s; friction := friction s;
                     position := p; velocity := v;
                     maxPosition := maxPosition s; time := add (time s) dt |};
         isPlaying := isPlaying sim |}.

(** The debounced handler of the three sliders; the arguments are what
    parseFloat makes of their values. *)
Definition updateParams (f m mu : number) (sim : Sim) : Sim :=
  let s := state sim in
  {| state := {| mass := m; force := f; friction := mu;
                 position := position s; velocity := velocity s;
                 maxPosition := maxPosition s; time := time s |};
     isPlaying := isPlaying sim |}.

Definition reset (sim : Sim) : Sim :=
  let s := state sim in
  {| state := {| mass := mass s; force := force s; friction := friction s;
                 position := zero; velocity := zero;
                 maxPosition := maxPosition s; time := zero |};
     isPlaying := isPlaying sim |}.

Definition set_playing (b : bool) (sim : Sim) : Sim :=
  {| state := state sim; isPlaying := b |}.

(** What can happen to a running widget. *)
Inductive Event : Type :=
| Frame (speed : number)           (* requestAnimationFrame calls animate *)
| Sliders (f m mu : number)        (* updateParams *)
| ResetButton                      (* the reset button, or resetAll *)
| Start (speed : number)           (* animController.start *)
| Stop.                            (* animController.stop *)

Definition handle (sim : Sim) (e : Event) : Sim :=
  match e with
  | Frame speed => animate speed sim
  | Sliders f m mu => updateParams f m mu sim
  | ResetButton => reset sim
  | Start speed => animate speed (set_playing true sim)
  | Stop => set_playing false sim
  end.

Definition play (events : list Event) (sim : Sim) : Sim :=
  fold_left handle events sim.

(** The invariant of the claim, with the comparisons of the language. *)
Definition in_bounds (sim : Sim) : Prop :=
  le zero (velocity (state sim)) = true /\
  le zero (position (state sim)) = true /\
  le (position (state sim)) (maxPosition (state sim)) = true.

(** What is left of it once a number may be NaN: the velocity is not
    negative, and the position is NaN or within the bounds. *)
Definition in_bounds_or_nan (sim : Sim) : Prop :=
  lt (velocity (state sim)) zero = false /\
  (is_nan (position (state sim)) = true \/
   (le zero (position (state sim)) = true /\
    le (position (state sim)) (maxPosition (state sim)) = true)).

(** What every event keeps, NaN or not. *)
Definition kept (sim : Sim) : Prop :=
  lt (velocity (state sim)) zero = false /\
  lt (position (state sim)) zero = false /\
  (is_nan (position (state sim)) = true \/
   le (position (state sim)) (maxPosition (state sim)) = true) /\
  le zero (maxPosition (state sim)) = true.

(** Events in which the animation speed is a number not below zero. *)
Definition regular (e : Event) : Prop :=
  match e with
  | Frame speed | Start speed => le zero speed = true
  | Sliders _ _ _ | ResetButton | Stop => True
  end.

End ForceSim.

(** ** Vocabulary of the statements

    Loading. *)

(** The result of the callback for one file: its HTML, or the placeholder. *)
Definition file_result (env : LoadEnv) (file : string) : string :=
  match fetched_html env file with
  | Some html => html
  | None => failed_chapter file
  end.

(** The files whose fetch succeeded. *)
Definition succeeded (env : LoadEnv) (files : list string) : list string :=
  List.filter (fun file => bool_decide (is_Some (fetched_html env file))) files.

(** A cache lookup whose result [loadChapters] does not use: no entry, an
    expired entry, or an empty string. *)
Definition cache_miss (now : Z) (s : STATE) : Prop :=
  Js.truthy_opt (fst (getCachedChapters now s)) = false.

(** What a batch of fetches leaves untouched. *)
Definition fetch_frame (a a' : App) : Prop :=
  ui a' = ui a /\ page a' = page a /\
  chapterCache (st a') = chapterCache (st a) /\
  searchIndex (st a') = searchIndex (st a) /\
  isLoading (st a') = isLoading (st a) /\
  observedElements (st a') = observedElements (st a) /\
  activeCharts (st a') = activeCharts (st a) /\
  activeAnimations (st a') = activeAnimations (st a) /\
  observing (fx a') = observing (fx a) /\
  initialized (fx a') = initialized (fx a).

(** The state in which a load that missed the cache calls
    onChaptersLoaded. *)
Definition fetched_and_injected (env : LoadEnv) (a : App) : App :=
  let a := on_st (set_isLoading true) a in
  let a := on_st (fun _ => snd (getCachedChapters (now_lookup env) (st a))) a in
  let (chapterHtmls, a) := fetchAll env CHAPTERS_TO_LOAD a in
  let html := Js.join chapterHtmls in
  on_st (cacheChapters html (now_store env)) (inject env html a).

(** The state in which a load calls onChaptersLoaded, on either path. *)
Definition before_init (env : LoadEnv) (a : App) : App :=
  let a := on_st (set_isLoading true) a in
  let (cached, s) := getCachedChapters (now_lookup env) (st a) in
  let a := on_st (fun _ => s) a in
  if Js.truthy_opt cached then inject env (default "" cached) a
  else
    let (chapterHtmls, a) := fetchAll env CHAPTERS_TO_LOAD a in
    let html := Js.join chapterHtmls in
    on_st (cacheChapters html (now_store env)) (inject env html a).

(** The state in which a load that waited for its responses calls
    onChaptersLoaded. *)
Definition responded (env : LoadEnv) (a : App) : App :=
  let content := Js.join (map (chapterHtml env) CHAPTERS_TO_LOAD) in
  on_st (cacheChapters content (now_store env))
    (inject env content (fold_left (receive env) CHAPTERS_TO_LOAD a)).

(** The state in which a load that missed the cache waits. *)
Definition requested (env : LoadEnv) (a : App) : App :=
  let a := on_st (set_isLoading true) a in
  let a := on_st (fun _ => snd (getCachedChapters (now_lookup env) (st a))) a in
  fold_left (fun a file => on_fx (log_fetched (chapter_url file)) a) CHAPTERS_TO_LOAD a.


(** The two writes of a retry listener before it loads. *)
Definition error_dismissed (a : App) : App :=
  on_ui (fun u => match container u with
                  | Some c => set_container
                      (Some {| c_innerHTML := c_innerHTML c; c_hidden := false |}) u
                  | None => u
                  end)
    (on_ui (set_errorContainer (Some true)) a).

(** The index entry of one formula item of a chapter. *)
Definition entry_of (B : Browser) (p : Page) (c : Chapter) (item : ItemNode)
    : IndexEntry :=
  {| element := it_el item;
     chapter := ch_el c;
     chapterTitle := default "" (ch_h2 c);
     text := Js.toLowerCase (textContent B (innerHTML (itemEls p (it_el item))));
     title := default "" (it_h3 item) |}.

(** The flat index of a page: chapter by chapter, item by item. *)
Definition flat_index (B : Browser) (p : Page) : list IndexEntry :=
  flat_map (fun c => map (entry_of B p c) (chapter_items c)) (doc_chapters (body p)).

(** Does toggleChapter take its collapsing branch? *)
Definition collapsing (c : Chapter) (forceState : option bool) (a : App) : bool :=
  match forceState with
  | Some b => negb b
  | None => classList_contains "active" (chapterClass (page a) (ch_el c))
  end.

(** After the collapse of a subsection no plot of the subsection is left
    in the registries. *)
Definition subsection_released (s : Subsection) (a : App) : Prop :=
  forall p, In p (subsection_plots s) ->
    activeCharts (st a) !! pl_plotId p = None /\
    activeAnimations (st a) !! pl_plotId p = None.

Definition visible (p : PlotNode) : IntersectionObserverEntry :=
  {| target := p; isIntersecting := true |}.

(** ** Vocabulary for the lazy loader *)

(** How many times an initializer was called on the element [el]. *)
Definition invocations (el : nat) (a : App) : nat :=
  length (List.filter (fun call => (snd call =? el)%nat) (initialized (fx a))).

(** Is there an initializer of the object to call for the plot? *)
Definition has_initializer (p : PlotNode) : bool :=
  Js.truthy (pl_plotId p) &&
  match PLOT_INITIALIZERS (pl_plotId p) with Some (Own _) => true | _ => false end.

(** Does the call for the plot throw? *)
Definition throws (p : PlotNode) : bool :=
  Js.truthy (pl_plotId p) &&
  match PLOT_INITIALIZERS (pl_plotId p) with
  | Some InheritedThrowing => true
  | _ => false
  end.

(** The entry reports the element [el] as intersecting. *)
Definition reports (el : nat) (entry : IntersectionObserverEntry) : bool :=
  isIntersecting entry && (pl_el (target entry) =? el)%nat.

(** The operation delivers an intersecting entry for [el]. *)
Definition shows (el : nat) (op : Op) : bool :=
  match op with
  | OpHandleIntersection entries => existsb (reports el) entries
  | _ => false
  end.

(** Every entry for [el] carries a plot that has an initializer. *)
Definition bound (el : nat) (op : Op) : bool :=
  match op with
  | OpHandleIntersection entries =>
      forallb (fun entry => negb (pl_el (target entry) =? el)%nat
                            || has_initializer (target entry)) entries
  | _ => true
  end.

(** No entry of the batch carries a plot whose call throws. *)
Definition safe (op : Op) : bool :=
  match op with
  | OpHandleIntersection entries =>
      forallb (fun entry => negb (throws (target entry))) entries
  | _ => true
  end.

Definition holds_plot (el : nat) (c : Chapter) : bool :=
  existsb (fun p => (pl_el p =? el)%nat) (chapter_plots c).

(** The operation cannot collapse a chapter that holds the plot [el]. *)
Definition spares (el : nat) (op : Op) : bool :=
  match op with
  | OpToggleChapter c (Some true) => true
  | OpToggleChapter c _ => negb (holds_plot el c)
  | OpCollapseAll => false
  | _ => true
  end.

(** ** Vocabulary for the index *)

(** The capital letters among the code units below 256. *)
Definition capital (c : ascii) : bool :=
  let n := nat_of_ascii c in
  ((65 <=? n)%nat && (n <=? 90)%nat)
  || ((192 <=? n)%nat && (n <=? 214)%nat)
  || ((216 <=? n)%nat && (n <=? 222)%nat).

(** [t] is [s] lowercased: every capital letter is replaced by its small
    letter, 32 code units above, and every other character is kept. *)
Fixpoint lowercase_of (s t : string) : Prop :=
  match s, t with
  | EmptyString, EmptyString => True
  | String c r, String d r' =>
      (if capital c then nat_of_ascii d = (nat_of_ascii c + 32)%nat else d = c) /\
      lowercase_of r r'
  | _, _ => False
  end.

(** ** Vocabulary for the search *)

(** The pieces of a run of untouched characters. *)
Fixpoint plains (s : string) : list Js.piece :=
  match s with
  | EmptyString => []
  | String c r => Js.Plain c :: plains r
  end.

(** [html] is [source] with occurrences of [q] (ignoring case) wrapped in
    the mark, so that no run of characters left outside the marks holds
    an occurrence. *)
Definition wraps_occurrences (q source html : string) : Prop :=
  exists ps,
    html = Js.render ps /\
    Js.raw ps = source /\
    (forall m, In (Js.Marked m) ps -> Js.toLowerCase m = Js.toLowerCase q) /\
    (forall before run after,
       ps = (before ++ plains run ++ after)%list ->
       Js.includes (Js.toLowerCase run) (Js.toLowerCase q) = false).

(** The HTML that a search highlights: the saved copy when there is one,
    else the current content. *)
Definition source_of (e : ItemEl) : string :=
  if Js.truthy_opt (originalContent e) then default "" (originalContent e)
  else innerHTML e.

(** What one entry of the index does to its item, for a query of literal
    characters. *)
Definition item_after (q : string) (matches : bool) (e : ItemEl) : ItemEl :=
  if matches then
    {| it_classList := it_classList e ∖ {["hidden"]};
       innerHTML := Js.replace_literal q (source_of e);
       dataset := <["originalContent" := source_of e]> (dataset e) |}
  else
    {| it_classList := it_classList e ∪ {["hidden"]};
       innerHTML := source_of e;
       dataset := dataset e |}.

(** Does some entry of the index that belongs to the chapter match? *)
Definition chapter_matches (q : string) (index : list IndexEntry) (c : nat) : bool :=
  existsb (fun entry => (chapter entry =? c)%nat && Js.includes (text entry) q) index.

(** Highlighting, read on the HTML of the items: every matching item
    carries a mark after the search. *)
Definition matches_are_marked (q : string) (index : list IndexEntry) (a : App) : Prop :=
  forall entry, In entry index -> Js.includes (text entry) q = true ->
    Js.includes (innerHTML (itemEls (page a) (element entry))) Js.mark_open = true.

(** A run of searches, each taken to its end or to its exception. *)
Definition searches (B : Browser) (values : list string) (a : App) : App :=
  fold_left (fun a value => completed (handleSearch B value a)) values a.

(** An item either is as it was before the searches, or carries its
    content of that time as its saved copy. *)
Definition saved_or_pristine (h0 : nat -> string) (els : nat -> ItemEl) (e : nat)
    : Prop :=
  (originalContent (els e) = None /\ innerHTML (els e) = h0 e) \/
  (originalContent (els e) = Some (h0 e) /\ h0 e <> "").

(** An item is back to its content of before the searches. *)
Definition cleared (h0 : nat -> string) (els : nat -> ItemEl) (e : nat) : Prop :=
  originalContent (els e) = None /\ innerHTML (els e) = h0 e /\
  "hidden" ∉ it_classList (els e).

(** The text of the entry is the text of its item before the searches. *)
Definition entry_current (B : Browser) (h0 : nat -> string) (entry : IndexEntry)
    : Prop :=
  text entry = Js.toLowerCase (textContent B (h0 (element entry))).

(** ** A small page, for running the definitions *)
Module Sample.

(** Text of an HTML source: what lies outside the tags. *)
Fixpoint strip (inTag : bool) (s : string) : string :=
  match s with
  | EmptyString => EmptyString
  | String c r =>
      if Ascii.eqb c "<" then strip true r
      else if Ascii.eqb c ">" then strip false r
      else if inTag then strip inTag r
      else String c (strip inTag r)
  end.

(** A stand-in browser: its RegExp rejects every pattern with a syntax
    character.  The samples only use the lone opening parenthesis, which
    every engine rejects as an unterminated group. *)
Definition browser : Browser :=
  {| textContent := strip false;
     withCopyButtons := fun s => s;
     RegExp_other := fun _ => None |}.

Definition sim : PlotNode :=
  {| pl_el := 7; pl_plotId := "force-analysis-sim";
     pl_forceCanvas := true; pl_plotCanvas := false |}.

Definition item1 : ItemNode := {| it_el := 1; it_h3 := Some "Velocity" |}.
Definition item2 : ItemNode := {| it_el := 2; it_h3 := None |}.

Definition section1 : Subsection :=
  {| ss_el := 5; ss_content := Some 6; ss_icon := None;
     ss_leaves := [LeafItem item2; LeafPlot sim] |}.

Definition kinematics : Chapter :=
  {| ch_el := 3; ch_h2 := Some "Kinematics"; ch_content := Some 4;
     ch_children := [ChildLeaf (LeafItem item1)] |}.

Definition dynamics : Chapter :=
  {| ch_el := 8; ch_h2 := Some "Dynamics"; ch_content := Some 9;
     ch_children := [ChildSub section1] |}.

Definition fresh_item (html : string) : ItemEl :=
  {| it_classList := {["formula-item"]}; innerHTML := html; dataset := ∅ |}.

Definition page1 : Page :=
  {| body := [BlockChapter kinematics; BlockChapter dynamics];
     itemEls := fun el => if (el =? 1)%nat then fresh_item "<b>v</b> = a t (uniform)"
                          else if (el =? 2)%nat then fresh_item "F = m a"
                          else fresh_item "";
     chapterClass := fun _ => {["chapter"]};
     subsectionClass := fun _ => {["subsection"]};
     styles := fun _ => ∅;
     scrollHeight := fun _ => 120%nat |}.

Definition empty_page : Page :=
  {| body := []; itemEls := fun _ => fresh_item "";
     chapterClass := fun _ => ∅; subsectionClass := fun _ => ∅;
     styles := fun _ => ∅; scrollHeight := fun _ => 0%nat |}.

Definition chrome : Chrome :=
  {| container := Some {| c_innerHTML := ""; c_hidden := false |};
     errorContainer := Some true;
     errorMessage := Some "";
     retryBtn := Some 0%nat;
     noResultsMessage := Some true;
     loadingOverlay := Some ∅;
     searchInput := Some "";
     clearButton := Some true |}.

(** A plot container whose plot id names the prototype of the object. *)
Definition proto : PlotNode :=
  {| pl_el := 10; pl_plotId := "__proto__";
     pl_forceCanvas := false; pl_plotCanvas := false |}.

(** The page before the first load. *)
Definition app0 : App :=
  {| st := initial_STATE; page := empty_page; ui := chrome; fx := no_effects |}.

(** A network on which the second file is missing. *)
Definition env1 : LoadEnv :=
  {| now_lookup := 1000; now_store := 1200;
     fetch := fun url => if String.eqb url "chapters/kinematics.html"
                         then Response true (Some "<div>K</div>")
                         else Response false None;
     parse := fun _ => page1;
     init_error := None |}.

(** The same network when the initialisation of the page throws. *)
Definition env_failing : LoadEnv :=
  {| now_lookup := 1000; now_store := 1200;
     fetch := fetch env1; parse := parse env1;
     init_error := Some "observer unavailable" |}.




(** The page once loaded. *)
Definition app1 : App := loadChapters browser env1 app0.

(** The loaded page once the simulation scrolled into view. *)
Definition app2 : App :=
  completed (handleIntersection [{| target := sim; isIntersecting := true |}] app1).

(** The simulation scrolls into view twice while its chapter stays open. *)
Definition quiet_ops : list Op :=
  [OpHandleIntersection [visible sim];
   OpToggleChapter kinematics (Some false);
   OpHandleSearch "f";
   OpHandleIntersection [visible sim]].

(** The simulation scrolls into view, its chapter is collapsed, and it
    scrolls into view again. *)
Definition collapse_ops : list Op :=
  [OpHandleIntersection [visible sim];
   OpToggleChapter dynamics (Some false);
   OpHandleIntersection [visible sim]].

(** The index of the loaded sample page. *)
Definition index : list IndexEntry :=
  flat_index browser (page app1).

(** A short session with the simulation: the sliders are set to a force
    of 80, a mass of 5 and a friction of 0.3. *)
Definition session : list ForceSim.Event :=
  [ForceSim.Frame (ForceSim.of_Z 1);
   ForceSim.Sliders (ForceSim.of_Z 80) (ForceSim.of_Z 5)
     (ForceSim.div (ForceSim.of_Z 3) (ForceSim.of_Z 10));
   ForceSim.Frame (ForceSim.of_Z 2);
   ForceSim.ResetButton; ForceSim.Stop; ForceSim.Start (ForceSim.of_Z 1)].

End Sample.

(** ** Vocabulary for sessions *)

(** What a session may have done to the network and to the loaded set
    since the state [a0]. *)
Definition net_view (a0 a : App) : Prop :=
  (forall url, In url (fetched (fx a)) ->
     In url (fetched (fx a0)) \/ In url (map chapter_url CHAPTERS_TO_LOAD)) /\
  loadedChapters (st a0) ⊆ loadedChapters (st a) /\
  loadedChapters (st a) ⊆ loadedChapters (st a0) ∪ list_to_set CHAPTERS_TO_LOAD.

(** What stays of the flags and logs that only loading writes. *)
Definition quiet (a a' : App) : Prop :=
  fetched (fx a') = fetched (fx a) /\
  loadedChapters (st a') = loadedChapters (st a) /\
  isLoading (st a') = isLoading (st a) /\
  chapterCache (st a') = chapterCache (st a).

(** No entry for [el] carries a plot that has an initializer. *)
Definition unbound (el : nat) (op : Op) : bool :=
  match op with
  | OpHandleIntersection entries =>
      forallb (fun entry => negb (pl_el (target entry) =? el)%nat
                            || negb (has_initializer (target entry))) entries
  | _ => true
  end.

(** The chapter is collapsed and none of its plots is registered or
    marked as observed. *)
Definition released (c : Chapter) (a : App) : Prop :=
  "active" ∉ chapterClass (page a) (ch_el c) /\
  forall p, In p (chapter_plots c) ->
    activeCharts (st a) !! pl_plotId p = None /\
    activeAnimations (st a) !! pl_plotId p = None /\
    pl_el p ∉ observedElements (st a).

(** Operations that only change what the page shows. *)
Definition view_only (op : Op) : bool :=
  match op with
  | OpHandleSearch _ | OpClearSearch | OpExpandAll | OpToggleSubsection _ _ => true
  | _ => false
  end.

(** A value of white space only. *)
Fixpoint blank (s : string) : bool :=
  match s with
  | EmptyString => true
  | String c r => Js.is_space c && blank r
  end.

(** Kinds of events of the simulation. *)
Definition no_start (e : ForceSim.Event) : bool :=
  match e with ForceSim.Start _ => false | _ => true end.

Definition no_frame (e : ForceSim.Event) : bool :=
  match e with ForceSim.Frame _ => false | _ => true end.

(** ** More samples *)
Module Demo.

(** The network five minutes after the first load, all files present. *)
Definition env_later : LoadEnv :=
  {| now_lookup := 301200; now_store := 301300;
     fetch := fun _ => Response true (Some "<div>fresh</div>");
     parse := fun _ => Sample.page1;
     init_error := None |}.

(** A visit: the page loads, the simulation scrolls into view, the user
    searches, collapses everything and reloads. *)
Definition visit : list Op :=
  [OpLoadChapters Sample.env1;
   OpHandleIntersection [visible Sample.sim];
   OpHandleSearch "a t";
   OpCollapseAll;
   OpLoadChapters env_later].

(** The same visit once the page is loaded, without the reload. *)
Definition browsing : list Op :=
  [OpHandleIntersection [visible Sample.sim];
   OpHandleSearch "a t";
   OpClearSearch;
   OpCollapseAll;
   OpExpandAll].

(** A plot whose id names no initializer. *)
Definition stray : PlotNode :=
  {| pl_el := 11; pl_plotId := "pendulum"; pl_forceCanvas := false;
     pl_plotCanvas := true |}.

End Demo.

(** * Properties *)

(** ** The chapter cache *)

Lemma getCached_after_cache (c : string) (t now : Z) (s : STATE) :
  getCachedChapters now (cacheChapters c t s) =
  if (CACHE_DURATION <? now - t)%Z
  then (None, set_chapterCache (delete "chapters") (cacheChapters c t s))
  else (Some c, cacheChapters c t s).
Proof.
  unfold getCachedChapters, cacheChapters; simpl.
  rewrite lookup_insert_eq; simpl. reflexivity.
Qed.

(** C3: a lookup at most CACHE_DURATION after the store returns the stored
    string and leaves the cache as it is; a later lookup returns nothing
    and deletes the entry. *)
Theorem cache_holds_for_window (c : string) (t now : Z) (s : STATE) :
  ((now - t <= CACHE_DURATION)%Z ->
     getCachedChapters now (cacheChapters c t s) = (Some c, cacheChapters c t s))
  /\
  ((CACHE_DURATION < now - t)%Z ->
     fst (getCachedChapters now (cacheChapters c t s)) = None /\
     chapterCache (snd (getCachedChapters now (cacheChapters c t s))) !! "chapters"
       = None).
Proof.
  rewrite getCached_after_cache. split; intros H.
  - destruct (Z.ltb_spec CACHE_DURATION (now - t)); [lia | reflexivity].
  - destruct (Z.ltb_spec CACHE_DURATION (now - t)); [| lia].
    simpl. split; [reflexivity | apply lookup_delete_eq].
Qed.

Lemma cache_holds_for_window_witness :
  getCachedChapters 600000 (cacheChapters "<p>x</p>" 0 initial_STATE)
    = (Some "<p>x</p>", cacheChapters "<p>x</p>" 0 initial_STATE)
  /\ fst (getCachedChapters 600001 (cacheChapters "<p>x</p>" 0 initial_STATE)) = None.
Proof.
  split.
  - apply (cache_holds_for_window "<p>x</p>" 0 600000 initial_STATE).
    unfold CACHE_DURATION; lia.
  - apply (cache_holds_for_window "<p>x</p>" 0 600001 initial_STATE).
    unfold CACHE_DURATION; lia.
Defined.

(** ** Loading *)

Lemma getCached_isLoading (now : Z) (b : bool) (s : STATE) :
  getCachedChapters now (set_isLoading b s) =
  (fst (getCachedChapters now s), set_isLoading b (snd (getCachedChapters now s))).
Proof.
  unfold getCachedChapters; simpl.
  destruct (chapterCache s !! "chapters") as [e|]; [|reflexivity].
  destruct (CACHE_DURATION <? now - timestamp e)%Z; reflexivity.
Qed.

Lemma fetchChapter_result (env : LoadEnv) (file : string) (a : App) :
  fst (fetchChapter env file a) = file_result env file.
Proof.
  unfold fetchChapter, file_result, fetched_html.
  destruct (fetch env (chapter_url file)) as [|[] [h|]]; reflexivity.
Qed.

Lemma fetchAll_results (env : LoadEnv) (files : list string) (a : App) :
  fst (fetchAll env files a) = map (file_result env) files.
Proof.
  revert a; induction files as [|f r IH]; intros a; simpl; [reflexivity|].
  destruct (fetchChapter env f a) as [h a1] eqn:E1.
  destruct (fetchAll env r a1) as [hs a2] eqn:E2; simpl.
  f_equal.
  - rewrite <- (fetchChapter_result env f a), E1. reflexivity.
  - rewrite <- (IH a1), E2. reflexivity.
Qed.

Lemma fetchChapter_state (env : LoadEnv) (file : string) (a : App) :
  let a' := snd (fetchChapter env file a) in
  fetched (fx a') = (fetched (fx a) ++ [chapter_url file])%list /\
  loadedChapters (st a') = loadedChapters (st a) ∪ list_to_set (succeeded env [file]) /\
  fetch_frame a a'.
Proof.
  unfold fetchChapter, succeeded, fetched_html, fetch_frame; simpl.
  destruct (fetch env (chapter_url file)) as [|[] [h|]]; simpl;
    (split; [reflexivity|]); (split; [|tauto]).
  all: try (rewrite bool_decide_eq_false_2 by (intros [? ?]; discriminate)); simpl.
  all: try (rewrite bool_decide_eq_true_2 by eauto); simpl.
  all: set_solver.
Qed.

Lemma fetchAll_state (env : LoadEnv) (files : list string) (a : App) :
  let a' := snd (fetchAll env files a) in
  fetched (fx a') = (fetched (fx a) ++ map chapter_url files)%list /\
  loadedChapters (st a') = loadedChapters (st a) ∪ list_to_set (succeeded env files) /\
  fetch_frame a a'.
Proof.
  revert a; induction files as [|f r IH]; intros a; simpl.
  - rewrite app_nil_r. unfold fetch_frame. split; [reflexivity|].
    split; [set_solver | tauto].
  - pose proof (fetchChapter_state env f a) as H1.
    destruct (fetchChapter env f a) as [h a1]; simpl in H1.
    pose proof (IH a1) as H2.
    destruct (fetchAll env r a1) as [hs a2]; simpl in H2 |- *.
    destruct H1 as (F1 & L1 & U1), H2 as (F2 & L2 & U2).
    split; [rewrite F2, F1, <- app_assoc; reflexivity|].
    split.
    + rewrite L2, L1. unfold succeeded in *; simpl.
      destruct (bool_decide (is_Some (fetched_html env f))); simpl; set_solver.
    + unfold fetch_frame in *.
      repeat match goal with H : _ /\ _ |- _ => destruct H end.
      repeat split; congruence.
Qed.

Lemma fold_left_inv {A S : Type} (P : S -> Prop) (f : S -> A -> S) (l : list A) (s : S) :
  (forall s x, P s -> P (f s x)) -> P s -> P (fold_left f l s).
Proof.
  intros Hf. revert s. induction l as [|x l IH]; intros s Hs; simpl; auto.
Qed.

(** The initialisation of a new page writes the formula items, the
    observer and the search index, and nothing else. *)
Lemma initializeCopyButtons_frame (B : Browser) (a : App) :
  st (initializeCopyButtons B a) = st a /\
  ui (initializeCopyButtons B a) = ui a /\
  fx (initializeCopyButtons B a) = fx a /\
  body (page (initializeCopyButtons B a)) = body (page a).
Proof.
  unfold initializeCopyButtons.
  generalize (doc_items (body (page a))); intros l.
  apply (fold_left_inv (fun a' => st a' = st a /\ ui a' = ui a /\ fx a' = fx a /\
                                  body (page a') = body (page a))).
  - intros s x (H1 & H2 & H3 & H4). unfold addCopyButtons; simpl. auto.
  - auto.
Qed.

Lemma initializePlots_frame (a : App) :
  st (initializePlots a) = st a /\
  ui (initializePlots a) = ui a /\
  page (initializePlots a) = page a /\
  fetched (fx (initializePlots a)) = fetched (fx a) /\
  initialized (fx (initializePlots a)) = initialized (fx a).
Proof.
  unfold initializePlots.
  generalize (doc_plots (body (page a))); intros l.
  apply (fold_left_inv (fun a' => st a' = st a /\ ui a' = ui a /\ page a' = page a /\
                                  fetched (fx a') = fetched (fx a) /\
                                  initialized (fx a') = initialized (fx a))).
  - intros s x (H1 & H2 & H3 & H4 & H5); simpl. auto.
  - auto.
Qed.

Lemma onChaptersLoaded_frame (B : Browser) (env : LoadEnv) (a : App) :
  let a' := completed (onChaptersLoaded B env a) in
  ui a' = ui a /\ fetched (fx a') = fetched (fx a) /\
  initialized (fx a') = initialized (fx a) /\
  chapterCache (st a') = chapterCache (st a) /\
  loadedChapters (st a') = loadedChapters (st a) /\
  observedElements (st a') = observedElements (st a) /\
  activeCharts (st a') = activeCharts (st a) /\
  activeAnimations (st a') = activeAnimations (st a) /\
  isLoading (st a') = isLoading (st a).
Proof.
  unfold onChaptersLoaded. destruct (init_error env); simpl; [tauto|].
  destruct (initializePlots_frame (initializeCopyButtons B a)) as (S1 & U1 & _ & F1 & I1).
  destruct (initializeCopyButtons_frame B a) as (S2 & U2 & F2 & _).
  rewrite U1, U2, F1, F2, I1, F2, S1, S2. tauto.
Qed.

Lemma showError_frame (m : string) (a : App) :
  st (showError m a) = st a /\ page (showError m a) = page a /\
  fx (showError m a) = fx a /\
  option_map c_innerHTML (container (ui (showError m a)))
    = option_map c_innerHTML (container (ui a)).
Proof.
  unfold showError; simpl.
  destruct (container (ui a)) as [c|] eqn:Ec; simpl;
    destruct (errorContainer (ui a)) as [e|] eqn:Ee; simpl; rewrite ?Ec; simpl;
    destruct (errorMessage (ui a)); simpl; destruct (retryBtn (ui a)); simpl;
    rewrite ?Ec; auto.
Qed.

Lemma fadeOut_frame (a : App) :
  st (fadeOut a) = st a /\ page (fadeOut a) = page a /\ fx (fadeOut a) = fx a /\
  container (ui (fadeOut a)) = container (ui a) /\
  errorContainer (ui (fadeOut a)) = errorContainer (ui a) /\
  errorMessage (ui (fadeOut a)) = errorMessage (ui a) /\
  retryBtn (ui (fadeOut a)) = retryBtn (ui a).
Proof.
  unfold fadeOut; simpl. destruct (loadingOverlay (ui a)); simpl; tauto.
Qed.

Lemma loadChapters_miss (B : Browser) (env : LoadEnv) (a : App) (c : Container) :
  container (ui a) = Some c ->
  cache_miss (now_lookup env) (st a) ->
  loadChapters B env a =
  on_st (set_isLoading false)
    match onChaptersLoaded B env (fetched_and_injected env a) with
    | Normal a' => fadeOut a'
    | Throw m a' => showError m a'
    end.
Proof.
  intros Hc Hmiss. unfold loadChapters, loadChapters_try, fetched_and_injected.
  rewrite Hc. remember CHAPTERS_TO_LOAD as files. simpl.
  rewrite !getCached_isLoading.
  unfold cache_miss in Hmiss. simpl. rewrite Hmiss.
  destruct (fetchAll env files _) as [hs a2].
  destruct (onChaptersLoaded B env _); reflexivity.
Qed.

Lemma fetched_and_injected_spec (env : LoadEnv) (a : App) (c : Container) :
  container (ui a) = Some c ->
  let a' := fetched_and_injected env a in
  let html := Js.join (map (file_result env) CHAPTERS_TO_LOAD) in
  container (ui a') = Some {| c_innerHTML := html; c_hidden := c_hidden c |} /\
  errorContainer (ui a') = errorContainer (ui a) /\
  retryBtn (ui a') = retryBtn (ui a) /\
  page a' = parse env html /\
  fetched (fx a') = (fetched (fx a) ++ map chapter_url CHAPTERS_TO_LOAD)%list /\
  initialized (fx a') = initialized (fx a) /\
  loadedChapters (st a') =
    loadedChapters (st a) ∪ list_to_set (succeeded env CHAPTERS_TO_LOAD) /\
  chapterCache (st a') !! "chapters" =
    Some {| content := html; timestamp := now_store env |}.
Proof.
  intros Hc. unfold fetched_and_injected.
  remember CHAPTERS_TO_LOAD as files.
  set (a1 := on_st _ (on_st (set_isLoading true) a)).
  pose proof (fetchAll_results env files a1) as Hr.
  pose proof (fetchAll_state env files a1) as Hs.
  destruct (fetchAll env files a1) as [hs a2]. simpl in Hr, Hs.
  destruct Hs as (F & L & U & P & _ & _ & _ & _ & _ & _ & _ & I).
  subst hs. unfold inject. rewrite U. subst a1. simpl. rewrite Hc. simpl.
  rewrite U. simpl. rewrite F, L, I. simpl.
  rewrite getCached_isLoading. simpl.
  repeat split; try reflexivity.
  - unfold getCachedChapters.
    destruct (chapterCache (st a) !! "chapters") as [e|]; [|reflexivity].
    destruct (CACHE_DURATION <? now_lookup env - timestamp e)%Z; reflexivity.
  - apply lookup_insert_eq.
Qed.

(** C4: on a cache miss the loader fetches the configured files, in the
    order of the list, and what it injects into the container and then
    stores in the cache is the join of the per-file results in that order,
    whatever each fetch yields. *)
Theorem miss_fetches_configured_files (B : Browser) (env : LoadEnv) (a : App)
    (c : Container) :
  container (ui a) = Some c ->
  cache_miss (now_lookup env) (st a) ->
  let a' := loadChapters B env a in
  let html := Js.join (map (file_result env) CHAPTERS_TO_LOAD) in
  fetched (fx a') = (fetched (fx a) ++ map chapter_url CHAPTERS_TO_LOAD)%list /\
  option_map c_innerHTML (container (ui a')) = Some html /\
  chapterCache (st a') !! "chapters" =
    Some {| content := html; timestamp := now_store env |}.
Proof.
  intros Hc Hmiss. cbv zeta. rewrite (loadChapters_miss B env a c Hc Hmiss).
  destruct (fetched_and_injected_spec env a c Hc) as (C & _ & _ & _ & F & _ & _ & K).
  pose proof (onChaptersLoaded_frame B env (fetched_and_injected env a)) as Hf.
  cbv zeta in Hf.
  destruct (onChaptersLoaded B env (fetched_and_injected env a)) as [a1|m a1];
    cbn [completed] in Hf; destruct Hf as (U & F' & _ & K' & _);
    cbn [st fx ui on_st set_isLoading chapterCache].
  - destruct (fadeOut_frame a1) as (S1 & _ & X1 & C1 & _).
    rewrite X1, S1, C1, F', K', U, C, F, K. auto.
  - destruct (showError_frame m a1) as (S1 & _ & X1 & C1).
    rewrite X1, S1, C1, F', K', U, C, F, K. auto.
Qed.

Lemma miss_fetches_configured_files_witness :
  let a' := loadChapters Sample.browser Sample.env1 Sample.app0 in
  let html := Js.join (map (file_result Sample.env1) CHAPTERS_TO_LOAD) in
  fetched (fx a') = ["chapters/kinematics.html"; "chapters/dynamics.html"] /\
  option_map c_innerHTML (container (ui a')) = Some html /\
  chapterCache (st a') !! "chapters" = Some {| content := html; timestamp := 1200 |}.
Proof.
  exact (miss_fetches_configured_files Sample.browser Sample.env1 Sample.app0
           {| c_innerHTML := ""; c_hidden := false |} eq_refl eq_refl).
Defined.

(** C8: a failed fetch only replaces its own fragment by the placeholder,
    a div of the classes chapter and error with the text Failed to load
    and the name of the file; the other fragments are injected, the batch goes
    on to the initialisation of the page (no error is shown because of a
    fetch), and only the files that were fetched join the loaded set. *)
Theorem fetch_failure_is_isolated (B : Browser) (env : LoadEnv) (a : App)
    (c : Container) :
  container (ui a) = Some c ->
  cache_miss (now_lookup env) (st a) ->
  let a' := loadChapters B env a in
  option_map c_innerHTML (container (ui a')) =
    Some (Js.join (map (fun file =>
            match fetched_html env file with
            | Some html => html
            | None => "<div class=" ++ Js.dq ++ "chapter error" ++ Js.dq
                      ++ ">Failed to load " ++ file ++ "</div>"
            end) CHAPTERS_TO_LOAD)) /\
  loadedChapters (st a') =
    loadedChapters (st a) ∪ list_to_set (succeeded env CHAPTERS_TO_LOAD) /\
  (init_error env = None ->
     option_map c_hidden (container (ui a')) = Some (c_hidden c) /\
     errorContainer (ui a') = errorContainer (ui a) /\
     retryBtn (ui a') = retryBtn (ui a) /\
     searchIndex (st a') <> None).
Proof.
  intros Hc Hmiss. cbv zeta. rewrite (loadChapters_miss B env a c Hc Hmiss).
  destruct (fetched_and_injected_spec env a c Hc) as (C & E & R & _ & _ & _ & L & _).
  pose proof (onChaptersLoaded_frame B env (fetched_and_injected env a)) as Hf.
  cbv zeta in Hf.
  destruct (onChaptersLoaded B env (fetched_and_injected env a)) as [a1|m a1] eqn:Eo;
    cbn [completed] in Hf; destruct Hf as (U & _ & _ & _ & L' & _);
    cbn [st fx ui on_st set_isLoading loadedChapters searchIndex].
  - destruct (fadeOut_frame a1) as (S1 & _ & _ & C1 & E1 & _ & R1).
    rewrite S1, C1, E1, R1, L', U, C, E, R, L.
    split; [reflexivity|]. split; [reflexivity|]. intros _.
    repeat split; try reflexivity.
    unfold onChaptersLoaded in Eo. destruct (init_error env); [discriminate|].
    injection Eo as <-. discriminate.
  - destruct (showError_frame m a1) as (S1 & _ & _ & C1).
    rewrite S1, C1, L', U, C, L.
    split; [reflexivity|]. split; [reflexivity|]. intros Hi.
    unfold onChaptersLoaded in Eo. rewrite Hi in Eo. discriminate.
Qed.

Lemma fetch_failure_is_isolated_witness :
  let a' := loadChapters Sample.browser Sample.env1 Sample.app0 in
  option_map c_innerHTML (container (ui a')) =
    Some ("<div>K</div><div class=" ++ Js.dq ++ "chapter error" ++ Js.dq
          ++ ">Failed to load dynamics.html</div>") /\
  loadedChapters (st a') = ∅ ∪ list_to_set ["kinematics.html"] /\
  errorContainer (ui a') = Some true.
Proof.
  destruct (fetch_failure_is_isolated Sample.browser Sample.env1 Sample.app0
              {| c_innerHTML := ""; c_hidden := false |} eq_refl eq_refl)
    as (H1 & H2 & H3).
  destruct (H3 eq_refl) as (_ & H4 & _).
  exact (conj H1 (conj H2 H4)).
Defined.

(** ** Failure and retry *)

Lemma loadChapters_unfold (B : Browser) (env : LoadEnv) (a : App) (c : Container) :
  container (ui a) = Some c ->
  loadChapters B env a =
  on_st (set_isLoading false)
    match onChaptersLoaded B env (before_init env a) with
    | Normal a' => fadeOut a'
    | Throw m a' => showError m a'
    end.
Proof.
  intros Hc. unfold loadChapters, loadChapters_try, before_init.
  rewrite Hc. remember CHAPTERS_TO_LOAD as files.
  destruct (getCachedChapters _ _) as [cached s].
  destruct (Js.truthy_opt cached).
  - destruct (onChaptersLoaded B env _); reflexivity.
  - destruct (fetchAll env files _) as [hs a2].
    destruct (onChaptersLoaded B env _); reflexivity.
Qed.

Lemma inject_ui (env : LoadEnv) (html : string) (a : App) (c : Container) :
  container (ui a) = Some c ->
  container (ui (inject env html a)) =
    Some {| c_innerHTML := html; c_hidden := c_hidden c |} /\
  errorContainer (ui (inject env html a)) = errorContainer (ui a) /\
  errorMessage (ui (inject env html a)) = errorMessage (ui a) /\
  retryBtn (ui (inject env html a)) = retryBtn (ui a) /\
  st (inject env html a) = st a /\ fx (inject env html a) = fx a.
Proof. intros Hc. unfold inject. rewrite Hc. simpl. tauto. Qed.

Lemma before_init_ui (env : LoadEnv) (a : App) (c : Container) :
  container (ui a) = Some c ->
  option_map c_hidden (container (ui (before_init env a))) = Some (c_hidden c) /\
  errorContainer (ui (before_init env a)) = errorContainer (ui a) /\
  errorMessage (ui (before_init env a)) = errorMessage (ui a) /\
  retryBtn (ui (before_init env a)) = retryBtn (ui a).
Proof.
  intros Hc. unfold before_init. remember CHAPTERS_TO_LOAD as files.
  destruct (getCachedChapters _ _) as [cached s].
  destruct (Js.truthy_opt cached).
  - edestruct (inject_ui env) as (C & E & M & R & _); [|rewrite C, E, M, R].
    + simpl. exact Hc.
    + simpl. tauto.
  - set (a1 := on_st _ (on_st (set_isLoading true) a)).
    pose proof (fetchAll_state env files a1) as Hs.
    destruct (fetchAll env files a1) as [hs a2]. simpl in Hs.
    destruct Hs as (_ & _ & U & _).
    cbn [ui on_st].
    edestruct (inject_ui env) as (C & E & M & R & _); [|rewrite C, E, M, R].
    + rewrite U. subst a1. simpl. exact Hc.
    + rewrite U. subst a1. simpl. tauto.
Qed.



(** A load whose initialisation throws ends in showError. *)
Lemma loadChapters_fails (B : Browser) (env : LoadEnv) (a : App) (c : Container)
    (m : string) :
  container (ui a) = Some c ->
  init_error env = Some m ->
  loadChapters B env a =
  on_st (set_isLoading false) (showError m (before_init env a)).
Proof.
  intros Hc Hi. rewrite (loadChapters_unfold B env a c Hc).
  unfold onChaptersLoaded. rewrite Hi. reflexivity.
Qed.


Lemma loadChapters_keeps_container (B : Browser) (env : LoadEnv) (a : App) :
  is_Some (container (ui a)) -> is_Some (container (ui (loadChapters B env a))).
Proof.
  intros [c Hc]. rewrite (loadChapters_unfold B env a c Hc).
  destruct (before_init_ui env a c Hc) as (C & _).
  pose proof (onChaptersLoaded_frame B env (before_init env a)) as Hf.
  cbv zeta in Hf.
  destruct (container (ui (before_init env a))) as [c1|] eqn:E1; [|discriminate].
  destruct (onChaptersLoaded B env (before_init env a)) as [a1|m a1];
    cbn [completed] in Hf; destruct Hf as (U & _); cbn [ui on_st].
  - destruct (fadeOut_frame a1) as (_ & _ & _ & C1 & _). rewrite C1, U, E1. eauto.
  - destruct (showError_frame m a1) as (_ & _ & _ & C1).
    rewrite U, E1 in C1.
    destruct (container (ui (showError m a1))); [eauto | discriminate].
Qed.

(** ** The phases of a load *)

Lemma inject_state (env : LoadEnv) (html : string) (a : App) :
  st (inject env html a) = st a /\ fx (inject env html a) = fx a.
Proof. unfold inject. destruct (container (ui a)); simpl; tauto. Qed.

Lemma receive_frame (env : LoadEnv) (files : list string) (a : App) :
  let a' := fold_left (receive env) files a in
  ui a' = ui a /\ page a' = page a /\ fx a' = fx a /\
  observedElements (st a') = observedElements (st a) /\
  chapterCache (st a') = chapterCache (st a) /\
  searchIndex (st a') = searchIndex (st a) /\
  loadedChapters (st a') = loadedChapters (st a) ∪ list_to_set (succeeded env files).
Proof.
  revert a. induction files as [|f r IH]; intros a; cbv zeta.
  - simpl. repeat split; try reflexivity. set_solver.
  - simpl fold_left. destruct (IH (receive env a f)) as (U & P & F & O & C & X & L).
    rewrite U, P, F, O, C, X, L. unfold receive, succeeded, fetched_html. simpl.
    destruct (fetch env (chapter_url f)) as [|[] [h|]]; simpl;
      repeat split; try reflexivity.
    all: try (rewrite bool_decide_eq_false_2 by (intros [? ?]; discriminate)); simpl.
    all: try (rewrite bool_decide_eq_true_2 by eauto); simpl.
    all: set_solver.
Qed.

Lemma chapterHtml_result (env : LoadEnv) (file : string) :
  chapterHtml env file = file_result env file.
Proof.
  unfold chapterHtml, file_result, fetched_html.
  destruct (fetch env (chapter_url file)) as [|[] [h|]]; reflexivity.
Qed.

Lemma responded_frame (env : LoadEnv) (a : App) :
  let a' := responded env a in
  observedElements (st a') = observedElements (st a) /\
  searchIndex (st a') = searchIndex (st a) /\
  fx a' = fx a /\
  (forall c, container (ui a) = Some c ->
     container (ui a') =
       Some {| c_innerHTML := Js.join (map (chapterHtml env) CHAPTERS_TO_LOAD);
               c_hidden := c_hidden c |} /\
     errorContainer (ui a') = errorContainer (ui a) /\
     errorMessage (ui a') = errorMessage (ui a) /\
     retryBtn (ui a') = retryBtn (ui a)).
Proof.
  cbv zeta. unfold responded. remember CHAPTERS_TO_LOAD as files.
  destruct (receive_frame env files a) as (U & _ & F & O & _ & X & _).
  set (a1 := fold_left (receive env) files a) in *.
  destruct (inject_state env (Js.join (map (chapterHtml env) files)) a1) as (S1 & F1).
  cbn [st fx ui on_st cacheChapters set_chapterCache observedElements searchIndex].
  rewrite S1, F1, O, X, F.
  repeat split; try reflexivity.
  all: destruct (inject_ui env (Js.join (map (chapterHtml env) files)) a1 c)
         as (C2 & E2 & M2 & R2 & _); [rewrite U; assumption|];
       rewrite ?C2, ?E2, ?M2, ?R2, ?U; reflexivity.
Qed.

Lemma finish_unfold (B : Browser) (env : LoadEnv) (a : App) :
  loadChapters_finish B env a =
  on_st (set_isLoading false)
    match onChaptersLoaded B env (responded env a) with
    | Normal a' => fadeOut a'
    | Throw m a' => showError m a'
    end.
Proof. reflexivity. Qed.

(** What the end of a load leaves untouched, whether or not the page
    initialises. *)
Lemma finish_frame (B : Browser) (env : LoadEnv) (a : App) :
  let a' := loadChapters_finish B env a in
  observedElements (st a') = observedElements (st a) /\
  initialized (fx a') = initialized (fx a) /\
  fetched (fx a') = fetched (fx a) /\
  (is_Some (container (ui a)) -> is_Some (container (ui a'))).
Proof.
  cbv zeta. rewrite finish_unfold.
  destruct (responded_frame env a) as (O & _ & F & U).
  pose proof (onChaptersLoaded_frame B env (responded env a)) as Hf.
  cbv zeta in Hf.
  destruct (onChaptersLoaded B env (responded env a)) as [a1|m a1];
    cbn [completed] in Hf; destruct Hf as (U1 & F1 & I1 & _ & _ & O1 & _);
    cbn [st fx ui on_st set_isLoading observedElements].
  - destruct (fadeOut_frame a1) as (S2 & _ & F2 & C2 & _).
    rewrite S2, F2, C2, O1, I1, F1, U1, O, F.
    repeat split; try reflexivity.
    intros [c Hc]. destruct (U c Hc) as (C & _). rewrite C. eauto.
  - destruct (showError_frame m a1) as (S2 & _ & F2 & C2).
    rewrite S2, F2, O1, I1, F1, O, F.
    repeat split; try reflexivity.
    intros [c Hc]. destruct (U c Hc) as (C & _).
    rewrite U1, C in C2.
    destruct (container (ui (showError m a1))); [eauto | discriminate].
Qed.


(** The two ways in which a call of loadChapters begins. *)
Lemma start_cases (B : Browser) (env : LoadEnv) (a : App) (c : Container) :
  container (ui a) = Some c ->
  (cache_miss (now_lookup env) (st a) /\
   loadChapters_start B env a = (requested env a, Some env)) \/
  (~ cache_miss (now_lookup env) (st a) /\
   loadChapters_start B env a = (loadChapters B env a, None)).
Proof.
  intros Hc. unfold loadChapters_start, loadChapters, loadChapters_try, requested,
    cache_miss.
  rewrite Hc. remember CHAPTERS_TO_LOAD as files. cbn [st on_st].
  rewrite !getCached_isLoading. cbn [fst snd].
  destruct (Js.truthy_opt (fst (getCachedChapters (now_lookup env) (st a)))) eqn:Et.
  - right. split; [discriminate|].
    destruct (onChaptersLoaded B env _); reflexivity.
  - left. split; reflexivity.
Qed.

Lemma requests_frame (files : list string) (a : App) :
  let a' := fold_left (fun a file => on_fx (log_fetched (chapter_url file)) a) files a in
  st a' = st a /\ ui a' = ui a /\ page a' = page a /\
  initialized (fx a') = initialized (fx a) /\
  fetched (fx a') = (fetched (fx a) ++ map chapter_url files)%list.
Proof.
  revert a. induction files as [|f r IH]; intros a; cbv zeta; simpl.
  - rewrite app_nil_r. tauto.
  - destruct (IH (on_fx (log_fetched (chapter_url f)) a)) as (S1 & U1 & P1 & I1 & F1).
    rewrite S1, U1, P1, I1, F1. simpl. rewrite <- app_assoc. tauto.
Qed.

Lemma requested_frame (env : LoadEnv) (a : App) :
  ui (requested env a) = ui a /\ page (requested env a) = page a /\
  observedElements (st (requested env a)) = observedElements (st a) /\
  searchIndex (st (requested env a)) = searchIndex (st a) /\
  initialized (fx (requested env a)) = initialized (fx a) /\
  fetched (fx (requested env a)) =
    (fetched (fx a) ++ map chapter_url CHAPTERS_TO_LOAD)%list /\
  chapterCache (st (requested env a)) =
    chapterCache (snd (getCachedChapters (now_lookup env) (st a))).
Proof.
  unfold requested. remember CHAPTERS_TO_LOAD as files.
  match goal with |- context [fold_left ?f files ?x] =>
    destruct (requests_frame files x) as (S1 & U1 & P1 & I1 & F1)
  end.
  cbv zeta in S1, U1, P1, I1, F1. rewrite S1, U1, P1, I1, F1.
  cbn [st ui page fx on_st]. rewrite getCached_isLoading. cbn [snd].
  unfold getCachedChapters.
  destruct (chapterCache (st a) !! "chapters") as [e|]; [|simpl; tauto].
  destruct (CACHE_DURATION <? now_lookup env - timestamp e)%Z; simpl; tauto.
Qed.

(** A load in one go is a load that begins and, when it waits, ends with
    nothing in between. *)
Lemma receive_requests (env : LoadEnv) (files files' : list string) (a : App) :
  fold_left (receive env) files
    (fold_left (fun a file => on_fx (log_fetched (chapter_url file)) a) files' a) =
  fold_left (fun a file => on_fx (log_fetched (chapter_url file)) a) files'
    (fold_left (receive env) files a).
Proof.
  revert a. induction files as [|f r IH]; intros a; simpl; [reflexivity|].
  rewrite <- IH. f_equal. clear IH.
  revert a. induction files' as [|f' r' IH']; intros a; simpl; [reflexivity|].
  rewrite IH'. f_equal. unfold receive. simpl.
  destruct (fetch env (chapter_url f)) as [|[] [h|]]; reflexivity.
Qed.

Lemma fetchAll_phases (env : LoadEnv) (files : list string) (a : App) :
  fetchAll env files a =
  (map (chapterHtml env) files,
   fold_left (receive env) files
     (fold_left (fun a file => on_fx (log_fetched (chapter_url file)) a) files a)).
Proof.
  revert a. induction files as [|f r IH]; intros a; simpl; [reflexivity|].
  unfold fetchChapter at 1.
  assert (E : forall x, fold_left (receive env) r
                (receive env
                   (fold_left (fun a file => on_fx (log_fetched (chapter_url file)) a)
                      r x) f) =
              fold_left (receive env) r
                (fold_left (fun a file => on_fx (log_fetched (chapter_url file)) a) r
                   (receive env x f))).
  { intros x. f_equal. exact (receive_requests env [f] r x). }
  rewrite E. unfold receive at 2, chapterHtml at 1.
  destruct (fetch env (chapter_url f)) as [|[] [h|]]; rewrite IH; reflexivity.
Qed.

Lemma loadChapters_phases (B : Browser) (env : LoadEnv) (a : App) :
  loadChapters B env a =
  match loadChapters_start B env a with
  | (a', Some env') => loadChapters_finish B env' a'
  | (a', None) => a'
  end.
Proof.
  unfold loadChapters_start, loadChapters, loadChapters_try, loadChapters_finish.
  destruct (container (ui a)); [|reflexivity].
  remember CHAPTERS_TO_LOAD as files.
  destruct (getCachedChapters _ _) as [cached s].
  destruct (Js.truthy_opt cached).
  - destruct (onChaptersLoaded B env _); reflexivity.
  - rewrite fetchAll_phases.
    destruct (onChaptersLoaded B env _); reflexivity.
Qed.

(** ** The loads of a click *)

Lemma finishLoads_inv (B : Browser) (I : App -> Prop) (E : LoadEnv -> Prop)
    (picks : list nat) (waiting : list LoadEnv) (a : App) :
  (forall env s, E env -> I s -> I (loadChapters_finish B env s)) ->
  Forall E waiting -> I a -> I (finishLoads B picks waiting a).
Proof.
  intros Hf. revert waiting a.
  induction picks as [|pick picks IH]; intros waiting a Hw Ha; simpl.
  - revert a Ha. induction Hw as [|env r He Hr IHr]; intros a Ha; simpl; auto.
  - destruct (waiting !! (pick mod length waiting)%nat) as [env|] eqn:El; [|exact Ha].
    apply IH.
    + apply Forall_delete, Hw.
    + apply Hf; [|exact Ha].
      rewrite Forall_forall in Hw. apply Hw.
      apply list_elem_of_lookup. eauto.
Qed.

(** Every load that waits does finish, whatever the order. *)
Lemma finishLoads_post (B : Browser) (I Post : App -> Prop) (E : LoadEnv -> Prop)
    (picks : list nat) (waiting : list LoadEnv) (a : App) :
  (forall env s, E env -> I s ->
     I (loadChapters_finish B env s) /\ Post (loadChapters_finish B env s)) ->
  Forall E waiting -> I a -> (Post a \/ waiting <> []) ->
  I (finishLoads B picks waiting a) /\ Post (finishLoads B picks waiting a).
Proof.
  intros Hf. revert waiting a.
  induction picks as [|pick picks IH]; intros waiting a Hw Ha Hp; simpl.
  - revert a Ha Hp. induction Hw as [|env r He Hr IHr]; intros a Ha Hp; simpl.
    + destruct Hp as [Hp|Hp]; [auto | contradiction].
    + destruct (Hf env a He Ha) as (H1 & H2). apply IHr; auto.
  - destruct waiting as [|e0 r0].
    + simpl. destruct Hp as [Hp|Hp]; [auto | contradiction].
    + assert (Hlt : (pick mod length (e0 :: r0) < length (e0 :: r0))%nat)
        by (apply Nat.mod_upper_bound; simpl; lia).
      destruct (lookup_lt_is_Some_2 _ _ Hlt) as [env El].
      rewrite El.
      assert (He : E env).
      { rewrite Forall_forall in Hw. apply Hw. apply list_elem_of_lookup. eauto. }
      destruct (Hf env a He Ha) as (H1 & H2).
      apply IH; [apply Forall_delete, Hw | exact H1 | left; exact H2].
Qed.

(** ** Failure and retry *)

Lemma retryListener_unfold (B : Browser) (env : LoadEnv) (a : App)
    (waiting : list LoadEnv) :
  retryListener B env (a, waiting) =
  (fst (loadChapters_start B env (error_dismissed a)),
   (waiting ++ match snd (loadChapters_start B env (error_dismissed a)) with
               | Some e => [e]
               | None => []
               end)%list).
Proof.
  unfold retryListener, error_dismissed.
  destruct (loadChapters_start B env _) as [a1 started]. reflexivity.
Qed.










(** ** What each operation leaves untouched *)

Lemma forEach_inv {A S : Type} (P : S -> Prop) (f : A -> S -> Completion S)
    (l : list A) (s : S) :
  (forall x s, P s -> P (completed (f x s))) -> P s -> P (completed (forEach f l s)).
Proof.
  intros Hf. revert s. induction l as [|x l IH]; intros s Hs; simpl; [exact Hs|].
  specialize (Hf x s Hs). destruct (f x s) as [s'|m s']; simpl in *; auto.
Qed.

Lemma set_style_frame (el : nat) (prop : string) (v : option CssValue) (a : App) :
  st (set_style el prop v a) = st a /\ fx (set_style el prop v a) = fx a /\
  ui (set_style el prop v a) = ui a /\
  body (page (set_style el prop v a)) = body (page a) /\
  itemEls (page (set_style el prop v a)) = itemEls (page a) /\
  chapterClass (page (set_style el prop v a)) = chapterClass (page a) /\
  subsectionClass (page (set_style el prop v a)) = subsectionClass (page a).
Proof. unfold set_style; simpl. tauto. Qed.

Lemma toggleSubsection_frame (s : Subsection) (f : option bool) (a : App) :
  st (toggleSubsection s f a) = st a /\ fx (toggleSubsection s f a) = fx a /\
  ui (toggleSubsection s f a) = ui a /\
  body (page (toggleSubsection s f a)) = body (page a) /\
  itemEls (page (toggleSubsection s f a)) = itemEls (page a) /\
  chapterClass (page (toggleSubsection s f a)) = chapterClass (page a).
Proof.
  unfold toggleSubsection, rotate_icon.
  destruct (ss_content s); [|tauto].
  destruct (match f with Some b => b | None => _ end);
    destruct (ss_icon s); simpl; tauto.
Qed.

Lemma cleanupPlot_frame (a : App) (p : PlotNode) :
  page (cleanupPlot a p) = page a /\ ui (cleanupPlot a p) = ui a /\
  searchIndex (st (cleanupPlot a p)) = searchIndex (st a) /\
  chapterCache (st (cleanupPlot a p)) = chapterCache (st a) /\
  loadedChapters (st (cleanupPlot a p)) = loadedChapters (st a) /\
  initialized (fx (cleanupPlot a p)) = initialized (fx a) /\
  fetched (fx (cleanupPlot a p)) = fetched (fx a).
Proof.
  unfold cleanupPlot.
  destruct (activeCharts (st a) !! pl_plotId p); simpl;
    destruct (activeAnimations (st a) !! pl_plotId p); simpl; tauto.
Qed.

Lemma cleanupChapterResources_frame (c : Chapter) (a : App) :
  page (cleanupChapterResources c a) = page a /\
  ui (cleanupChapterResources c a) = ui a /\
  searchIndex (st (cleanupChapterResources c a)) = searchIndex (st a) /\
  chapterCache (st (cleanupChapterResources c a)) = chapterCache (st a) /\
  loadedChapters (st (cleanupChapterResources c a)) = loadedChapters (st a) /\
  initialized (fx (cleanupChapterResources c a)) = initialized (fx a) /\
  fetched (fx (cleanupChapterResources c a)) = fetched (fx a).
Proof.
  unfold cleanupChapterResources.
  apply (fold_left_inv (fun a' =>
    page a' = page a /\ ui a' = ui a /\ searchIndex (st a') = searchIndex (st a) /\
    chapterCache (st a') = chapterCache (st a) /\
    loadedChapters (st a') = loadedChapters (st a) /\
    initialized (fx a') = initialized (fx a) /\ fetched (fx a') = fetched (fx a))).
  - intros s p (H1 & H2 & H3 & H4 & H5 & H6 & H7).
    destruct (cleanupPlot_frame s p) as (G1 & G2 & G3 & G4 & G5 & G6 & G7).
    rewrite G1, G2, G3, G4, G5, G6, G7. tauto.
  - tauto.
Qed.

(** Expanding a chapter writes the page only. *)
Lemma expand_frame (c : Chapter) (a : App) :
  st (toggleChapter c (Some true) a) = st a /\
  fx (toggleChapter c (Some true) a) = fx a /\
  ui (toggleChapter c (Some true) a) = ui a /\
  body (page (toggleChapter c (Some true) a)) = body (page a) /\
  itemEls (page (toggleChapter c (Some true) a)) = itemEls (page a).
Proof.
  unfold toggleChapter. destruct (ch_content c); [|tauto].
  destruct (0 <? length (chapter_subsections c))%nat; simpl; tauto.
Qed.

Lemma toggleChapter_frame (c : Chapter) (f : option bool) (a : App) :
  ui (toggleChapter c f a) = ui a /\
  body (page (toggleChapter c f a)) = body (page a) /\
  itemEls (page (toggleChapter c f a)) = itemEls (page a) /\
  searchIndex (st (toggleChapter c f a)) = searchIndex (st a) /\
  chapterCache (st (toggleChapter c f a)) = chapterCache (st a) /\
  loadedChapters (st (toggleChapter c f a)) = loadedChapters (st a) /\
  initialized (fx (toggleChapter c f a)) = initialized (fx a) /\
  fetched (fx (toggleChapter c f a)) = fetched (fx a).
Proof.
  unfold toggleChapter. destruct (ch_content c) as [el|]; [|tauto].
  destruct (match f with Some b => b | None => _ end).
  - destruct (0 <? length (chapter_subsections c))%nat; simpl; tauto.
  - match goal with |- context [cleanupChapterResources c ?x] =>
      destruct (cleanupChapterResources_frame c x) as (G1 & G2 & G3 & G4 & G5 & G6 & G7)
    end.
    rewrite G1, G2, G3, G4, G5, G6, G7. simpl. tauto.
Qed.

Lemma callInitializer_frame (i : Initializer) (p : PlotNode) (a : App) :
  page (call_initializer i p a) = page a /\ ui (call_initializer i p a) = ui a /\
  searchIndex (st (call_initializer i p a)) = searchIndex (st a) /\
  chapterCache (st (call_initializer i p a)) = chapterCache (st a) /\
  loadedChapters (st (call_initializer i p a)) = loadedChapters (st a) /\
  observedElements (st (call_initializer i p a)) = observedElements (st a) /\
  fetched (fx (call_initializer i p a)) = fetched (fx a) /\
  initialized (fx (call_initializer i p a))
    = (initialized (fx a) ++ [(pl_plotId p, pl_el p)])%list.
Proof.
  unfold call_initializer. destruct i; [|destruct (pl_forceCanvas p)]; simpl; tauto.
Qed.

Lemma handleEntry_frame (a : App) (entry : IntersectionObserverEntry) :
  let a' := completed (handleEntry entry a) in
  page a' = page a /\ ui a' = ui a /\
  searchIndex (st a') = searchIndex (st a) /\
  chapterCache (st a') = chapterCache (st a) /\
  loadedChapters (st a') = loadedChapters (st a) /\
  fetched (fx a') = fetched (fx a).
Proof.
  cbv zeta. unfold handleEntry, initializePlot.
  destruct (isIntersecting entry && _); [|simpl; tauto].
  destruct (Js.truthy _); [|simpl; tauto].
  destruct (PLOT_INITIALIZERS _) as [[i| |]|]; try (simpl; tauto).
  cbn [completed].
  match goal with |- context [call_initializer i ?p ?x] =>
    destruct (callInitializer_frame i p x) as (G1 & G2 & G3 & G4 & G5 & _ & G7 & _)
  end.
  rewrite G1, G2, G3, G4, G5, G7. simpl. tauto.
Qed.

Lemma handleIntersection_frame (entries : list IntersectionObserverEntry) (a : App) :
  let a' := completed (handleIntersection entries a) in
  page a' = page a /\ ui a' = ui a /\
  searchIndex (st a') = searchIndex (st a) /\
  chapterCache (st a') = chapterCache (st a) /\
  loadedChapters (st a') = loadedChapters (st a) /\
  fetched (fx a') = fetched (fx a).
Proof.
  cbv zeta. unfold handleIntersection.
  apply (forEach_inv (fun a' =>
    page a' = page a /\ ui a' = ui a /\ searchIndex (st a') = searchIndex (st a) /\
    chapterCache (st a') = chapterCache (st a) /\
    loadedChapters (st a') = loadedChapters (st a) /\
    fetched (fx a') = fetched (fx a))).
  - intros e s (H1 & H2 & H3 & H4 & H5 & H6).
    destruct (handleEntry_frame s e) as (G1 & G2 & G3 & G4 & G5 & G6).
    rewrite G1, G2, G3, G4, G5, G6. tauto.
  - tauto.
Qed.

Lemma searchEntry_frame (B : Browser) (query : string) (entry : IndexEntry)
    (s : SearchLoop) :
  let a' := loop_app (completed (searchEntry B query entry s)) in
  st a' = st (loop_app s) /\ fx a' = fx (loop_app s) /\ ui a' = ui (loop_app s) /\
  body (page a') = body (page (loop_app s)) /\
  chapterClass (page a') = chapterClass (page (loop_app s)).
Proof.
  unfold searchEntry.
  destruct (Js.includes (text entry) query).
  - destruct (highlightRegex B query); simpl; tauto.
  - destruct (Js.truthy_opt _); simpl; tauto.
Qed.

Lemma searchLoop_frame (B : Browser) (query : string) (index : list IndexEntry)
    (s : SearchLoop) :
  let a' := loop_app (completed (forEach (searchEntry B query) index s)) in
  st a' = st (loop_app s) /\ fx a' = fx (loop_app s) /\ ui a' = ui (loop_app s) /\
  body (page a') = body (page (loop_app s)) /\
  chapterClass (page a') = chapterClass (page (loop_app s)).
Proof.
  cbv zeta.
  apply (forEach_inv (fun s' =>
    st (loop_app s') = st (loop_app s) /\ fx (loop_app s') = fx (loop_app s) /\
    ui (loop_app s') = ui (loop_app s) /\
    body (page (loop_app s')) = body (page (loop_app s)) /\
    chapterClass (page (loop_app s')) = chapterClass (page (loop_app s)))).
  - intros x s' (H1 & H2 & H3 & H4 & H5).
    destruct (searchEntry_frame B query x s') as (G1 & G2 & G3 & G4 & G5).
    rewrite G1, G2, G3, G4, G5. tauto.
  - tauto.
Qed.

Lemma showChapter_frame (query : string) (matched : gset nat) (a : App) (c : Chapter) :
  st (showChapter query matched a c) = st a /\
  fx (showChapter query matched a c) = fx a /\
  ui (showChapter query matched a c) = ui a /\
  body (page (showChapter query matched a c)) = body (page a) /\
  itemEls (page (showChapter query matched a c)) = itemEls (page a).
Proof.
  unfold showChapter.
  destruct (bool_decide (ch_el c ∈ matched) && Js.truthy query); [|simpl; tauto].
  match goal with |- context [toggleChapter c (Some true) ?x] =>
    destruct (expand_frame c x) as (G1 & G2 & G3 & G4 & G5)
  end.
  rewrite G1, G2, G3, G4, G5. simpl. tauto.
Qed.

Lemma showChapters_frame (query : string) (matched : gset nat) (l : list Chapter)
    (a : App) :
  let a' := fold_left (showChapter query matched) l a in
  st a' = st a /\ fx a' = fx a /\ ui a' = ui a /\
  body (page a') = body (page a) /\ itemEls (page a') = itemEls (page a).
Proof.
  cbv zeta.
  apply (fold_left_inv (fun a' =>
    st a' = st a /\ fx a' = fx a /\ ui a' = ui a /\
    body (page a') = body (page a) /\ itemEls (page a') = itemEls (page a))).
  - intros s c (H1 & H2 & H3 & H4 & H5).
    destruct (showChapter_frame query matched s c) as (G1 & G2 & G3 & G4 & G5).
    rewrite G1, G2, G3, G4, G5. tauto.
  - tauto.
Qed.

Lemma clearItems_frame (l : list ItemNode) (a : App) :
  let a' := fold_left clearItem l a in
  st a' = st a /\ fx a' = fx a /\ ui a' = ui a /\
  body (page a') = body (page a) /\
  chapterClass (page a') = chapterClass (page a).
Proof.
  cbv zeta.
  apply (fold_left_inv (fun a' =>
    st a' = st a /\ fx a' = fx a /\ ui a' = ui a /\
    body (page a') = body (page a) /\
    chapterClass (page a') = chapterClass (page a))).
  - intros s i (H1 & H2 & H3 & H4 & H5). unfold clearItem.
    destruct (Js.truthy_opt _); simpl; tauto.
  - tauto.
Qed.

Lemma unhideChapters_frame (l : list Chapter) (a : App) :
  let a' := fold_left unhideChapter l a in
  st a' = st a /\ fx a' = fx a /\ ui a' = ui a /\
  body (page a') = body (page a) /\ itemEls (page a') = itemEls (page a).
Proof.
  cbv zeta.
  apply (fold_left_inv (fun a' =>
    st a' = st a /\ fx a' = fx a /\ ui a' = ui a /\
    body (page a') = body (page a) /\ itemEls (page a') = itemEls (page a))).
  - intros s c (H1 & H2 & H3 & H4 & H5). simpl. tauto.
  - tauto.
Qed.

Lemma clearSearch_frame (a : App) :
  st (clearSearch a) = st a /\ fx (clearSearch a) = fx a /\
  body (page (clearSearch a)) = body (page a).
Proof.
  unfold clearSearch. cbn [st fx page on_ui].
  match goal with |- context [fold_left unhideChapter ?l ?x] =>
    destruct (unhideChapters_frame l x) as (G1 & G2 & _ & G4 & _)
  end.
  rewrite G1, G2, G4.
  match goal with |- context [fold_left clearItem ?l ?x] =>
    destruct (clearItems_frame l x) as (K1 & K2 & _ & K4 & _)
  end.
  rewrite K1, K2, K4. simpl. tauto.
Qed.

Lemma handleSearch_frame (B : Browser) (value : string) (a : App) :
  st (completed (handleSearch B value a)) = st a /\
  fx (completed (handleSearch B value a)) = fx a /\
  body (page (completed (handleSearch B value a))) = body (page a).
Proof.
  unfold handleSearch.
  destruct (negb (Js.truthy (Js.trim (Js.toLowerCase value)))).
  - apply clearSearch_frame.
  - set (start := {| hasResults := false; matchedChapters := ∅; loop_app := a |}).
    assert (H : let s := completed (match searchIndex (st a) with
                   | Some index => forEach (searchEntry B (Js.trim (Js.toLowerCase value)))
                                      index start
                   | None => Normal start end) in
                st (loop_app s) = st a /\ fx (loop_app s) = fx a /\
                body (page (loop_app s)) = body (page a)).
    { destruct (searchIndex (st a)) as [index|]; [|simpl; tauto].
      destruct (searchLoop_frame B (Js.trim (Js.toLowerCase value)) index start)
        as (G1 & G2 & _ & G4 & _).
      cbv zeta. rewrite G1, G2, G4. simpl. tauto. }
    cbv zeta in H.
    destruct (match searchIndex (st a) with Some _ => _ | None => _ end) as [s|m s];
      cbn [completed] in H |- *; [|exact H].
    cbn [st fx page on_ui].
    match goal with |- context [fold_left (showChapter ?q ?m) ?l ?x] =>
      destruct (showChapters_frame q m l x) as (G1 & G2 & _ & G4 & _)
    end.
    rewrite G1, G2, G4. exact H.
Qed.

Lemma kinematics_resume_frame (p : PlotNode) (a : App) :
  page (kinematics_resume p a) = page a /\ ui (kinematics_resume p a) = ui a /\
  searchIndex (st (kinematics_resume p a)) = searchIndex (st a) /\
  observedElements (st (kinematics_resume p a)) = observedElements (st a) /\
  initialized (fx (kinematics_resume p a)) = initialized (fx a).
Proof. unfold kinematics_resume. destruct (pl_plotCanvas p); simpl; tauto. Qed.

(** ** The search index *)

Lemma index_chapter_spec (B : Browser) (p : Page) (c : Chapter)
    (acc : list IndexEntry) :
  index_chapter B p acc c = (acc ++ map (entry_of B p c) (chapter_items c))%list.
Proof.
  unfold index_chapter. generalize (chapter_items c) as items.
  intros items; revert acc.
  induction items as [|i r IH]; intros acc; simpl.
  - rewrite app_nil_r. reflexivity.
  - rewrite IH. unfold index_item, entry_of. rewrite <- app_assoc. reflexivity.
Qed.

Lemma buildSearchIndex_spec (B : Browser) (a : App) :
  searchIndex (st (buildSearchIndex B a)) = Some (flat_index B (page a)).
Proof.
  unfold buildSearchIndex, flat_index; simpl. f_equal.
  change (fold_left (index_chapter B (page a)) (doc_chapters (body (page a))) [] =
          ([] ++ flat_map (fun c => map (entry_of B (page a) c) (chapter_items c))
                   (doc_chapters (body (page a))))%list).
  generalize (@nil IndexEntry) as acc.
  induction (doc_chapters (body (page a))) as [|c r IH]; intros acc; simpl.
  - rewrite app_nil_r. reflexivity.
  - rewrite IH, index_chapter_spec, <- app_assoc. reflexivity.
Qed.

Lemma flat_index_elements (B : Browser) (p : Page) :
  map element (flat_index B p) =
  map it_el (flat_map chapter_items (doc_chapters (body p))).
Proof.
  unfold flat_index.
  induction (doc_chapters (body p)) as [|c r IH]; simpl; [reflexivity|].
  rewrite !map_app, IH, map_map. reflexivity.
Qed.

Lemma flat_index_entries (B : Browser) (p : Page) (entry : IndexEntry) :
  In entry (flat_index B p) ->
  exists c item, In c (doc_chapters (body p)) /\ In item (chapter_items c) /\
                 entry = entry_of B p c item.
Proof.
  unfold flat_index. rewrite in_flat_map. intros (c & Hc & H).
  rewrite in_map_iff in H. destruct H as (item & <- & Hi). eauto.
Qed.

Lemma buildSearchIndex_page (B : Browser) (a : App) :
  page (buildSearchIndex B a) = page a /\ ui (buildSearchIndex B a) = ui a /\
  fx (buildSearchIndex B a) = fx a.
Proof. unfold buildSearchIndex; simpl. tauto. Qed.

Lemma loadChapters_builds_index (B : Browser) (env : LoadEnv) (a : App)
    (c : Container) :
  container (ui a) = Some c ->
  init_error env = None ->
  searchIndex (st (loadChapters B env a)) =
  Some (flat_index B (page (loadChapters B env a))).
Proof.
  intros Hc Hi. rewrite (loadChapters_unfold B env a c Hc).
  unfold onChaptersLoaded. rewrite Hi.
  cbn [st page on_st set_isLoading searchIndex].
  destruct (fadeOut_frame (buildSearchIndex B
              (initializePlots (initializeCopyButtons B (before_init env a)))))
    as (S1 & P1 & _).
  rewrite S1, P1, buildSearchIndex_spec.
  destruct (buildSearchIndex_page B
              (initializePlots (initializeCopyButtons B (before_init env a))))
    as (P2 & _).
  rewrite P2. reflexivity.
Qed.

Lemma toggleAll_frame (f : option bool) (l : list Chapter) (a : App) :
  searchIndex (st (fold_left (fun a c => toggleChapter c f a) l a))
  = searchIndex (st a).
Proof.
  apply (fold_left_inv (fun a' => searchIndex (st a') = searchIndex (st a))).
  - intros s c H. destruct (toggleChapter_frame c f s) as (_ & _ & _ & G & _).
    rewrite G. exact H.
  - reflexivity.
Qed.

Lemma step_keeps_index (B : Browser) (op : Op) (a : App) :
  loads op = false -> searchIndex (st (step B op a)) = searchIndex (st a).
Proof.
  destruct op; intros H; try discriminate H; cbn [step].
  - apply handleIntersection_frame.
  - apply kinematics_resume_frame.
  - apply toggleChapter_frame.
  - destruct (toggleSubsection_frame s forceState a) as (G & _). rewrite G. reflexivity.
  - apply toggleAll_frame.
  - apply toggleAll_frame.
  - destruct (handleSearch_frame B value a) as (G & _). rewrite G. reflexivity.
  - destruct (clearSearch_frame a) as (G & _). rewrite G. reflexivity.
Qed.

Lemma lower_char_spec (c : ascii) :
  if capital c then nat_of_ascii (Js.lower_char c) = (nat_of_ascii c + 32)%nat
  else Js.lower_char c = c.
Proof. destruct c as [[] [] [] [] [] [] [] []]; reflexivity. Qed.

Lemma toLowerCase_spec (s : string) : lowercase_of s (Js.toLowerCase s).
Proof.
  induction s as [|c r IH]; simpl; [exact I|].
  split; [apply lower_char_spec | exact IH].
Qed.

(** C5: buildSearchIndex stores a flat list with one entry per formula item
    of the chapters, in document order, each with the item, its chapter and
    the lowercased text of the item (every capital letter of the text
    replaced by its small letter, the rest kept); a load that initialises
    its page ends with the index of that page; no operation other than a
    load writes the index. *)
Theorem search_index_is_built_once (B : Browser) :
  (forall a,
     searchIndex (st (buildSearchIndex B a)) = Some (flat_index B (page a)) /\
     map element (flat_index B (page a)) =
       map it_el (flat_map chapter_items (doc_chapters (body (page a)))) /\
     (forall entry, In entry (flat_index B (page a)) ->
        exists c item,
          In c (doc_chapters (body (page a))) /\ In item (chapter_items c) /\
          element entry = it_el item /\ chapter entry = ch_el c /\
          text entry =
            Js.toLowerCase (textContent B (innerHTML (itemEls (page a) (it_el item)))) /\
          lowercase_of (textContent B (innerHTML (itemEls (page a) (it_el item))))
            (text entry))) /\
  (forall env a c,
     container (ui a) = Some c -> init_error env = None ->
     searchIndex (st (loadChapters B env a)) =
       Some (flat_index B (page (loadChapters B env a)))) /\
  (forall op a, loads op = false ->
     searchIndex (st (step B op a)) = searchIndex (st a)).
Proof.
  split; [|split].
  - intros a. split; [apply buildSearchIndex_spec|].
    split; [apply flat_index_elements|].
    intros entry H. destruct (flat_index_entries B (page a) entry H)
      as (c & item & Hc & Hi & ->).
    exists c, item. simpl. repeat split; auto. apply toLowerCase_spec.
  - apply loadChapters_builds_index.
  - intros op a. apply step_keeps_index.
Qed.

Lemma search_index_is_built_once_witness :
  searchIndex (st Sample.app1) = Some (flat_index Sample.browser (page Sample.app1)) /\
  map element (flat_index Sample.browser (page Sample.app1)) = [1; 2]%nat /\
  map chapter (flat_index Sample.browser (page Sample.app1)) = [3; 8]%nat /\
  map text (flat_index Sample.browser (page Sample.app1))
    = ["v = a t (uniform)"; "f = m a"] /\
  searchIndex (st (step Sample.browser (OpHandleSearch "law") Sample.app1))
    = searchIndex (st Sample.app1).
Proof.
  destruct (search_index_is_built_once Sample.browser) as (H1 & H2 & H3).
  split; [|split; [|split; [|split]]].
  - exact (H2 Sample.env1 Sample.app0 {| c_innerHTML := ""; c_hidden := false |}
             eq_refl eq_refl).
  - destruct (H1 Sample.app1) as (_ & E & _). rewrite E. reflexivity.
  - vm_compute. reflexivity.
  - vm_compute. reflexivity.
  - exact (H3 (OpHandleSearch "law") Sample.app1 eq_refl).
Defined.

(** ** Releasing widgets on collapse *)

Lemma cleanupPlot_spec (a : App) (p : PlotNode) :
  activeCharts (st (cleanupPlot a p)) = delete (pl_plotId p) (activeCharts (st a)) /\
  activeAnimations (st (cleanupPlot a p))
    = delete (pl_plotId p) (activeAnimations (st a)) /\
  observedElements (st (cleanupPlot a p)) = observedElements (st a) ∖ {[pl_el p]} /\
  destroyed (fx (cleanupPlot a p)) =
    (destroyed (fx a) ++ match activeCharts (st a) !! pl_plotId p with
                         | Some h => [h] | None => [] end)%list /\
  stopped (fx (cleanupPlot a p)) =
    (stopped (fx a) ++ match activeAnimations (st a) !! pl_plotId p with
                       | Some h => [h] | None => [] end)%list.
Proof.
  unfold cleanupPlot.
  destruct (activeCharts (st a) !! pl_plotId p) as [h|] eqn:Ec; simpl;
    destruct (activeAnimations (st a) !! pl_plotId p) as [h'|] eqn:Ea; simpl;
    rewrite ?app_nil_r;
    repeat split; try reflexivity; symmetry; apply delete_id; assumption.
Qed.

Lemma cleanup_fold_spec (plots : list PlotNode) (a : App) :
  let a' := fold_left cleanupPlot plots a in
  (forall p, In p plots ->
     activeCharts (st a') !! pl_plotId p = None /\
     activeAnimations (st a') !! pl_plotId p = None /\
     pl_el p ∉ observedElements (st a')) /\
  (forall k, activeCharts (st a) !! k = None -> activeCharts (st a') !! k = None) /\
  (forall k, activeAnimations (st a) !! k = None ->
             activeAnimations (st a') !! k = None) /\
  (forall e, e ∉ observedElements (st a) -> e ∉ observedElements (st a')) /\
  (forall h, In h (destroyed (fx a)) -> In h (destroyed (fx a'))) /\
  (forall h, In h (stopped (fx a)) -> In h (stopped (fx a'))) /\
  (forall p h, In p plots -> activeCharts (st a) !! pl_plotId p = Some h ->
               In h (destroyed (fx a'))) /\
  (forall p h, In p plots -> activeAnimations (st a) !! pl_plotId p = Some h ->
               In h (stopped (fx a'))).
Proof.
  revert a. induction plots as [|q r IH]; intros a; cbv zeta.
  - simpl. repeat split; auto; try contradiction.
  - simpl fold_left.
    destruct (IH (cleanupPlot a q)) as (I1 & I2 & I3 & I4 & I5 & I6 & I7 & I8).
    destruct (cleanupPlot_spec a q) as (C & A & O & D & S).
    assert (Hc : forall k, activeCharts (st a) !! k = None ->
                           activeCharts (st (cleanupPlot a q)) !! k = None).
    { intros k Hk. rewrite C. rewrite lookup_delete_None. auto. }
    assert (Ha : forall k, activeAnimations (st a) !! k = None ->
                           activeAnimations (st (cleanupPlot a q)) !! k = None).
    { intros k Hk. rewrite A. rewrite lookup_delete_None. auto. }
    assert (Hd : forall h, In h (destroyed (fx a)) ->
                           In h (destroyed (fx (cleanupPlot a q)))).
    { intros h Hh. rewrite D. apply in_or_app. auto. }
    assert (Hs : forall h, In h (stopped (fx a)) ->
                           In h (stopped (fx (cleanupPlot a q)))).
    { intros h Hh. rewrite S. apply in_or_app. auto. }
    split; [|split; [|split; [|split; [|split; [|split; [|split]]]]]].
    + intros p [<-|Hp]; [|auto].
      split; [|split].
      * apply I2. rewrite C. apply lookup_delete_eq.
      * apply I3. rewrite A. apply lookup_delete_eq.
      * apply I4. rewrite O. set_solver.
    + auto.
    + auto.
    + intros e He. apply I4. rewrite O. set_solver.
    + auto.
    + auto.
    + intros p h [<-|Hp] Hh.
      * apply I5. rewrite D, Hh. apply in_or_app. right. left. reflexivity.
      * destruct (decide (pl_plotId q = pl_plotId p)) as [E|E].
        -- apply I5. rewrite D, E, Hh. apply in_or_app. right. left. reflexivity.
        -- apply (I7 p h Hp). rewrite C, lookup_delete_ne; assumption.
    + intros p h [<-|Hp] Hh.
      * apply I6. rewrite S, Hh. apply in_or_app. right. left. reflexivity.
      * destruct (decide (pl_plotId q = pl_plotId p)) as [E|E].
        -- apply I6. rewrite S, E, Hh. apply in_or_app. right. left. reflexivity.
        -- apply (I8 p h Hp). rewrite A, lookup_delete_ne; assumption.
Qed.

Lemma toggleChapter_collapse (c : Chapter) (f : option bool) (a : App) (el : nat) :
  ch_content c = Some el ->
  collapsing c f a = true ->
  exists a0, toggleChapter c f a = cleanupChapterResources c a0 /\
             st a0 = st a /\ fx a0 = fx a /\
             classList_contains "active" (chapterClass (page a0) (ch_el c)) = false.
Proof.
  intros Hc Hf. unfold toggleChapter. rewrite Hc.
  assert (E : match f with
              | Some b => b
              | None => negb (classList_contains "active" (chapterClass (page a) (ch_el c)))
              end = false).
  { unfold collapsing in Hf. destruct f as [b|].
    - destruct b; [discriminate | reflexivity].
    - rewrite Hf. reflexivity. }
  rewrite E. eexists. split; [reflexivity|].
  simpl. split; [reflexivity|]. split; [reflexivity|].
  rewrite fn_lookup_insert. unfold classList_contains.
  apply bool_decide_eq_false_2. set_solver.
Qed.

(** C2, as the code has it: collapsing a chapter that has a content node
    destroys every chart and stops every animation registered under the
    plot ids of its plots, and leaves none of these ids in either registry
    (nor the plots marked as observed). *)
Theorem chapter_collapse_releases_widgets (c : Chapter) (f : option bool) (a : App)
    (el : nat) :
  ch_content c = Some el ->
  collapsing c f a = true ->
  let a' := toggleChapter c f a in
  (forall p, In p (chapter_plots c) ->
     activeCharts (st a') !! pl_plotId p = None /\
     activeAnimations (st a') !! pl_plotId p = None /\
     pl_el p ∉ observedElements (st a')) /\
  (forall p h, In p (chapter_plots c) ->
     activeCharts (st a) !! pl_plotId p = Some h -> In h (destroyed (fx a'))) /\
  (forall p h, In p (chapter_plots c) ->
     activeAnimations (st a) !! pl_plotId p = Some h -> In h (stopped (fx a'))).
Proof.
  intros Hc Hf. cbv zeta.
  destruct (toggleChapter_collapse c f a el Hc Hf) as (a0 & -> & S0 & F0 & _).
  unfold cleanupChapterResources.
  destruct (cleanup_fold_spec (chapter_plots c) a0)
    as (I1 & _ & _ & _ & _ & _ & I7 & I8).
  rewrite S0 in I7, I8.
  split; [exact I1|]. split; [exact I7 | exact I8].
Qed.

Lemma chapter_collapse_releases_widgets_witness :
  activeAnimations (st Sample.app2) !! "force-analysis-sim" = Some 0%nat /\
  activeAnimations (st (toggleChapter Sample.dynamics (Some false) Sample.app2))
    !! "force-analysis-sim" = None /\
  In 0%nat (stopped (fx (toggleChapter Sample.dynamics (Some false) Sample.app2))).
Proof.
  destruct (chapter_collapse_releases_widgets Sample.dynamics (Some false)
              Sample.app2 9 eq_refl eq_refl) as (H1 & _ & H3).
  assert (Hin : In Sample.sim (chapter_plots Sample.dynamics))
    by (left; reflexivity).
  assert (H0 : activeAnimations (st Sample.app2) !! "force-analysis-sim" = Some 0%nat)
    by (vm_compute; reflexivity).
  split; [exact H0|].
  split; [exact (proj1 (proj2 (H1 Sample.sim Hin))) | exact (H3 Sample.sim 0%nat Hin H0)].
Defined.

(** C2 fails for subsections: toggleSubsection calls no cleanup, so
    collapsing the subsection that holds the running simulation leaves its
    controller in the registry. *)
Lemma subsection_collapse_releases_nothing :
  ~ subsection_released Sample.section1
      (toggleSubsection Sample.section1 (Some false) Sample.app2).
Proof.
  intros H.
  destruct (H Sample.sim (or_introl eq_refl)) as (_ & Ha).
  vm_compute in Ha. discriminate Ha.
Qed.

(** ** The lazy loader *)

Lemma invocations_log (el : nat) (a : App) (plotId : string) (e : nat) (a' : App) :
  initialized (fx a') = (initialized (fx a) ++ [(plotId, e)])%list ->
  invocations el a' = (invocations el a + if (e =? el)%nat then 1 else 0)%nat.
Proof.
  intros H. unfold invocations. rewrite H, List.filter_app, length_app. simpl.
  destruct (e =? el)%nat; reflexivity.
Qed.

Lemma invocations_same (el : nat) (a a' : App) :
  initialized (fx a') = initialized (fx a) -> invocations el a' = invocations el a.
Proof. intros H. unfold invocations. rewrite H. reflexivity. Qed.

Lemma initializePlot_lazy (el : nat) (p : PlotNode) (a : App) :
  throws p = false ->
  exists a', initializePlot p a = Normal a' /\
    observedElements (st a') = observedElements (st a) /\
    invocations el a' =
      (invocations el a +
       if has_initializer p && (pl_el p =? el)%nat then 1 else 0)%nat.
Proof.
  intros Ht. unfold initializePlot, throws, has_initializer in *.
  destruct (Js.truthy (pl_plotId p)); simpl in *.
  2:{ exists a. repeat split; lia. }
  destruct (PLOT_INITIALIZERS (pl_plotId p)) as [[i| |]|]; try discriminate.
  - eexists. split; [reflexivity|].
    destruct (callInitializer_frame i p a) as (_ & _ & _ & _ & _ & O & _ & L).
    split; [exact O|]. rewrite (invocations_log _ a _ _ _ L). reflexivity.
  - exists a. simpl. repeat split; lia.
  - exists a. simpl. repeat split; lia.
Qed.

(** One entry: the initializer runs when the element is reported for the
    first time since it was last marked, and then the mark is set. *)
Lemma handleEntry_lazy (el : nat) (a : App) (entry : IntersectionObserverEntry) :
  (negb (pl_el (target entry) =? el)%nat || has_initializer (target entry)) = true ->
  throws (target entry) = false ->
  exists a', handleEntry entry a = Normal a' /\
  invocations el a' =
    (invocations el a +
     if bool_decide (el ∈ observedElements (st a)) then 0
     else if reports el entry then 1 else 0)%nat /\
  (el ∈ observedElements (st a') <->
   el ∈ observedElements (st a) \/ reports el entry = true).
Proof.
  intros Hb Ht. unfold handleEntry, reports.
  destruct (isIntersecting entry); simpl.
  2:{ exists a. split; [reflexivity|].
      split; [destruct (bool_decide _); lia | intuition discriminate]. }
  destruct (bool_decide (pl_el (target entry) ∈ observedElements (st a))) eqn:Eo; simpl.
  - apply bool_decide_eq_true_1 in Eo. exists a. split; [reflexivity|].
    destruct (Nat.eqb_spec (pl_el (target entry)) el) as [<-|Hne].
    + rewrite bool_decide_eq_true_2 by assumption. split; [lia | tauto].
    + split; [destruct (bool_decide _); lia | intuition discriminate].
  - apply bool_decide_eq_false_1 in Eo.
    set (a1 := on_st _ a).
    destruct (initializePlot_lazy el (target entry) a1 Ht) as (a' & E & O & N).
    exists a'. split; [exact E|]. rewrite O, N.
    rewrite (invocations_same _ a a1) by reflexivity.
    subst a1. cbn [st on_st set_observedElements observedElements].
    destruct (Nat.eqb_spec (pl_el (target entry)) el) as [He|Hne].
    + subst el. rewrite bool_decide_eq_false_2 by assumption.
      simpl in Hb. rewrite Hb. split; [reflexivity | set_solver].
    + rewrite andb_false_r. split.
      * destruct (bool_decide _); lia.
      * split; [intros H; left; set_solver | intros [H|H]; [set_solver | discriminate]].
Qed.

Lemma handleIntersection_lazy (el : nat) (entries : list IntersectionObserverEntry)
    (a : App) :
  bound el (OpHandleIntersection entries) = true ->
  safe (OpHandleIntersection entries) = true ->
  exists a', handleIntersection entries a = Normal a' /\
  invocations el a' =
    (invocations el a +
     if bool_decide (el ∈ observedElements (st a)) then 0
     else if existsb (reports el) entries then 1 else 0)%nat /\
  (el ∈ observedElements (st a') <->
   el ∈ observedElements (st a) \/ existsb (reports el) entries = true).
Proof.
  unfold handleIntersection. revert a.
  induction entries as [|e r IH]; intros a Hb Hs; simpl in *.
  - exists a. split; [reflexivity|].
    split; [destruct (bool_decide _); lia | intuition discriminate].
  - apply andb_prop in Hb. destruct Hb as [Hb1 Hb2].
    apply andb_prop in Hs. destruct Hs as [Hs1 Hs2].
    apply negb_true_iff in Hs1.
    destruct (handleEntry_lazy el a e Hb1 Hs1) as (a1 & E1 & N1 & O1).
    destruct (IH a1 Hb2 Hs2) as (a2 & E2 & N2 & O2).
    rewrite E1. exists a2. split; [exact E2|].
    split.
    + rewrite N2, N1.
      destruct (bool_decide (el ∈ observedElements (st a))) eqn:Ea.
      * apply bool_decide_eq_true_1 in Ea.
        rewrite bool_decide_eq_true_2 by (apply O1; auto). lia.
      * apply bool_decide_eq_false_1 in Ea.
        destruct (reports el e) eqn:Er; simpl.
        -- rewrite bool_decide_eq_true_2 by (apply O1; auto). lia.
        -- rewrite bool_decide_eq_false_2 by (rewrite O1; intuition discriminate). lia.
    + rewrite O2, O1, orb_true_iff. tauto.
Qed.

Lemma inject_lazy (env : LoadEnv) (html : string) (a : App) :
  st (inject env html a) = st a /\ fx (inject env html a) = fx a.
Proof. unfold inject. destruct (container (ui a)); simpl; tauto. Qed.

Lemma getCached_observed (now : Z) (s : STATE) :
  observedElements (snd (getCachedChapters now s)) = observedElements s.
Proof.
  unfold getCachedChapters. destruct (chapterCache s !! "chapters") as [e|]; [|reflexivity].
  destruct (CACHE_DURATION <? now - timestamp e)%Z; reflexivity.
Qed.

Lemma before_init_lazy (env : LoadEnv) (a : App) :
  observedElements (st (before_init env a)) = observedElements (st a) /\
  initialized (fx (before_init env a)) = initialized (fx a).
Proof.
  unfold before_init. remember CHAPTERS_TO_LOAD as files.
  pose proof (getCached_observed (now_lookup env) (st (on_st (set_isLoading true) a))) as Hg.
  destruct (getCachedChapters _ _) as [cached s]. simpl in Hg.
  destruct (Js.truthy_opt cached).
  - destruct (inject_lazy env (default "" cached)
                (on_st (fun _ => s) (on_st (set_isLoading true) a))) as (S1 & F1).
    rewrite S1, F1. simpl. auto.
  - set (a1 := on_st _ (on_st (set_isLoading true) a)).
    pose proof (fetchAll_state env files a1) as Hs.
    destruct (fetchAll env files a1) as [hs a2]. simpl in Hs.
    destruct Hs as (_ & _ & _ & _ & _ & _ & _ & O & _ & _ & _ & I).
    cbn [st fx on_st cacheChapters set_chapterCache observedElements].
    destruct (inject_lazy env (Js.join hs) a2) as (S1 & F1).
    rewrite S1, F1, O, I. subst a1. simpl. auto.
Qed.

Lemma loadChapters_lazy (B : Browser) (env : LoadEnv) (a : App) :
  observedElements (st (loadChapters B env a)) = observedElements (st a) /\
  initialized (fx (loadChapters B env a)) = initialized (fx a).
Proof.
  destruct (container (ui a)) as [c|] eqn:Hc.
  - rewrite (loadChapters_unfold B env a c Hc).
    destruct (before_init_lazy env a) as (O & I).
    pose proof (onChaptersLoaded_frame B env (before_init env a)) as Hf.
    cbv zeta in Hf.
    destruct (onChaptersLoaded B env (before_init env a)) as [a1|m a1];
      cbn [completed] in Hf; destruct Hf as (_ & _ & I' & _ & _ & O' & _);
      cbn [st fx on_st set_isLoading observedElements].
    + destruct (fadeOut_frame a1) as (S1 & _ & F1 & _). rewrite S1, F1, O', I'. auto.
    + destruct (showError_frame m a1) as (S1 & _ & F1 & _). rewrite S1, F1, O', I'. auto.
  - unfold loadChapters. rewrite Hc. auto.
Qed.

Lemma start_lazy (B : Browser) (env : LoadEnv) (a : App) :
  observedElements (st (fst (loadChapters_start B env a))) = observedElements (st a) /\
  initialized (fx (fst (loadChapters_start B env a))) = initialized (fx a).
Proof.
  destruct (container (ui a)) as [c|] eqn:Hc.
  - destruct (start_cases B env a c Hc) as [(_ & ->) | (_ & ->)]; cbn [fst].
    + destruct (requested_frame env a) as (_ & _ & O & _ & I & _). auto.
    + apply loadChapters_lazy.
  - unfold loadChapters_start. rewrite Hc. auto.
Qed.

Lemma retryListener_lazy (B : Browser) (env : LoadEnv) (acc : App * list LoadEnv) :
  observedElements (st (fst (retryListener B env acc))) = observedElements (st (fst acc)) /\
  initialized (fx (fst (retryListener B env acc))) = initialized (fx (fst acc)).
Proof.
  destruct acc as [a w]. unfold retryListener.
  match goal with |- context [loadChapters_start B env ?x] =>
    pose proof (start_lazy B env x) as H;
    destruct (loadChapters_start B env x) as [a1 started]
  end.
  exact H.
Qed.

Lemma retryClick_lazy (B : Browser) (envs : nat -> LoadEnv) (picks : list nat)
    (a : App) :
  observedElements (st (retryClick B envs picks a)) = observedElements (st a) /\
  initialized (fx (retryClick B envs picks a)) = initialized (fx a).
Proof.
  unfold retryClick.
  assert (H : observedElements (st (fst (fold_left
                (fun acc k => retryListener B (envs k) acc)
                (seq 0 (default 0 (retryBtn (ui a)))) (a, []))))
              = observedElements (st a) /\
              initialized (fx (fst (fold_left
                (fun acc k => retryListener B (envs k) acc)
                (seq 0 (default 0 (retryBtn (ui a)))) (a, []))))
              = initialized (fx a)).
  { apply (fold_left_inv (fun acc =>
      observedElements (st (fst acc)) = observedElements (st a) /\
      initialized (fx (fst acc)) = initialized (fx a))); [|auto].
    intros s k (H1 & H2).
    destruct (retryListener_lazy B (envs k) s) as (O & I). rewrite O, I. auto. }
  destruct (fold_left _ _ _) as [a1 w]. cbn [fst] in H.
  apply (finishLoads_inv B (fun s =>
    observedElements (st s) = observedElements (st a) /\
    initialized (fx s) = initialized (fx a)) (fun _ => True)).
  - intros env s _ (H1 & H2).
    destruct (finish_frame B env s) as (O & I & _). rewrite O, I. auto.
  - apply Forall_forall. auto.
  - exact H.
Qed.

Lemma cleanup_observed (plots : list PlotNode) (a : App) (el : nat) :
  existsb (fun p => (pl_el p =? el)%nat) plots = false ->
  (el ∈ observedElements (st (fold_left cleanupPlot plots a)) <->
   el ∈ observedElements (st a)).
Proof.
  revert a. induction plots as [|q r IH]; intros a H; simpl in *; [tauto|].
  apply orb_false_elim in H. destruct H as [Hq Hr].
  rewrite (IH _ Hr). destruct (cleanupPlot_spec a q) as (_ & _ & O & _).
  rewrite O. apply Nat.eqb_neq in Hq. set_solver.
Qed.

Lemma toggleChapter_lazy (c : Chapter) (f : option bool) (a : App) (el : nat) :
  spares el (OpToggleChapter c f) = true ->
  (el ∈ observedElements (st (toggleChapter c f a)) <-> el ∈ observedElements (st a)).
Proof.
  intros Hs.
  assert (Hcases : f = Some true \/ holds_plot el c = false).
  { simpl in Hs. destruct f as [[]|]; auto; right;
      apply negb_true_iff in Hs; exact Hs. }
  destruct Hcases as [-> | Hh].
  - destruct (expand_frame c a) as (S1 & _). rewrite S1. tauto.
  - unfold toggleChapter. destruct (ch_content c) as [e|]; [|tauto].
    destruct (match f with Some b => b | None => _ end).
    + destruct (0 <? length (chapter_subsections c))%nat; simpl; tauto.
    + unfold cleanupChapterResources. rewrite cleanup_observed by exact Hh.
      simpl. tauto.
Qed.

Lemma expandAll_frame (l : list Chapter) (a : App) :
  st (fold_left (fun a c => toggleChapter c (Some true) a) l a) = st a /\
  fx (fold_left (fun a c => toggleChapter c (Some true) a) l a) = fx a.
Proof.
  apply (fold_left_inv (fun a' => st a' = st a /\ fx a' = fx a)); [|auto].
  intros s c (H1 & H2). destruct (expand_frame c s) as (S1 & F1 & _).
  rewrite S1, F1. auto.
Qed.

(** One operation, as the lazy loader sees it. *)
Lemma step_lazy (B : Browser) (el : nat) (op : Op) (a : App) :
  spares el op = true -> bound el op = true -> safe op = true ->
  invocations el (step B op a) =
    (invocations el a +
     if bool_decide (el ∈ observedElements (st a)) then 0
     else if shows el op then 1 else 0)%nat /\
  (el ∈ observedElements (st (step B op a)) <->
   el ∈ observedElements (st a) \/ shows el op = true).
Proof.
  intros Hs Hb Hsafe.
  assert (Hquiet : forall a', observedElements (st a') = observedElements (st a) ->
            initialized (fx a') = initialized (fx a) ->
            invocations el a' = (invocations el a + if bool_decide
              (el ∈ observedElements (st a)) then 0 else 0)%nat /\
            (el ∈ observedElements (st a') <-> el ∈ observedElements (st a) \/ false = true)).
  { intros a' O I. rewrite O, (invocations_same el a a' I).
    split; [destruct (bool_decide _); lia | intuition discriminate]. }
  destruct op; cbn [step shows].
  - apply Hquiet; apply loadChapters_lazy.
  - apply Hquiet; apply retryClick_lazy.
  - destruct (handleIntersection_lazy el entries a Hb Hsafe) as (a' & -> & H).
    exact H.
  - apply Hquiet; apply kinematics_resume_frame.
  - destruct (toggleChapter_frame c forceState a) as (_ & _ & _ & _ & _ & _ & I & _).
    rewrite (invocations_same el a _ I), (toggleChapter_lazy c forceState a el Hs).
    split; [destruct (bool_decide _); lia | intuition discriminate].
  - destruct (toggleSubsection_frame s forceState a) as (S1 & F1 & _).
    apply Hquiet; [rewrite S1 | rewrite F1]; reflexivity.
  - destruct (expandAll_frame (doc_chapters (body (page a))) a) as (S1 & F1).
    apply Hquiet; [rewrite S1 | rewrite F1]; reflexivity.
  - discriminate Hs.
  - destruct (handleSearch_frame B value a) as (S1 & F1 & _).
    apply Hquiet; [rewrite S1 | rewrite F1]; reflexivity.
  - destruct (clearSearch_frame a) as (S1 & F1 & _).
    apply Hquiet; [rewrite S1 | rewrite F1]; reflexivity.
Qed.

Lemma run_lazy (B : Browser) (el : nat) (ops : list Op) (a : App) :
  forallb (spares el) ops = true -> forallb (bound el) ops = true ->
  forallb safe ops = true ->
  invocations el (run B ops a) =
    (invocations el a +
     if bool_decide (el ∈ observedElements (st a)) then 0
     else if existsb (shows el) ops then 1 else 0)%nat.
Proof.
  unfold run. revert a. induction ops as [|op r IH]; intros a Hs Hb Hf; simpl in *.
  - destruct (bool_decide _); lia.
  - apply andb_prop in Hs. destruct Hs as [Hs1 Hs2].
    apply andb_prop in Hb. destruct Hb as [Hb1 Hb2].
    apply andb_prop in Hf. destruct Hf as [Hf1 Hf2].
    destruct (step_lazy B el op a Hs1 Hb1 Hf1) as (N & O).
    rewrite (IH (step B op a) Hs2 Hb2 Hf2), N.
    destruct (bool_decide (el ∈ observedElements (st a))) eqn:Ea.
    + apply bool_decide_eq_true_1 in Ea.
      rewrite bool_decide_eq_true_2 by (apply O; auto). lia.
    + apply bool_decide_eq_false_1 in Ea.
      destruct (shows el op) eqn:Esh; simpl.
      * rewrite bool_decide_eq_true_2 by (apply O; auto). lia.
      * rewrite bool_decide_eq_false_2 by (rewrite O; intuition discriminate). lia.
Qed.

(** C1, as the code has it: while no chapter that holds the plot is
    collapsed and no batch of entries carries a plot id whose call throws,
    the initializer of the plot is called once, by the first intersecting
    entry delivered while the element is not marked as observed, and no
    later entry calls it again; collapsing the chapter clears the mark, and
    the next intersecting entry calls the initializer once more. *)
Theorem initializer_runs_once_until_collapse (B : Browser) (el : nat) :
  (forall ops a,
     forallb (spares el) ops = true -> forallb (bound el) ops = true ->
     forallb safe ops = true ->
     invocations el (run B ops a) =
       (invocations el a +
        if bool_decide (el ∈ observedElements (st a)) then 0
        else if existsb (shows el) ops then 1 else 0)%nat) /\
  (forall c f a p contentEl,
     pl_el p = el -> In p (chapter_plots c) -> has_initializer p = true ->
     ch_content c = Some contentEl -> collapsing c f a = true ->
     invocations el
       (completed (handleIntersection [visible p] (toggleChapter c f a))) =
       S (invocations el a)).
Proof.
  split; [intros ops a; apply run_lazy|].
  intros c f a p contentEl Hel Hin Hi Hc Hf.
  assert (Hb : bound el (OpHandleIntersection [visible p]) = true).
  { simpl. rewrite Hi, orb_true_r. reflexivity. }
  assert (Hs : safe (OpHandleIntersection [visible p]) = true).
  { simpl. unfold throws, has_initializer in *.
    destruct (Js.truthy (pl_plotId p)); [|reflexivity].
    destruct (PLOT_INITIALIZERS (pl_plotId p)) as [[i| |]|]; try discriminate.
    reflexivity. }
  destruct (handleIntersection_lazy el [visible p] (toggleChapter c f a) Hb Hs)
    as (a' & -> & N & _).
  cbn [completed]. rewrite N. clear N.
  destruct (toggleChapter_frame c f a) as (_ & _ & _ & _ & _ & _ & I & _).
  rewrite (invocations_same el a _ I).
  destruct (toggleChapter_collapse c f a contentEl Hc Hf) as (a0 & -> & _).
  destruct (cleanup_fold_spec (chapter_plots c) a0) as (I1 & _).
  destruct (I1 p Hin) as (_ & _ & Ho). rewrite Hel in Ho.
  unfold cleanupChapterResources.
  rewrite bool_decide_eq_false_2 by exact Ho.
  simpl. unfold reports. simpl. rewrite Hel, Nat.eqb_refl. simpl. lia.
Qed.

Lemma initializer_runs_once_until_collapse_witness :
  invocations 7 (run Sample.browser Sample.quiet_ops Sample.app1) = 1%nat /\
  invocations 7 (completed (handleIntersection [visible Sample.sim]
    (toggleChapter Sample.dynamics (Some false) Sample.app2))) = 2%nat.
Proof.
  destruct (initializer_runs_once_until_collapse Sample.browser 7) as (H1 & H2).
  split.
  - rewrite (H1 Sample.quiet_ops Sample.app1 eq_refl eq_refl eq_refl).
    vm_compute. reflexivity.
  - rewrite (H2 Sample.dynamics (Some false) Sample.app2 Sample.sim 9%nat
               eq_refl (or_introl eq_refl) eq_refl eq_refl eq_refl).
    vm_compute. reflexivity.
Defined.

(** C1 fails as stated: after the chapter was collapsed, a later
    visibility event calls the initializer of the same element again. *)
Lemma initializer_called_again_after_collapse :
  ~ (invocations 7 (run Sample.browser Sample.collapse_ops Sample.app1) <= 1)%nat.
Proof. vm_compute. lia. Qed.

(** Why the batches must be free of throwing plot ids: the call for a plot
    id that names a member of Object.prototype which is no function, or
    which throws on its arguments, leaves the loop of handleIntersection
    with the element marked, and the entries that follow in the batch are
    dropped; an element that became visible in such a batch does not get
    its initializer. *)
Lemma throwing_plot_id_cuts_the_batch (p : PlotNode)
    (rest : list IntersectionObserverEntry) (a : App) :
  throws p = true -> pl_el p ∉ observedElements (st a) ->
  handleIntersection (visible p :: rest) a =
  Throw "TypeError" (on_st (set_observedElements (fun o => o ∪ {[pl_el p]})) a).
Proof.
  intros Ht Ho. unfold handleIntersection. simpl. unfold handleEntry. simpl.
  rewrite (bool_decide_eq_false_2 _ Ho). simpl.
  unfold initializePlot. unfold throws in Ht.
  destruct (Js.truthy (pl_plotId p)); [|discriminate].
  destruct (PLOT_INITIALIZERS (pl_plotId p)) as [[i| |]|]; try discriminate.
  reflexivity.
Qed.

Lemma throwing_plot_id_cuts_the_batch_witness :
  invocations 7
    (run Sample.browser
       [OpHandleIntersection [visible Sample.proto; visible Sample.sim]]
       Sample.app1) = 0%nat.
Proof.
  unfold run. simpl fold_left. cbn [step].
  rewrite (throwing_plot_id_cuts_the_batch Sample.proto [visible Sample.sim]
             Sample.app1 eq_refl).
  - reflexivity.
  - intros H. apply (bool_decide_pack _) in H. vm_compute in H. exact H.
Defined.
(** ** The force-analysis simulation *)

Section ForceSimProofs.

Import ForceSim.

(** The result of rounding carries the sign it was given. *)
Lemma binary_round_aux_sign (s : bool) (m e : Z) (l : location) :
  let r := binary_round_aux prec emax s m e l in
  r = S754_nan \/ r = S754_zero s \/ r = S754_infinity s \/
  exists m' e', r = S754_finite s m' e'.
Proof.
  cbv zeta. unfold binary_round_aux.
  destruct (shr_fexp prec emax m e l) as [mrs' e'].
  destruct (shr_fexp prec emax _ e' loc_Exact) as [mrs'' e''].
  destruct (shr_m mrs'') as [|m'|m'].
  - right; left; reflexivity.
  - destruct (Z.leb e'' (Z.sub emax prec)).
    + right; right; right. eauto.
    + right; right; left; reflexivity.
  - left; reflexivity.
Qed.

Lemma rounded_notneg (m e : Z) (l : location) :
  lt (binary_round_aux prec emax false m e l) zero = false.
Proof.
  destruct (binary_round_aux_sign false m e l) as [H|[H|[H|(m' & e' & H)]]];
    rewrite H; reflexivity.
Qed.

Lemma mul_notneg (x y : number) :
  lt x zero = false -> lt y zero = false -> lt (mul x y) zero = false.
Proof.
  destruct x as [[]|[]| |[] mx ex]; destruct y as [[]|[]| |[] my ey];
    try discriminate; intros _ _; try reflexivity.
  apply rounded_notneg.
Qed.

Lemma add_notneg (x y : number) :
  lt x zero = false -> lt y zero = false -> lt (add x y) zero = false.
Proof.
  destruct x as [[]|[]| |[] mx ex]; destruct y as [[]|[]| |[] my ey];
    try discriminate; intros _ _; try reflexivity.
  unfold add, SFadd, binary_normalize, binary_round. cbn [cond_Zopp].
  destruct (shl_align mx ex (Z.min ex ey)) as [mx' ex'].
  destruct (shl_align my ey (Z.min ex ey)) as [my' ey'].
  cbn [fst Z.add].
  change (lt (let '(mz, ez) :=
                shl_align (mx' + my') (Z.min ex ey)
                  (fexp prec emax (Z.pos (digits2_pos (mx' + my')) + Z.min ex ey))
              in binary_round_aux prec emax false (Z.pos mz) ez loc_Exact) zero = false).
  destruct (shl_align (mx' + my') _ _) as [mz ez].
  apply rounded_notneg.
Qed.

Lemma max0_notneg (v : number) : lt (max0 v) zero = false.
Proof.
  unfold max0. destruct v as [[]|[]| |[] m e]; reflexivity.
Qed.

Lemma nonneg_notneg (x : number) : le zero x = true -> lt x zero = false.
Proof. destruct x as [s|[]| |[] m e]; try discriminate; reflexivity. Qed.

Lemma notneg_nonneg (x : number) :
  lt x zero = false -> is_nan x = false -> le zero x = true.
Proof. destruct x as [s|[]| |[] m e]; try discriminate; reflexivity. Qed.

Lemma le_refl_nonneg (x : number) : le zero x = true -> le x x = true.
Proof.
  destruct x as [s|[]| |[] m e]; try discriminate; intros _; try reflexivity.
  unfold le, SFleb, SFcompare. rewrite Z.compare_refl.
  change (Pos.compare_cont Eq m m) with (Pos.compare m m).
  rewrite Pos.compare_refl. reflexivity.
Qed.

Lemma le_zero_trans (p m : number) :
  le zero p = true -> le p m = true -> le zero m = true.
Proof.
  destruct p as [s|[]| |[] mp ep]; try discriminate;
    destruct m as [s'|[]| |[] mm em]; try discriminate; reflexivity.
Qed.

(** [p > m] is false, and neither is NaN: then [p <= m]. *)
Lemma not_gt_le (p m : number) :
  le zero m = true -> lt p zero = false -> is_nan p = false ->
  gt p m = false -> le p m = true.
Proof.
  destruct m as [s'|[]| |[] mm em]; try discriminate;
    destruct p as [s|[]| |[] mp ep]; try discriminate; intros _ _ _; try reflexivity;
    try discriminate.
  unfold gt, le, SFltb, SFleb, SFcompare.
  rewrite (Z.compare_antisym ep em).
  change (Pos.compare_cont Eq mm mp) with (Pos.compare mm mp).
  change (Pos.compare_cont Eq mp mm) with (Pos.compare mp mm).
  rewrite (Pos.compare_antisym mp mm).
  destruct (Z.compare ep em); simpl; try discriminate; try reflexivity.
  destruct (Pos.compare mp mm); simpl; try discriminate; reflexivity.
Qed.

Lemma frame_time_notneg (speed : number) :
  le zero speed = true ->
  lt (mul (div (of_Z 1) (of_Z ANIMATION_FPS)) speed) zero = false.
Proof.
  intros H. apply mul_notneg; [vm_compute; reflexivity | apply nonneg_notneg, H].
Qed.

Lemma animate_advanced (speed : number) (sim : Sim) :
  isPlaying sim = true ->
  state (animate speed sim) =
  if gt (advanced speed sim) (maxPosition (state sim)) then
    {| mass := mass (state sim); force := force (state sim);
       friction := friction (state sim); position := maxPosition (state sim);
       velocity := zero; maxPosition := maxPosition (state sim);
       time := add (time (state sim))
                 (mul (div (of_Z 1) (of_Z ANIMATION_FPS)) speed) |}
  else
    {| mass := mass (state sim); force := force (state sim);
       friction := friction (state sim); position := advanced speed sim;
       velocity := advanced_velocity speed sim;
       maxPosition := maxPosition (state sim);
       time := add (time (state sim))
                 (mul (div (of_Z 1) (of_Z ANIMATION_FPS)) speed) |}.
Proof.
  intros Hp. unfold animate, advanced, advanced_velocity. rewrite Hp. cbn [negb].
  destruct (gt _ (maxPosition (state sim))); reflexivity.
Qed.

Lemma in_bounds_kept (sim : Sim) : in_bounds sim -> kept sim.
Proof.
  intros (Hv & Hp & Hm). unfold kept.
  split; [apply nonneg_notneg, Hv|]. split; [apply nonneg_notneg, Hp|].
  split; [right; exact Hm|]. exact (le_zero_trans _ _ Hp Hm).
Qed.

Lemma kept_in_bounds_or_nan (sim : Sim) : kept sim -> in_bounds_or_nan sim.
Proof.
  intros (Hv & Hp & Hm & _). split; [exact Hv|].
  destruct Hm as [Hn|Hm]; [left; exact Hn|].
  destruct (is_nan (position (state sim))) eqn:En; [left; reflexivity|].
  right. split; [apply notneg_nonneg; assumption | exact Hm].
Qed.

Lemma animate_kept (speed : number) (sim : Sim) :
  le zero speed = true -> kept sim ->
  kept (animate speed sim) /\
  maxPosition (state (animate speed sim)) = maxPosition (state sim).
Proof.
  intros Hs (Hv & Hp & Hm & Hx).
  destruct (isPlaying sim) eqn:Eplay.
  2:{ unfold animate. rewrite Eplay. simpl. unfold kept. tauto. }
  unfold kept. rewrite (animate_advanced speed sim Eplay).
  pose proof (frame_time_notneg speed Hs) as Hdt.
  assert (Hav : lt (advanced_velocity speed sim) zero = false)
    by apply max0_notneg.
  assert (Hadv : lt (advanced speed sim) zero = false).
  { unfold advanced. apply add_notneg; [exact Hp|].
    apply mul_notneg; [apply mul_notneg; assumption | vm_compute; reflexivity]. }
  destruct (gt (advanced speed sim) (maxPosition (state sim))) eqn:E;
    cbn [velocity position maxPosition].
  - split; [|reflexivity].
    split; [reflexivity|]. split; [apply nonneg_notneg, Hx|].
    split; [right; apply le_refl_nonneg, Hx | exact Hx].
  - split; [|reflexivity].
    split; [exact Hav|]. split; [exact Hadv|]. split; [|exact Hx].
    destruct (is_nan (advanced speed sim)) eqn:En; [left; reflexivity|].
    right. apply not_gt_le; assumption.
Qed.

Lemma handle_kept (sim : Sim) (e : Event) :
  regular e -> kept sim ->
  kept (handle sim e) /\
  maxPosition (state (handle sim e)) = maxPosition (state sim).
Proof.
  intros Hr Hb. destruct e; simpl in *.
  - apply animate_kept; assumption.
  - unfold kept in *; simpl. tauto.
  - unfold kept in *; simpl. destruct Hb as (_ & _ & _ & Hx).
    repeat split; try reflexivity; auto.
  - destruct (animate_kept speed (set_playing true sim) Hr) as (H1 & H2).
    + exact Hb.
    + split; [exact H1 | exact H2].
  - unfold kept in *; simpl. tauto.
Qed.

Lemma play_kept (events : list Event) (sim : Sim) :
  Forall regular events -> kept sim ->
  kept (play events sim) /\
  maxPosition (state (play events sim)) = maxPosition (state sim).
Proof.
  unfold play. revert sim. induction events as [|e r IH]; intros sim Hr Hb; simpl.
  - split; [exact Hb | reflexivity].
  - inversion Hr as [|e' r' Hre Hrr]; subst.
    destruct (handle_kept sim e Hre Hb) as (K1 & K2).
    destruct (IH (handle sim e) Hrr K1) as (I1 & I2).
    split; [exact I1 | congruence].
Qed.

End ForceSimProofs.

(** C10, as the code has it, in the arithmetic of doubles: from a state
    within the bounds, after any frames and starts (with a speed that is a
    number not below zero), slider changes, resets and stops, the velocity
    is not negative and the position is NaN or lies between 0 and the
    maximum position, which never changes; a frame whose new position
    exceeds the maximum puts the block at the maximum with velocity 0, and
    any other frame, one that lands exactly on the maximum included, keeps
    the position and the velocity it computed. *)
Theorem simulation_stays_in_bounds (events : list ForceSim.Event)
    (sim : ForceSim.Sim) :
  ForceSim.in_bounds sim ->
  Forall ForceSim.regular events ->
  ForceSim.in_bounds_or_nan (ForceSim.play events sim) /\
  ForceSim.maxPosition (ForceSim.state (ForceSim.play events sim))
    = ForceSim.maxPosition (ForceSim.state sim) /\
  (forall speed s,
     ForceSim.isPlaying s = true ->
     ForceSim.gt (ForceSim.advanced speed s)
       (ForceSim.maxPosition (ForceSim.state s)) = true ->
     ForceSim.position (ForceSim.state (ForceSim.animate speed s))
       = ForceSim.maxPosition (ForceSim.state s) /\
     ForceSim.velocity (ForceSim.state (ForceSim.animate speed s)) = ForceSim.zero) /\
  (forall speed s,
     ForceSim.isPlaying s = true ->
     ForceSim.gt (ForceSim.advanced speed s)
       (ForceSim.maxPosition (ForceSim.state s)) = false ->
     ForceSim.position (ForceSim.state (ForceSim.animate speed s))
       = ForceSim.advanced speed s /\
     ForceSim.velocity (ForceSim.state (ForceSim.animate speed s))
       = ForceSim.advanced_velocity speed s).
Proof.
  intros Hb Hr.
  destruct (play_kept events sim Hr (in_bounds_kept sim Hb)) as (K & M).
  split; [apply kept_in_bounds_or_nan, K|]. split; [exact M|].
  split; intros speed s Hp Hg; rewrite (animate_advanced speed s Hp), Hg;
    split; reflexivity.
Qed.

Lemma simulation_stays_in_bounds_witness :
  ForceSim.in_bounds_or_nan (ForceSim.play Sample.session (ForceSim.start 300)).
Proof.
  apply (simulation_stays_in_bounds Sample.session (ForceSim.start 300)).
  - repeat split; vm_compute; reflexivity.
  - repeat constructor; vm_compute; reflexivity.
Defined.

(** C10 fails as stated.  From states within the bounds: a frame with a
    negative animation speed carries the block below 0; a frame with a
    mass and a force of 0 makes the position NaN, which is not between the
    bounds; and a frame that lands exactly on the maximum position leaves
    the block there with a positive velocity. *)
Lemma frames_leave_claimed_bounds :
  let moving :=
    ForceSim.play [ForceSim.Frame (ForceSim.of_Z 1);
                   ForceSim.Sliders (ForceSim.of_Z 50) (ForceSim.of_Z 10)
                     (ForceSim.of_Z 1)] (ForceSim.start 300) in
  let weightless :=
    ForceSim.handle (ForceSim.start 300)
      (ForceSim.Sliders (ForceSim.of_Z 0) (ForceSim.of_Z 0)
         (ForceSim.div (ForceSim.of_Z 2) (ForceSim.of_Z 10))) in
  let pushed :=
    ForceSim.handle (ForceSim.start 300)
      (ForceSim.Sliders (ForceSim.of_Z 250) (ForceSim.of_Z 10)
         (ForceSim.div (ForceSim.of_Z 2) (ForceSim.of_Z 10))) in
  (ForceSim.in_bounds moving /\
   ForceSim.lt (ForceSim.position (ForceSim.state
      (ForceSim.handle moving (ForceSim.Frame (ForceSim.of_Z (-1)))))) ForceSim.zero
     = true) /\
  (ForceSim.in_bounds weightless /\
   ForceSim.is_nan (ForceSim.position (ForceSim.state
      (ForceSim.handle weightless (ForceSim.Frame (ForceSim.of_Z 1))))) = true) /\
  (ForceSim.in_bounds pushed /\
   ForceSim.position (ForceSim.state
      (ForceSim.handle pushed (ForceSim.Frame (ForceSim.of_Z 60))))
     = ForceSim.maxPosition (ForceSim.state pushed) /\
   ForceSim.gt (ForceSim.velocity (ForceSim.state
      (ForceSim.handle pushed (ForceSim.Frame (ForceSim.of_Z 60))))) ForceSim.zero
     = true).
Proof.
  cbv zeta. repeat split; vm_compute; reflexivity.
Qed.

(** ** Strings and the highlighting replace *)

Lemma append_cons (c : ascii) (a b : string) :
  (String c a ++ b)%string = String c (a ++ b).
Proof. reflexivity. Qed.

Lemma append_nil (b : string) : ("" ++ b)%string = b.
Proof. reflexivity. Qed.

Lemma append_assoc (a b c : string) :
  ((a ++ b) ++ c)%string = (a ++ (b ++ c))%string.
Proof.
  induction a as [|x a IH]; [reflexivity|].
  rewrite !append_cons, IH. reflexivity.
Qed.

Lemma take_drop (n : nat) (s : string) : (Js.take n s ++ Js.drop n s)%string = s.
Proof.
  revert s. induction n as [|n IH]; intros [|c r]; simpl; try reflexivity.
  rewrite append_cons, IH. reflexivity.
Qed.

Lemma len_drop_le (n : nat) (s : string) : (Js.len (Js.drop n s) <= Js.len s)%nat.
Proof.
  revert s. induction n as [|n IH]; intros [|c r]; simpl; try lia.
  specialize (IH r). unfold Js.len in *. lia.
Qed.

Lemma raw_cons (p : Js.piece) (ps : list Js.piece) :
  Js.raw (p :: ps) = (Js.raw_piece p ++ Js.raw ps)%string.
Proof. reflexivity. Qed.

Lemma raw_app (ps qs : list Js.piece) :
  Js.raw (ps ++ qs)%list = (Js.raw ps ++ Js.raw qs)%string.
Proof.
  induction ps as [|p ps IH]; simpl; [reflexivity|].
  rewrite !raw_cons, IH, append_assoc. reflexivity.
Qed.

Lemma raw_plains (s : string) : Js.raw (plains s) = s.
Proof.
  induction s as [|c r IH]; simpl; [reflexivity|].
  rewrite raw_cons, IH. reflexivity.
Qed.

(** Erasing the marks gives back the subject. *)
Lemma raw_scan (fuel : nat) (q s : string) :
  (Js.len s < fuel)%nat -> Js.raw (Js.scan fuel q s) = s.
Proof.
  revert s. induction fuel as [|f IH]; intros s H; [lia|].
  destruct s as [|c r]; simpl.
  - destruct q; reflexivity.
  - simpl in H. destruct (Js.prefix_ci q (String c r)) eqn:E.
    + destruct (Js.len q) as [|n] eqn:L.
      * rewrite !raw_cons, IH by (unfold Js.len in *; lia). reflexivity.
      * rewrite raw_cons, IH.
        -- simpl Js.raw_piece. change (String c (Js.take n r))
             with (Js.take (S n) (String c r)).
           change (Js.drop n r) with (Js.drop (S n) (String c r)).
           apply take_drop.
        -- pose proof (len_drop_le n r). unfold Js.len in *. simpl. lia.
    + rewrite raw_cons, IH by (unfold Js.len in *; lia). reflexivity.
Qed.

Lemma toLowerCase_app (a b : string) :
  Js.toLowerCase (a ++ b) = (Js.toLowerCase a ++ Js.toLowerCase b)%string.
Proof.
  induction a as [|c a IH]; [reflexivity|].
  rewrite append_cons. simpl. rewrite IH, append_cons. reflexivity.
Qed.

Lemma toLowerCase_take (n : nat) (s : string) :
  Js.toLowerCase (Js.take n s) = Js.take n (Js.toLowerCase s).
Proof.
  revert s. induction n as [|n IH]; intros [|c r]; simpl; try reflexivity.
  rewrite IH. reflexivity.
Qed.

Lemma len_toLowerCase (s : string) : Js.len (Js.toLowerCase s) = Js.len s.
Proof. induction s as [|c r IH]; simpl; [reflexivity|]. unfold Js.len in *. simpl. lia. Qed.

Lemma prefix_take (p s : string) :
  String.prefix p s = true -> Js.take (Js.len p) s = p.
Proof.
  revert s. induction p as [|c p IH]; intros [|d s] H; simpl in *;
    try reflexivity; try discriminate.
  destruct (Ascii.ascii_dec c d) as [<-|]; [|discriminate].
  unfold Js.len in *. rewrite IH by exact H. reflexivity.
Qed.

Lemma prefix_app (p s t : string) :
  String.prefix p s = true -> String.prefix p (s ++ t) = true.
Proof.
  revert s. induction p as [|c p IH]; intros s H.
  - destruct (s ++ t)%string; reflexivity.
  - destruct s as [|d s]; [simpl in H; discriminate|].
    rewrite append_cons. simpl in *.
    destruct (Ascii.ascii_dec c d); [apply IH; exact H | discriminate].
Qed.

Lemma includes_empty (q : string) : q <> "" -> Js.includes "" q = false.
Proof. intros H. destruct q; [contradiction | reflexivity]. Qed.

Lemma includes_nonempty (t q : string) :
  q <> "" -> Js.includes t q = true -> t <> "".
Proof. intros Hq H ->. rewrite (includes_empty q Hq) in H. discriminate. Qed.

Lemma toLowerCase_nonempty (q : string) : q <> "" -> Js.toLowerCase q <> "".
Proof. destruct q; [contradiction | discriminate]. Qed.

Lemma plains_nil (run : string) : plains run = [] -> run = "".
Proof. destruct run; [reflexivity | discriminate]. Qed.

Lemma len_nonempty (q : string) : q <> "" -> exists n, Js.len q = S n.
Proof. destruct q; [contradiction | simpl; eauto]. Qed.

(** Every mark holds an occurrence of the query. *)
Lemma scan_marks (q : string) (fuel : nat) (s m : string) :
  q <> "" -> In (Js.Marked m) (Js.scan fuel q s) ->
  Js.toLowerCase m = Js.toLowerCase q.
Proof.
  intros Hq. revert s. induction fuel as [|f IH]; intros s H; [contradiction|].
  destruct s as [|c r]; simpl in H.
  - destruct q; [contradiction | contradiction].
  - destruct (Js.prefix_ci q (String c r)) eqn:E.
    + destruct (len_nonempty q Hq) as (n & L). rewrite L in H.
      destruct H as [H|H]; [|exact (IH _ H)].
      injection H as <-.
      change (String c (Js.take n r)) with (Js.take (S n) (String c r)).
      rewrite <- L, toLowerCase_take, <- (len_toLowerCase q).
      apply prefix_take. exact E.
    + destruct H as [H|H]; [discriminate | exact (IH _ H)].
Qed.

(** No run of characters left outside the marks holds an occurrence. *)
Lemma scan_runs (q : string) (fuel : nat) (s : string)
    (before : list Js.piece) (run : string) (after : list Js.piece) :
  q <> "" -> (Js.len s < fuel)%nat ->
  Js.scan fuel q s = (before ++ plains run ++ after)%list ->
  Js.includes (Js.toLowerCase run) (Js.toLowerCase q) = false.
Proof.
  intros Hq. pose proof (toLowerCase_nonempty q Hq) as Hlq.
  revert s before run after.
  induction fuel as [|f IH]; intros s before run after Hlen Heq; [lia|].
  destruct s as [|c r]; simpl in Heq.
  - destruct q; [contradiction|].
    symmetry in Heq. apply app_eq_nil in Heq. destruct Heq as [_ Heq].
    apply app_eq_nil in Heq. destruct Heq as [Heq _].
    rewrite (plains_nil run Heq). apply includes_empty, Hlq.
  - simpl in Hlen. destruct (Js.prefix_ci q (String c r)) eqn:E.
    + destruct (len_nonempty q Hq) as (n & L). rewrite L in Heq.
      destruct before as [|b before'].
      * destruct run as [|c' run']; [apply includes_empty, Hlq | discriminate].
      * injection Heq as _ Heq.
        apply (IH _ _ _ _) in Heq; [exact Heq|].
        pose proof (len_drop_le n r). unfold Js.len in *. lia.
    + destruct before as [|b before'].
      * destruct run as [|c' run']; [apply includes_empty, Hlq|].
        simpl in Heq. injection Heq as <- Heq.
        simpl. apply orb_false_intro.
        -- destruct (String.prefix (Js.toLowerCase q)
                       (String (Js.lower_char c) (Js.toLowerCase run'))) eqn:P;
             [|exact P].
           exfalso.
           assert (Hr : r = (run' ++ Js.raw after)%string).
           { rewrite <- (raw_scan f q r) by (unfold Js.len in *; lia).
             rewrite Heq, raw_app, raw_plains. reflexivity. }
           unfold Js.prefix_ci in E. rewrite Hr in E.
           change (String c (run' ++ Js.raw after))%string
             with (String c run' ++ Js.raw after)%string in E.
           rewrite toLowerCase_app in E.
           rewrite (prefix_app _ _ _ P) in E. discriminate.
        -- apply (IH r [] run' after); [unfold Js.len in *; lia | exact Heq].
      * injection Heq as _ Heq.
        apply (IH r before' run after); [unfold Js.len in *; lia | exact Heq].
Qed.

Lemma replace_literal_wraps (q s : string) :
  q <> "" -> wraps_occurrences q s (Js.replace_literal q s).
Proof.
  intros Hq. exists (Js.pieces q s). unfold Js.pieces.
  split; [reflexivity|]. split; [apply raw_scan; lia|].
  split.
  - intros m H. exact (scan_marks q _ s m Hq H).
  - intros before run after H.
    exact (scan_runs q _ s before run after Hq (Nat.lt_succ_diag_r _) H).
Qed.

(** ** Searching *)

Lemma highlightRegex_literal (B : Browser) (q : string) :
  Js.literal_pattern q = true -> highlightRegex B q = Some (Js.replace_literal q).
Proof. intros H. unfold highlightRegex. rewrite H. reflexivity. Qed.

Lemma item_after_saved (q : string) (e : ItemEl) :
  Js.truthy_opt (originalContent e) = true ->
  <["originalContent" := source_of e]> (dataset e) = dataset e.
Proof.
  intros H. unfold source_of. rewrite H. apply insert_id.
  unfold originalContent in *.
  destruct (dataset e !! "originalContent"); [reflexivity | discriminate].
Qed.

(** One entry of the index, for a query of literal characters. *)
Lemma searchEntry_literal (B : Browser) (q : string) (entry : IndexEntry)
    (s : SearchLoop) :
  Js.literal_pattern q = true ->
  searchEntry B q entry s =
  Normal
    {| hasResults := hasResults s || Js.includes (text entry) q;
       matchedChapters :=
         if Js.includes (text entry) q then matchedChapters s ∪ {[chapter entry]}
         else matchedChapters s;
       loop_app :=
         set_item (element entry)
           (item_after q (Js.includes (text entry) q)
              (itemEls (page (loop_app s)) (element entry))) (loop_app s) |}.
Proof.
  intros Hl. unfold searchEntry. rewrite (highlightRegex_literal B q Hl).
  set (e := itemEls (page (loop_app s)) (element entry)).
  destruct (Js.includes (text entry) q).
  - rewrite orb_true_r. unfold item_after, classList_toggle. cbn [negb].
    destruct (Js.truthy_opt (originalContent e)) eqn:Et; cbn [negb].
    + rewrite (item_after_saved q e Et). unfold source_of. rewrite Et. reflexivity.
    + unfold source_of. rewrite Et, lookup_insert_eq. reflexivity.
  - rewrite orb_false_r. unfold item_after, classList_toggle, source_of. cbn [negb].
    destruct (Js.truthy_opt (originalContent e)); reflexivity.
Qed.

(** The whole loop over an index in which every item occurs once. *)
Lemma searchLoop_literal (B : Browser) (q : string) (index : list IndexEntry)
    (s : SearchLoop) :
  Js.literal_pattern q = true ->
  NoDup (map element index) ->
  exists s',
    forEach (searchEntry B q) index s = Normal s' /\
    hasResults s' = hasResults s || existsb (fun entry => Js.includes (text entry) q) index /\
    (forall c, c ∈ matchedChapters s' <->
               c ∈ matchedChapters s \/ chapter_matches q index c = true) /\
    (forall entry, In entry index ->
       itemEls (page (loop_app s')) (element entry) =
       item_after q (Js.includes (text entry) q)
         (itemEls (page (loop_app s)) (element entry))) /\
    (forall el, ~ In el (map element index) ->
       itemEls (page (loop_app s')) el = itemEls (page (loop_app s)) el).
Proof.
  intros Hl. revert s. induction index as [|entry r IH]; intros s Hnd.
  - exists s. simpl. rewrite orb_false_r.
    repeat split; auto; try tauto. intros [H|H]; [exact H | discriminate].
  - inversion Hnd as [|x l Hnotin Hnd']; subst.
    rewrite list_elem_of_In in Hnotin.
    simpl forEach. rewrite (searchEntry_literal B q entry s Hl).
    match goal with |- context [forEach _ r ?s1] =>
      destruct (IH s1 Hnd') as (s' & E & HR & HM & HI & HO)
    end.
    exists s'. split; [exact E|]. cbn [hasResults matchedChapters loop_app] in *.
    split; [|split; [|split]].
    + rewrite HR. simpl. rewrite orb_assoc. reflexivity.
    + intros c. rewrite HM. unfold chapter_matches. simpl.
      destruct (Js.includes (text entry) q).
      * destruct (Nat.eqb_spec (chapter entry) c); simpl; rewrite ?orb_true_iff;
          set_solver.
      * rewrite andb_false_r. simpl. tauto.
    + intros entry' [<-|Hin].
      * rewrite (HO _ Hnotin). simpl. apply fn_lookup_insert.
      * rewrite (HI _ Hin). simpl. rewrite fn_lookup_insert_ne; [reflexivity|].
        intros Heq. apply Hnotin. rewrite Heq. apply in_map. exact Hin.
    + intros el Hel. simpl in Hel. rewrite HO by tauto.
      simpl. rewrite fn_lookup_insert_ne; [reflexivity|]. tauto.
Qed.

Lemma expand_hidden (c : Chapter) (a : App) (x : nat) :
  "hidden" ∈ chapterClass (page (toggleChapter c (Some true) a)) x <->
  "hidden" ∈ chapterClass (page a) x.
Proof.
  unfold toggleChapter. destruct (ch_content c) as [el|]; [|tauto].
  unfold classList_toggle.
  destruct (0 <? length (chapter_subsections c))%nat; simpl;
    (destruct (decide (ch_el c = x)) as [->|Hne];
     [rewrite !fn_lookup_insert | rewrite !fn_lookup_insert_ne by exact Hne; tauto]);
    rewrite ?elem_of_union, ?elem_of_difference, ?elem_of_singleton;
    intuition discriminate.
Qed.

Lemma showChapter_hidden (q : string) (matched : gset nat) (a : App) (c : Chapter)
    (x : nat) :
  "hidden" ∈ chapterClass (page (showChapter q matched a c)) x <->
  if decide (ch_el c = x) then x ∉ matched
  else "hidden" ∈ chapterClass (page a) x.
Proof.
  unfold showChapter.
  set (a1 := on_page _ a).
  assert (H1 : "hidden" ∈ chapterClass (page a1) x <->
               if decide (ch_el c = x) then x ∉ matched
               else "hidden" ∈ chapterClass (page a) x).
  { subst a1. simpl. unfold classList_toggle.
    destruct (decide (ch_el c = x)) as [->|Hne].
    - rewrite fn_lookup_insert.
      destruct (bool_decide (x ∈ matched)) eqn:Em; simpl.
      + apply bool_decide_eq_true_1 in Em. set_solver.
      + apply bool_decide_eq_false_1 in Em. set_solver.
    - rewrite fn_lookup_insert_ne by exact Hne. tauto. }
  destruct (bool_decide (ch_el c ∈ matched) && Js.truthy q).
  - rewrite expand_hidden. exact H1.
  - exact H1.
Qed.

Lemma showChapters_hidden (q : string) (matched : gset nat) (l : list Chapter)
    (a : App) (c : Chapter) :
  In c l ->
  ("hidden" ∈ chapterClass (page (fold_left (showChapter q matched) l a)) (ch_el c)
   <-> ch_el c ∉ matched).
Proof.
  intros Hin.
  assert (Hkeep : forall l a,
            ("hidden" ∈ chapterClass (page a) (ch_el c) <-> ch_el c ∉ matched) ->
            ("hidden" ∈ chapterClass (page (fold_left (showChapter q matched) l a)) (ch_el c)
             <-> ch_el c ∉ matched)).
  { intros l0. induction l0 as [|d r IH]; intros a0 H0; simpl; [exact H0|].
    apply IH. rewrite showChapter_hidden.
    destruct (decide (ch_el d = ch_el c)); tauto. }
  revert a. induction l as [|d r IH]; intros a; [contradiction|].
  simpl. destruct Hin as [->|Hin]; [|apply IH, Hin].
  apply Hkeep. rewrite showChapter_hidden.
  destruct (decide (ch_el c = ch_el c)); tauto.
Qed.

Lemma truthy_nonempty (q : string) : q <> "" -> Js.truthy q = true.
Proof. destruct q; [contradiction | reflexivity]. Qed.

(** What the search does for a query without regular-expression syntax
    characters (the part of C6 that the code meets): an indexed item is
    hidden exactly when the lowercased and trimmed query is not a substring
    of its indexed text; the HTML of a matching item is its saved source
    with the occurrences of the query in that source wrapped in the
    highlight mark; a chapter is hidden exactly when none of its indexed
    items matches; the no-results message is shown exactly when no item
    matches. *)
Theorem search_filters_by_substring (B : Browser) (value : string) (a : App)
    (index : list IndexEntry) :
  let query := Js.trim (Js.toLowerCase value) in
  query <> "" ->
  Js.literal_pattern query = true ->
  searchIndex (st a) = Some index ->
  NoDup (map element index) ->
  exists a',
    handleSearch B value a = Normal a' /\
    (forall entry, In entry index ->
       ("hidden" ∈ it_classList (itemEls (page a') (element entry)) <->
        Js.includes (text entry) query = false) /\
       (Js.includes (text entry) query = true ->
        wraps_occurrences query (source_of (itemEls (page a) (element entry)))
          (innerHTML (itemEls (page a') (element entry))) /\
        originalContent (itemEls (page a') (element entry)) =
          Some (source_of (itemEls (page a) (element entry))))) /\
    (forall c, In c (doc_chapters (body (page a))) ->
       ("hidden" ∈ chapterClass (page a') (ch_el c) <->
        chapter_matches query index (ch_el c) = false)) /\
    (noResultsMessage (ui a) <> None ->
     noResultsMessage (ui a') =
       Some (existsb (fun entry => Js.includes (text entry) query) index)).
Proof.
  cbv zeta. set (query := Js.trim (Js.toLowerCase value)).
  intros Hq Hl Hidx Hnd.
  unfold handleSearch. fold query.
  rewrite (truthy_nonempty query Hq), Hidx. cbn [negb].
  set (start := {| hasResults := false; matchedChapters := ∅; loop_app := a |}).
  destruct (searchLoop_literal B query index start Hl Hnd)
    as (s' & E & HR & HM & HI & _).
  pose proof (searchLoop_frame B query index start) as Hf.
  rewrite E in *. cbv zeta in Hf. cbn [completed loop_app start] in Hf, HI.
  destruct Hf as (_ & _ & U1 & B1 & _).
  destruct (showChapters_frame query (matchedChapters s')
              (doc_chapters (body (page (loop_app s')))) (loop_app s'))
    as (_ & _ & U2 & _ & I2).
  eexists. split; [reflexivity|].
  cbn [page ui on_ui]. split; [|split].
  - intros entry Hin. rewrite I2, (HI entry Hin).
    destruct (Js.includes (text entry) query); unfold item_after; cbn.
    + split; [set_solver|]. intros _. split.
      * apply replace_literal_wraps, Hq.
      * unfold originalContent. cbn. apply lookup_insert_eq.
    + split; [set_solver | discriminate].
  - intros c Hin. rewrite B1. rewrite (showChapters_hidden query _ _ _ c Hin).
    rewrite HM. cbn [matchedChapters start].
    destruct (chapter_matches query index (ch_el c)); set_solver.
  - intros Hn. rewrite U2, U1.
    destruct (noResultsMessage (ui a)) as [n|]; [|contradiction].
    cbn. rewrite HR. cbn [hasResults start]. rewrite orb_false_r. reflexivity.
Qed.

Lemma search_filters_by_substring_witness :
  exists a',
    handleSearch Sample.browser "  A T " Sample.app1 = Normal a' /\
    innerHTML (itemEls (page a') 1) =
      ("<b>v</b> = " ++ Js.mark_open ++ "a t" ++ Js.mark_close ++ " (uniform)")%string /\
    "hidden" ∈ it_classList (itemEls (page a') 2) /\
    noResultsMessage (ui a') = Some true.
Proof.
  assert (Hnd : NoDup (map element Sample.index)).
  { vm_compute. repeat constructor; set_solver. }
  destruct (search_filters_by_substring Sample.browser "  A T " Sample.app1
              Sample.index ltac:(vm_compute; discriminate) eq_refl eq_refl Hnd)
    as (a' & E & _ & _ & N).
  exists a'. split; [exact E|].
  assert (Ea : a' = completed (handleSearch Sample.browser "  A T " Sample.app1))
    by (rewrite E; reflexivity).
  rewrite Ea.
  split; [vm_compute; reflexivity|].
  split; [apply (bool_decide_unpack _); vm_compute; exact I|].
  vm_compute. reflexivity.
Defined.

(** Matching reads the text of an item and highlighting rewrites its HTML:
    here the query is a substring of the text of the first item, but in
    its HTML a tag separates the two words, and the search leaves the item
    without a mark. *)
Lemma occurrence_across_tags_not_marked :
  ~ matches_are_marked "v =" Sample.index
      (completed (handleSearch Sample.browser "v =" Sample.app1)).
Proof.
  intros H.
  specialize (H (entry_of Sample.browser (page Sample.app1) Sample.kinematics
                   Sample.item1)).
  assert (H1 : Js.includes
            (innerHTML (itemEls (page (completed
               (handleSearch Sample.browser "v =" Sample.app1))) 1)) Js.mark_open = true).
  { apply H; [left; reflexivity | vm_compute; reflexivity]. }
  vm_compute in H1. discriminate H1.
Qed.

(** C6 fails on the code for a query with regular-expression syntax: the
    query is put into the pattern unescaped, so for a lone opening
    parenthesis the RegExp constructor throws at the first matching item;
    the second item does not hold the query and yet stays visible, and so
    does its chapter, none of whose items matches. *)
Example unbalanced_parenthesis_aborts_search :
  exists a',
    handleSearch Sample.browser "(" Sample.app1 = Throw "SyntaxError" a' /\
    Js.includes (text (entry_of Sample.browser (page Sample.app1) Sample.dynamics
                         Sample.item2)) "(" = false /\
    "hidden" ∉ it_classList (itemEls (page a') 2) /\
    chapter_matches "(" Sample.index (ch_el Sample.dynamics) = false /\
    "hidden" ∉ chapterClass (page a') (ch_el Sample.dynamics).
Proof.
  eexists. split; [vm_compute; reflexivity|].
  split; [vm_compute; reflexivity|].
  split; [|split; [vm_compute; reflexivity|]];
    intros H; apply (bool_decide_pack _) in H; vm_compute in H; exact H.
Qed.

(** ** Clearing the search *)

Lemma forEach_inv_In {A S : Type} (P : S -> Prop) (f : A -> S -> Completion S)
    (l : list A) (s : S) :
  (forall x s, In x l -> P s -> P (completed (f x s))) -> P s ->
  P (completed (forEach f l s)).
Proof.
  revert s. induction l as [|x l IH]; intros s Hf Hs; simpl; [exact Hs|].
  pose proof (Hf x s (or_introl eq_refl) Hs) as H1.
  destruct (f x s) as [s'|m s']; simpl in *; [|exact H1].
  apply IH; [|exact H1]. intros y t Hy. apply Hf. right. exact Hy.
Qed.

Lemma truthy_opt_Some (x : string) : x <> "" -> Js.truthy_opt (Some x) = true.
Proof. intros H. simpl. apply truthy_nonempty, H. Qed.

Lemma match_has_source (B : Browser) (h0 : nat -> string) (q : string)
    (entry : IndexEntry) :
  textContent B "" = "" -> q <> "" -> entry_current B h0 entry ->
  Js.includes (text entry) q = true -> h0 (element entry) <> "".
Proof.
  intros Ht Hq Hc Hi Hz. unfold entry_current in Hc.
  rewrite Hz, Ht in Hc. simpl in Hc.
  apply (includes_nonempty _ _ Hq Hi). exact Hc.
Qed.

Lemma searchEntry_keeps (B : Browser) (h0 : nat -> string) (q : string)
    (entry : IndexEntry) (s : SearchLoop) (e : nat) :
  textContent B "" = "" -> q <> "" -> entry_current B h0 entry ->
  saved_or_pristine h0 (itemEls (page (loop_app s))) e ->
  saved_or_pristine h0
    (itemEls (page (loop_app (completed (searchEntry B q entry s))))) e.
Proof.
  intros Ht Hq Hc H.
  destruct (decide (element entry = e)) as [He|He].
  2:{ unfold searchEntry.
      destruct (Js.includes (text entry) q);
        [destruct (highlightRegex B q) | destruct (Js.truthy_opt _)];
        unfold saved_or_pristine in *; simpl;
        rewrite fn_lookup_insert_ne by exact He; exact H. }
  subst e. unfold searchEntry.
  set (el := itemEls (page (loop_app s)) (element entry)) in *.
  unfold saved_or_pristine in H. fold el in H.
  destruct (Js.includes (text entry) q) eqn:Em.
  - pose proof (match_has_source B h0 q entry Ht Hq Hc Em) as Hne.
    destruct H as [(Ho & Hh) | (Ho & _)].
    + rewrite Ho. cbn [Js.truthy_opt negb].
      destruct (highlightRegex B q); unfold saved_or_pristine; simpl;
        rewrite fn_lookup_insert; right; unfold originalContent; simpl;
        rewrite lookup_insert_eq, Hh; auto.
    + rewrite Ho, (truthy_opt_Some _ Hne). cbn [negb].
      destruct (highlightRegex B q); unfold saved_or_pristine; simpl;
        rewrite fn_lookup_insert; right; unfold originalContent in *; simpl; auto.
  - destruct H as [(Ho & Hh) | (Ho & Hne)].
    + rewrite Ho. cbn [Js.truthy_opt]. unfold saved_or_pristine; simpl.
      rewrite fn_lookup_insert. left. unfold originalContent in *; simpl. auto.
    + rewrite Ho, (truthy_opt_Some _ Hne). unfold saved_or_pristine; simpl.
      rewrite fn_lookup_insert. right. unfold originalContent in *; simpl. auto.
Qed.

Lemma clearItem_at (h0 : nat -> string) (a : App) (item : ItemNode) :
  saved_or_pristine h0 (itemEls (page a)) (it_el item) ->
  cleared h0 (itemEls (page (clearItem a item))) (it_el item).
Proof.
  intros H. unfold clearItem, cleared.
  destruct H as [(Ho & Hh) | (Ho & Hne)].
  - rewrite Ho. cbn [Js.truthy_opt]. simpl. rewrite fn_lookup_insert.
    unfold originalContent in *; simpl. repeat split; auto. set_solver.
  - rewrite Ho, (truthy_opt_Some _ Hne). simpl. rewrite fn_lookup_insert.
    unfold originalContent; simpl. rewrite lookup_delete_eq.
    repeat split; auto. set_solver.
Qed.

Lemma clearItem_other (a : App) (item : ItemNode) (e : nat) :
  it_el item <> e ->
  itemEls (page (clearItem a item)) e = itemEls (page a) e.
Proof.
  intros H. unfold clearItem. destruct (Js.truthy_opt _); simpl;
    apply fn_lookup_insert_ne; exact H.
Qed.

Lemma cleared_pristine (h0 : nat -> string) (els : nat -> ItemEl) (e : nat) :
  cleared h0 els e -> saved_or_pristine h0 els e.
Proof. intros (H1 & H2 & _). left. auto. Qed.

Lemma clearItem_keeps_cleared (h0 : nat -> string) (a : App) (item : ItemNode)
    (e : nat) :
  cleared h0 (itemEls (page a)) e ->
  cleared h0 (itemEls (page (clearItem a item))) e.
Proof.
  intros H. destruct (decide (it_el item = e)) as [<-|Hne].
  - apply clearItem_at, cleared_pristine, H.
  - unfold cleared. rewrite (clearItem_other a item e Hne). exact H.
Qed.

Lemma clearItem_keeps (h0 : nat -> string) (a : App) (item : ItemNode) (e : nat) :
  saved_or_pristine h0 (itemEls (page a)) e ->
  saved_or_pristine h0 (itemEls (page (clearItem a item))) e.
Proof.
  intros H. destruct (decide (it_el item = e)) as [<-|Hne].
  - apply cleared_pristine, clearItem_at, H.
  - unfold saved_or_pristine. rewrite (clearItem_other a item e Hne). exact H.
Qed.

Lemma clearItems_keep (h0 : nat -> string) (l : list ItemNode) (a : App) (e : nat) :
  saved_or_pristine h0 (itemEls (page a)) e ->
  saved_or_pristine h0 (itemEls (page (fold_left clearItem l a))) e.
Proof.
  intros H.
  apply (fold_left_inv (fun a' => saved_or_pristine h0 (itemEls (page a')) e)).
  - intros s x Hs. apply clearItem_keeps, Hs.
  - exact H.
Qed.

Lemma clearItems_clear (h0 : nat -> string) (l : list ItemNode) (a : App)
    (item : ItemNode) :
  In item l ->
  (forall i, In i l -> saved_or_pristine h0 (itemEls (page a)) (it_el i)) ->
  cleared h0 (itemEls (page (fold_left clearItem l a))) (it_el item).
Proof.
  revert a. induction l as [|d r IH]; intros a Hin H; [contradiction|].
  simpl. destruct Hin as [->|Hin].
  - apply (fold_left_inv (fun a' => cleared h0 (itemEls (page a')) (it_el item))).
    + intros s x Hs. apply clearItem_keeps_cleared, Hs.
    + apply clearItem_at, H. left. reflexivity.
  - apply IH; [exact Hin|]. intros i Hi. apply clearItem_keeps, H. right. exact Hi.
Qed.

Lemma unhideChapters_unhide (l : list Chapter) (a : App) (c : Chapter) :
  In c l -> "hidden" ∉ chapterClass (page (fold_left unhideChapter l a)) (ch_el c).
Proof.
  intros Hin.
  assert (Hkeep : forall l a, "hidden" ∉ chapterClass (page a) (ch_el c) ->
            "hidden" ∉ chapterClass (page (fold_left unhideChapter l a)) (ch_el c)).
  { intros l0 a0. apply (fold_left_inv (fun a' =>
      "hidden" ∉ chapterClass (page a') (ch_el c))).
    intros s d Hs. simpl. destruct (decide (ch_el d = ch_el c)) as [E|E].
    - rewrite E, fn_lookup_insert. set_solver.
    - rewrite fn_lookup_insert_ne by exact E. exact Hs. }
  revert a. induction l as [|d r IH]; intros a; [contradiction|].
  simpl. destruct Hin as [->|Hin]; [|apply IH, Hin].
  apply Hkeep. simpl. rewrite fn_lookup_insert. set_solver.
Qed.

Lemma clearSearch_unfold (a : App) :
  exists a2,
    page a2 = page a /\ noResultsMessage (ui a2) = noResultsMessage (ui a) /\
    clearSearch a =
    on_ui (fun u => match noResultsMessage u with
                    | Some _ => set_noResultsMessage (Some true) u
                    | None => u
                    end)
      (fold_left unhideChapter
         (doc_chapters (body (page (fold_left clearItem (doc_items (body (page a2))) a2))))
         (fold_left clearItem (doc_items (body (page a2))) a2)).
Proof.
  eexists. split; [|split; [|reflexivity]].
  - reflexivity.
  - simpl. destruct (searchInput (ui a)); simpl; destruct (clearButton (ui a));
      reflexivity.
Qed.

Lemma clearSearch_result (h0 : nat -> string) (a : App) :
  (forall i, In i (doc_items (body (page a))) ->
             saved_or_pristine h0 (itemEls (page a)) (it_el i)) ->
  (forall i, In i (doc_items (body (page a))) ->
             cleared h0 (itemEls (page (clearSearch a))) (it_el i)) /\
  (forall c, In c (doc_chapters (body (page a))) ->
             "hidden" ∉ chapterClass (page (clearSearch a)) (ch_el c)) /\
  (noResultsMessage (ui a) <> None -> noResultsMessage (ui (clearSearch a)) = Some true).
Proof.
  intros H. destruct (clearSearch_unfold a) as (a2 & P2 & N2 & ->).
  cbn [page ui on_ui].
  set (a3 := fold_left clearItem (doc_items (body (page a2))) a2).
  destruct (clearItems_frame (doc_items (body (page a2))) a2) as (_ & _ & U3 & B3 & _).
  destruct (unhideChapters_frame (doc_chapters (body (page a3))) a3)
    as (_ & _ & U4 & _ & I4).
  fold a3 in U3, B3. rewrite P2 in *.
  split; [|split].
  - intros i Hi. rewrite I4. subst a3. rewrite P2.
    apply clearItems_clear; [exact Hi|]. rewrite P2. exact H.
  - intros c Hc. apply unhideChapters_unhide. rewrite B3. exact Hc.
  - intros Hn. rewrite U4, U3, N2.
    destruct (noResultsMessage (ui a)); [reflexivity | contradiction].
Qed.

Lemma clearSearch_keeps (h0 : nat -> string) (a : App) (e : nat) :
  saved_or_pristine h0 (itemEls (page a)) e ->
  saved_or_pristine h0 (itemEls (page (clearSearch a))) e.
Proof.
  intros H. destruct (clearSearch_unfold a) as (a2 & P2 & _ & ->).
  cbn [page on_ui].
  match goal with |- context [fold_left unhideChapter ?l ?x] =>
    destruct (unhideChapters_frame l x) as (_ & _ & _ & _ & I4)
  end.
  rewrite I4. apply clearItems_keep. rewrite P2. exact H.
Qed.

Lemma clearSearch_noResults (a : App) :
  noResultsMessage (ui a) <> None -> noResultsMessage (ui (clearSearch a)) <> None.
Proof.
  intros H. destruct (clearSearch_unfold a) as (a2 & P2 & N2 & ->).
  cbn [ui on_ui].
  match goal with |- context [fold_left unhideChapter ?l ?x] =>
    destruct (unhideChapters_frame l x) as (_ & _ & U4 & _)
  end.
  rewrite U4.
  match goal with |- context [fold_left clearItem ?l ?x] =>
    destruct (clearItems_frame l x) as (_ & _ & U3 & _)
  end.
  rewrite U3, N2. destruct (noResultsMessage (ui a)); [discriminate | contradiction].
Qed.

Lemma handleSearch_keeps (B : Browser) (h0 : nat -> string) (value : string)
    (a : App) (e : nat) :
  textContent B "" = "" ->
  (forall index entry, searchIndex (st a) = Some index -> In entry index ->
                       entry_current B h0 entry) ->
  saved_or_pristine h0 (itemEls (page a)) e ->
  saved_or_pristine h0 (itemEls (page (completed (handleSearch B value a)))) e.
Proof.
  intros Ht Hidx H. unfold handleSearch.
  set (query := Js.trim (Js.toLowerCase value)).
  destruct (Js.truthy query) eqn:Eq; cbn [negb].
  2:{ apply clearSearch_keeps, H. }
  assert (Hq : query <> "") by (intros Hz; rewrite Hz in Eq; discriminate).
  set (start := {| hasResults := false; matchedChapters := ∅; loop_app := a |}).
  assert (Hs : saved_or_pristine h0 (itemEls (page (loop_app (completed
                 match searchIndex (st a) with
                 | Some index => forEach (searchEntry B query) index start
                 | None => Normal start
                 end)))) e).
  { destruct (searchIndex (st a)) as [index|] eqn:Ei; [|exact H].
    apply (forEach_inv_In (fun s => saved_or_pristine h0 (itemEls (page (loop_app s))) e));
      [|exact H].
    intros x s Hx Hs. apply searchEntry_keeps; auto. exact (Hidx index x eq_refl Hx). }
  destruct (match searchIndex (st a) with Some _ => _ | None => _ end) as [s|m s];
    cbn [completed] in Hs |- *; [|exact Hs].
  cbn [page on_ui].
  match goal with |- context [fold_left (showChapter ?q ?m) ?l ?x] =>
    destruct (showChapters_frame q m l x) as (_ & _ & _ & _ & I2)
  end.
  rewrite I2. exact Hs.
Qed.

Lemma handleSearch_noResults (B : Browser) (value : string) (a : App) :
  noResultsMessage (ui a) <> None ->
  noResultsMessage (ui (completed (handleSearch B value a))) <> None.
Proof.
  intros H. unfold handleSearch.
  set (query := Js.trim (Js.toLowerCase value)).
  destruct (negb (Js.truthy query)); [apply clearSearch_noResults, H|].
  set (start := {| hasResults := false; matchedChapters := ∅; loop_app := a |}).
  assert (Hs : ui (loop_app (completed
                 match searchIndex (st a) with
                 | Some index => forEach (searchEntry B query) index start
                 | None => Normal start
                 end)) = ui a).
  { destruct (searchIndex (st a)) as [index|]; [|reflexivity].
    apply (searchLoop_frame B query index start). }
  destruct (match searchIndex (st a) with Some _ => _ | None => _ end) as [s|m s];
    cbn [completed] in Hs |- *; [|rewrite Hs; exact H].
  cbn [ui on_ui].
  match goal with |- context [fold_left (showChapter ?q ?m) ?l ?x] =>
    destruct (showChapters_frame q m l x) as (_ & _ & U2 & _)
  end.
  rewrite U2, Hs. destruct (noResultsMessage (ui a)); [discriminate | contradiction].
Qed.

(** What a run of searches keeps. *)
Lemma searches_keep (B : Browser) (h0 : nat -> string) (values : list string)
    (a : App) :
  textContent B "" = "" ->
  (forall index entry, searchIndex (st a) = Some index -> In entry index ->
                       entry_current B h0 entry) ->
  let a' := searches B values a in
  st a' = st a /\ body (page a') = body (page a) /\
  (forall e, saved_or_pristine h0 (itemEls (page a)) e ->
             saved_or_pristine h0 (itemEls (page a')) e) /\
  (noResultsMessage (ui a) <> None -> noResultsMessage (ui a') <> None).
Proof.
  intros Ht Hidx. cbv zeta. unfold searches.
  apply (fold_left_inv (fun a' =>
    st a' = st a /\ body (page a') = body (page a) /\
    (forall e, saved_or_pristine h0 (itemEls (page a)) e ->
               saved_or_pristine h0 (itemEls (page a')) e) /\
    (noResultsMessage (ui a) <> None -> noResultsMessage (ui a') <> None))).
  - intros s v (S1 & B1 & J1 & N1).
    destruct (handleSearch_frame B v s) as (S2 & _ & B2).
    rewrite S2, B2. repeat split; auto.
    + intros e He. apply handleSearch_keeps; auto. rewrite S1. exact Hidx.
    + intros Hn. apply handleSearch_noResults; auto.
  - auto.
Qed.

(** C9: on a page whose items carry no saved copy and whose index, if
    built, is the index of that page, clearSearch after any run of
    searches gives every formula item its content of before the searches,
    deletes the saved copies, removes the hidden class from every formula
    item and every chapter, and hides the no-results message. *)
Theorem clear_search_restores (B : Browser) (values : list string) (a : App) :
  textContent B "" = "" ->
  (forall item, In item (doc_items (body (page a))) ->
                originalContent (itemEls (page a) (it_el item)) = None) ->
  (searchIndex (st a) = None \/ searchIndex (st a) = Some (flat_index B (page a))) ->
  let a' := clearSearch (searches B values a) in
  (forall item, In item (doc_items (body (page a))) ->
     innerHTML (itemEls (page a') (it_el item)) = innerHTML (itemEls (page a) (it_el item)) /\
     originalContent (itemEls (page a') (it_el item)) = None /\
     "hidden" ∉ it_classList (itemEls (page a') (it_el item))) /\
  (forall c, In c (doc_chapters (body (page a))) ->
     "hidden" ∉ chapterClass (page a') (ch_el c)) /\
  (noResultsMessage (ui a) <> None -> noResultsMessage (ui a') = Some true).
Proof.
  intros Ht Hfresh Hidx. cbv zeta.
  set (h0 := fun e => innerHTML (itemEls (page a) e)).
  assert (Hcur : forall index entry, searchIndex (st a) = Some index ->
                   In entry index -> entry_current B h0 entry).
  { intros index entry Hi Hin. destruct Hidx as [Hn|Hs]; [congruence|].
    rewrite Hs in Hi. injection Hi as <-.
    destruct (flat_index_entries B (page a) entry Hin) as (c & item & _ & _ & ->).
    reflexivity. }
  destruct (searches_keep B h0 values a Ht Hcur) as (_ & B1 & J1 & N1).
  destruct (clearSearch_result h0 (searches B values a)) as (R1 & R2 & R3).
  { rewrite B1. intros i Hi. apply J1. left. split; [apply Hfresh, Hi | reflexivity]. }
  rewrite B1 in R1, R2.
  split; [|split].
  - intros item Hi. destruct (R1 item Hi) as (C1 & C2 & C3). repeat split; auto.
  - exact R2.
  - intros Hn. apply R3, N1, Hn.
Qed.

Lemma clear_search_restores_witness :
  let a' := clearSearch (searches Sample.browser ["a t"; "("; "F ="] Sample.app1) in
  innerHTML (itemEls (page a') 1) = "<b>v</b> = a t (uniform)" /\
  originalContent (itemEls (page a') 1) = None /\
  noResultsMessage (ui a') = Some true.
Proof.
  destruct (clear_search_restores Sample.browser ["a t"; "("; "F ="] Sample.app1)
    as (H1 & _ & H3).
  - reflexivity.
  - intros item [<-|[<-|[]]]; vm_compute; reflexivity.
  - right. vm_compute. reflexivity.
  - destruct (H1 Sample.item1 (or_introl eq_refl)) as (E1 & E2 & _).
    cbv zeta. split; [|split].
    + etransitivity; [exact E1 | vm_compute; reflexivity].
    + exact E2.
    + apply H3. vm_compute. discriminate.
Defined.

(** * Further properties of the engine *)

(** ** Reloading *)

Lemma getCached_hit (now : Z) (s : STATE) (entry : CacheEntry) :
  chapterCache s !! "chapters" = Some entry ->
  (now - timestamp entry <= CACHE_DURATION)%Z ->
  getCachedChapters now s = (Some (content entry), s).
Proof.
  intros He Hw. unfold getCachedChapters. rewrite He.
  destruct (Z.ltb_spec CACHE_DURATION (now - timestamp entry)); [lia | reflexivity].
Qed.

Lemma before_init_hit (env : LoadEnv) (a : App) (entry : CacheEntry) :
  chapterCache (st a) !! "chapters" = Some entry ->
  Js.truthy (content entry) = true ->
  (now_lookup env - timestamp entry <= CACHE_DURATION)%Z ->
  before_init env a = inject env (content entry) (on_st (set_isLoading true) a).
Proof.
  intros He Ht Hw. unfold before_init.
  rewrite (getCached_hit (now_lookup env) (st (on_st (set_isLoading true) a)) entry)
    by (simpl; assumption).
  simpl Js.truthy_opt. rewrite Ht. simpl.
  destruct a as [s p u f]; destruct s; reflexivity.
Qed.

Lemma loadChapters_hit (B : Browser) (env : LoadEnv) (a : App)
    (c : Container) (entry : CacheEntry) :
  container (ui a) = Some c ->
  chapterCache (st a) !! "chapters" = Some entry ->
  Js.truthy (content entry) = true ->
  (now_lookup env - timestamp entry <= CACHE_DURATION)%Z ->
  let a' := loadChapters B env a in
  fetched (fx a') = fetched (fx a) /\
  option_map c_innerHTML (container (ui a')) = Some (content entry) /\
  page a' = page (completed (onChaptersLoaded B env
                    (inject env (content entry) (on_st (set_isLoading true) a)))) /\
  chapterCache (st a') = chapterCache (st a) /\
  loadedChapters (st a') = loadedChapters (st a).
Proof.
  intros Hc He Ht Hw. cbv zeta. rewrite (loadChapters_unfold B env a c Hc).
  rewrite (before_init_hit env a entry He Ht Hw).
  set (a1 := inject env (content entry) (on_st (set_isLoading true) a)).
  destruct (inject_ui env (content entry) (on_st (set_isLoading true) a) c Hc)
    as (C1 & _ & _ & _ & S1 & F1).
  fold a1 in C1, S1, F1.
  pose proof (onChaptersLoaded_frame B env a1) as Hf. cbv zeta in Hf.
  destruct (onChaptersLoaded B env a1) as [a2|m a2];
    cbn [completed] in Hf |- *; destruct Hf as (U & F & _ & K & L & _);
    cbn [st fx ui page on_st set_isLoading chapterCache loadedChapters].
  - destruct (fadeOut_frame a2) as (S2 & P2 & F2 & C2 & _).
    rewrite S2, P2, F2, C2, U, F, K, L, C1, S1, F1. simpl. tauto.
  - destruct (showError_frame m a2) as (S2 & P2 & F2 & C2).
    rewrite S2, P2, F2, C2, U, F, K, L, C1, S1, F1. simpl. tauto.
Qed.

(** A load within the window of a non-empty cache entry does not touch the
    network: it injects the cached content and leaves the cache and the
    set of loaded chapters as they are. *)
Theorem reload_within_window_uses_cache (B : Browser) (env : LoadEnv) (a : App)
    (c : Container) (entry : CacheEntry) :
  container (ui a) = Some c ->
  chapterCache (st a) !! "chapters" = Some entry ->
  Js.truthy (content entry) = true ->
  (now_lookup env - timestamp entry <= CACHE_DURATION)%Z ->
  let a' := loadChapters B env a in
  fetched (fx a') = fetched (fx a) /\
  option_map c_innerHTML (container (ui a')) = Some (content entry) /\
  chapterCache (st a') = chapterCache (st a) /\
  loadedChapters (st a') = loadedChapters (st a).
Proof.
  intros Hc He Ht Hw.
  destruct (loadChapters_hit B env a c entry Hc He Ht Hw) as (F & C & _ & K & L).
  cbv zeta. auto.
Qed.

Lemma reload_within_window_uses_cache_witness :
  fetched (fx (loadChapters Sample.browser Demo.env_later Sample.app1))
    = fetched (fx Sample.app1) /\
  option_map c_innerHTML
    (container (ui (loadChapters Sample.browser Demo.env_later Sample.app1)))
    = option_map c_innerHTML (container (ui Sample.app1)).
Proof.
  destruct (reload_within_window_uses_cache Sample.browser Demo.env_later Sample.app1
              {| c_innerHTML := ("<div>K</div>" ++ failed_chapter "dynamics.html")%string;
                 c_hidden := false |}
              {| content := ("<div>K</div>" ++ failed_chapter "dynamics.html")%string;
                 timestamp := 1200 |})
    as (F & C & _).
  - vm_compute. reflexivity.
  - vm_compute. reflexivity.
  - reflexivity.
  - vm_compute. discriminate.
  - split; [exact F|]. rewrite C. vm_compute. reflexivity.
Defined.

Lemma join_cons (x : string) (l : list string) :
  Js.join (x :: l) = (x ++ Js.join l)%string.
Proof. reflexivity. Qed.

Lemma truthy_append_l (x y : string) : Js.truthy x = true -> Js.truthy (x ++ y) = true.
Proof. destruct x; [discriminate | reflexivity]. Qed.

Lemma truthy_append_r (x y : string) : Js.truthy y = true -> Js.truthy (x ++ y) = true.
Proof. destruct x; [rewrite append_nil; auto | reflexivity]. Qed.

Lemma truthy_join (l : list string) (x : string) :
  In x l -> Js.truthy x = true -> Js.truthy (Js.join l) = true.
Proof.
  induction l as [|y r IH]; [contradiction|].
  intros [->|Hin] Hx; rewrite join_cons.
  - apply truthy_append_l, Hx.
  - apply truthy_append_r, IH; assumption.
Qed.

Lemma failed_chapter_truthy (file : string) : Js.truthy (failed_chapter file) = true.
Proof. reflexivity. Qed.

Lemma loadChapters_miss_state (B : Browser) (env : LoadEnv) (a : App) (c : Container) :
  container (ui a) = Some c ->
  cache_miss (now_lookup env) (st a) ->
  let a' := loadChapters B env a in
  is_Some (container (ui a')) /\
  chapterCache (st a') !! "chapters" =
    Some {| content := Js.join (map (file_result env) CHAPTERS_TO_LOAD);
            timestamp := now_store env |} /\
  fetched (fx a') = (fetched (fx a) ++ map chapter_url CHAPTERS_TO_LOAD)%list.
Proof.
  intros Hc Hmiss. cbv zeta. split.
  { apply loadChapters_keeps_container. rewrite Hc. eauto. }
  rewrite (loadChapters_miss B env a c Hc Hmiss).
  destruct (fetched_and_injected_spec env a c Hc) as (_ & _ & _ & _ & F & _ & _ & K).
  pose proof (onChaptersLoaded_frame B env (fetched_and_injected env a)) as Hf.
  cbv zeta in Hf.
  destruct (onChaptersLoaded B env (fetched_and_injected env a)) as [a1|m a1];
    cbn [completed] in Hf; destruct Hf as (_ & F' & _ & K' & _);
    cbn [st fx on_st set_isLoading chapterCache].
  - destruct (fadeOut_frame a1) as (S1 & _ & X1 & _). rewrite X1, S1, F', K', F, K. auto.
  - destruct (showError_frame m a1) as (S1 & _ & X1 & _). rewrite X1, S1, F', K', F, K. auto.
Qed.

(** The placeholder of a failed file is cached with the rest: when a load
    that missed the cache could not fetch one of the files, a second load
    within the window of that cache entry fetches nothing, and shows the
    same content, placeholder included. *)
Theorem failed_fragment_is_cached (B : Browser) (env env' : LoadEnv) (a : App)
    (c : Container) (file : string) :
  container (ui a) = Some c ->
  cache_miss (now_lookup env) (st a) ->
  In file CHAPTERS_TO_LOAD ->
  fetched_html env file = None ->
  (now_lookup env' - now_store env <= CACHE_DURATION)%Z ->
  let first := loadChapters B env a in
  let second := loadChapters B env' first in
  fetched (fx second) = fetched (fx first) /\
  option_map c_innerHTML (container (ui second)) =
    Some (Js.join (map (file_result env) CHAPTERS_TO_LOAD)).
Proof.
  intros Hc Hmiss Hin Hfail Hw. cbv zeta.
  destruct (loadChapters_miss_state B env a c Hc Hmiss) as ((c1 & Hc1) & K & _).
  assert (Ht : Js.truthy (Js.join (map (file_result env) CHAPTERS_TO_LOAD)) = true).
  { apply (truthy_join _ (file_result env file)).
    - apply in_map, Hin.
    - unfold file_result. rewrite Hfail. apply failed_chapter_truthy. }
  destruct (loadChapters_hit B env' (loadChapters B env a) c1 _ Hc1 K Ht Hw)
    as (F & C & _).
  split; [exact F | exact C].
Qed.

Lemma failed_fragment_is_cached_witness :
  fetched (fx (loadChapters Sample.browser Demo.env_later Sample.app1))
    = ["chapters/kinematics.html"; "chapters/dynamics.html"].
Proof.
  destruct (failed_fragment_is_cached Sample.browser Sample.env1 Demo.env_later
              Sample.app0 {| c_innerHTML := ""; c_hidden := false |} "dynamics.html")
    as (F & _).
  - reflexivity.
  - reflexivity.
  - right. left. reflexivity.
  - reflexivity.
  - vm_compute. discriminate.
  - etransitivity; [exact F | vm_compute; reflexivity].
Defined.

(** ** What a session can do to the network and to the loaded set *)

Lemma getCached_loaded (now : Z) (s : STATE) :
  loadedChapters (snd (getCachedChapters now s)) = loadedChapters s.
Proof.
  unfold getCachedChapters. destruct (chapterCache s !! "chapters") as [e|]; [|reflexivity].
  destruct (CACHE_DURATION <? now - timestamp e)%Z; reflexivity.
Qed.

Lemma succeeded_subset (env : LoadEnv) (files : list string) :
  list_to_set (succeeded env files) ⊆@{gset string} list_to_set files.
Proof.
  unfold succeeded. intros x. rewrite !elem_of_list_to_set, !list_elem_of_In.
  rewrite List.filter_In. tauto.
Qed.

Lemma before_init_net (env : LoadEnv) (a : App) :
  (fetched (fx (before_init env a)) = fetched (fx a) \/
   fetched (fx (before_init env a)) =
     (fetched (fx a) ++ map chapter_url CHAPTERS_TO_LOAD)%list) /\
  loadedChapters (st a) ⊆ loadedChapters (st (before_init env a)) /\
  loadedChapters (st (before_init env a)) ⊆
    loadedChapters (st a) ∪ list_to_set CHAPTERS_TO_LOAD.
Proof.
  unfold before_init. remember CHAPTERS_TO_LOAD as files.
  pose proof (getCached_loaded (now_lookup env) (st (on_st (set_isLoading true) a))) as Hg.
  destruct (getCachedChapters _ _) as [cached s]. simpl in Hg.
  destruct (Js.truthy_opt cached).
  - destruct (inject_lazy env (default "" cached)
                (on_st (fun _ => s) (on_st (set_isLoading true) a))) as (S1 & F1).
    rewrite S1, F1. simpl. rewrite Hg. split; [auto | set_solver].
  - set (a1 := on_st _ (on_st (set_isLoading true) a)).
    pose proof (fetchAll_state env files a1) as Hs.
    destruct (fetchAll env files a1) as [hs a2]. simpl in Hs.
    destruct Hs as (F & L & _).
    cbn [st fx on_st cacheChapters set_chapterCache loadedChapters].
    destruct (inject_lazy env (Js.join hs) a2) as (S1 & F1).
    rewrite S1, F1, F, L. subst a1. simpl. rewrite Hg.
    pose proof (succeeded_subset env files).
    split; [auto | set_solver].
Qed.

(** One load, as the network and the loaded set see it. *)
Lemma loadChapters_net (B : Browser) (env : LoadEnv) (a : App) :
  (fetched (fx (loadChapters B env a)) = fetched (fx a) \/
   fetched (fx (loadChapters B env a)) =
     (fetched (fx a) ++ map chapter_url CHAPTERS_TO_LOAD)%list) /\
  loadedChapters (st a) ⊆ loadedChapters (st (loadChapters B env a)) /\
  loadedChapters (st (loadChapters B env a)) ⊆
    loadedChapters (st a) ∪ list_to_set CHAPTERS_TO_LOAD /\
  (isLoading (st a) = false -> isLoading (st (loadChapters B env a)) = false).
Proof.
  destruct (container (ui a)) as [c|] eqn:Hc.
  - rewrite (loadChapters_unfold B env a c Hc).
    destruct (before_init_net env a) as (F & L1 & L2).
    pose proof (onChaptersLoaded_frame B env (before_init env a)) as Hf.
    cbv zeta in Hf.
    destruct (onChaptersLoaded B env (before_init env a)) as [a1|m a1];
      cbn [completed] in Hf; destruct Hf as (_ & F' & _ & _ & L' & _);
      cbn [st fx on_st set_isLoading loadedChapters isLoading].
    + destruct (fadeOut_frame a1) as (S1 & _ & X1 & _). rewrite X1, S1, F', L'. auto.
    + destruct (showError_frame m a1) as (S1 & _ & X1 & _). rewrite X1, S1, F', L'. auto.
  - unfold loadChapters. rewrite Hc. split; [auto|]. split; [set_solver|].
    split; [set_solver | auto].
Qed.

Lemma quiet_refl (a : App) : quiet a a.
Proof. unfold quiet. tauto. Qed.

Lemma quiet_trans (a b c : App) : quiet a b -> quiet b c -> quiet a c.
Proof. unfold quiet. intros (H1 & H2 & H3 & H4) (G1 & G2 & G3 & G4). repeat split; congruence. Qed.

Lemma quiet_fold {A : Type} (f : App -> A -> App) (l : list A) (a : App) :
  (forall s x, quiet s (f s x)) -> quiet a (fold_left f l a).
Proof.
  intros Hf. apply (fold_left_inv (fun a' => quiet a a')).
  - intros s x Hs. exact (quiet_trans _ _ _ Hs (Hf s x)).
  - apply quiet_refl.
Qed.

Lemma quiet_same (a a' : App) : st a' = st a -> fx a' = fx a -> quiet a a'.
Proof. intros H1 H2. unfold quiet. rewrite H1, H2. tauto. Qed.

Lemma cleanupPlot_quiet (a : App) (p : PlotNode) : quiet a (cleanupPlot a p).
Proof.
  unfold cleanupPlot, quiet.
  destruct (activeCharts (st a) !! pl_plotId p); simpl;
    destruct (activeAnimations (st a) !! pl_plotId p); simpl; tauto.
Qed.

Lemma toggleChapter_quiet (c : Chapter) (f : option bool) (a : App) :
  quiet a (toggleChapter c f a).
Proof.
  unfold toggleChapter. destruct (ch_content c) as [el|]; [|apply quiet_refl].
  destruct (match f with Some b => b | None => _ end).
  - destruct (0 <? length (chapter_subsections c))%nat; apply quiet_same; reflexivity.
  - unfold cleanupChapterResources.
    eapply quiet_trans; [|apply quiet_fold; intros; apply cleanupPlot_quiet].
    apply quiet_same; reflexivity.
Qed.

Lemma handleEntry_quiet (a : App) (entry : IntersectionObserverEntry) :
  quiet a (completed (handleEntry entry a)).
Proof.
  unfold handleEntry, initializePlot.
  destruct (isIntersecting entry && _); [|apply quiet_refl].
  destruct (Js.truthy _); [|unfold quiet; simpl; tauto].
  destruct (PLOT_INITIALIZERS _) as [[[]| |]|]; unfold quiet, call_initializer; simpl;
    try tauto.
  destruct (pl_forceCanvas (target entry)); simpl; tauto.
Qed.

(** Only a load fetches, records a chapter, sets the loading flag or
    writes the cache. *)
Lemma step_quiet (B : Browser) (op : Op) (a : App) :
  loads op = false -> quiet a (step B op a).
Proof.
  destruct op; intros H; try discriminate H; cbn [step].
  - unfold handleIntersection.
    apply (forEach_inv (fun a' => quiet a a')); [|apply quiet_refl].
    intros e s Hs. exact (quiet_trans _ _ _ Hs (handleEntry_quiet s e)).
  - unfold kinematics_resume, quiet. destruct (pl_plotCanvas p); simpl; tauto.
  - apply toggleChapter_quiet.
  - destruct (toggleSubsection_frame s forceState a) as (S1 & F1 & _).
    apply quiet_same; assumption.
  - apply quiet_fold. intros; apply toggleChapter_quiet.
  - apply quiet_fold. intros; apply toggleChapter_quiet.
  - destruct (handleSearch_frame B value a) as (S1 & F1 & _). apply quiet_same; assumption.
  - destruct (clearSearch_frame a) as (S1 & F1 & _). apply quiet_same; assumption.
Qed.

Lemma net_view_refl (a : App) : net_view a a.
Proof. unfold net_view. split; [auto|]. split; set_solver. Qed.

Lemma net_view_trans (a b c : App) : net_view a b -> net_view b c -> net_view a c.
Proof.
  unfold net_view. intros (F1 & L1 & M1) (F2 & L2 & M2).
  split; [|split].
  - intros url H. destruct (F2 url H) as [H'|H']; [apply F1, H' | auto].
  - set_solver.
  - set_solver.
Qed.

Lemma net_view_quiet (a a' : App) : quiet a a' -> net_view a a'.
Proof.
  unfold quiet, net_view. intros (F & L & I & _). rewrite F, L.
  split; [auto|]. split; set_solver.
Qed.

Lemma loadChapters_view (B : Browser) (env : LoadEnv) (a : App) :
  net_view a (loadChapters B env a).
Proof.
  destruct (loadChapters_net B env a) as (F & L1 & L2 & I).
  unfold net_view. split; [|tauto].
  intros url H. destruct F as [F|F]; rewrite F in H; [auto|].
  apply in_app_or in H. tauto.
Qed.

Lemma start_view (B : Browser) (env : LoadEnv) (a : App) :
  net_view a (fst (loadChapters_start B env a)).
Proof.
  destruct (container (ui a)) as [c|] eqn:Hc.
  - destruct (start_cases B env a c Hc) as [(_ & ->) | (_ & ->)]; cbn [fst].
    + unfold net_view, requested. remember CHAPTERS_TO_LOAD as files.
      match goal with |- context [fold_left ?f files ?x] =>
        destruct (requests_frame files x) as (S1 & _ & _ & _ & F1)
      end.
      cbv zeta in S1, F1. rewrite S1, F1. cbn [st fx on_st].
      rewrite getCached_loaded. cbn [loadedChapters set_isLoading].
      split; [|split; set_solver].
      intros url H. apply in_app_or in H. tauto.
    + apply loadChapters_view.
  - unfold loadChapters_start. rewrite Hc. apply net_view_refl.
Qed.

Lemma finish_view (B : Browser) (env : LoadEnv) (a : App) :
  net_view a (loadChapters_finish B env a).
Proof.
  rewrite finish_unfold. unfold net_view.
  assert (Hr : fetched (fx (responded env a)) = fetched (fx a) /\
               loadedChapters (st (responded env a)) =
                 loadedChapters (st a) ∪ list_to_set (succeeded env CHAPTERS_TO_LOAD)).
  { unfold responded. remember CHAPTERS_TO_LOAD as files.
    destruct (receive_frame env files a) as (_ & _ & F & _ & _ & _ & L).
    destruct (inject_state env (Js.join (map (chapterHtml env) files))
                (fold_left (receive env) files a)) as (S1 & F1).
    cbn [st fx on_st cacheChapters set_chapterCache loadedChapters].
    rewrite S1, F1, F, L. auto. }
  destruct Hr as (Fr & Lr).
  pose proof (succeeded_subset env CHAPTERS_TO_LOAD) as Hsub.
  pose proof (onChaptersLoaded_frame B env (responded env a)) as Hf.
  cbv zeta in Hf.
  destruct (onChaptersLoaded B env (responded env a)) as [a1|m a1];
    cbn [completed] in Hf; destruct Hf as (_ & F' & _ & _ & L' & _);
    cbn [st fx on_st set_isLoading loadedChapters].
  - destruct (fadeOut_frame a1) as (S1 & _ & X1 & _). rewrite X1, S1, F', L', Fr, Lr.
    split; [auto|]. split; set_solver.
  - destruct (showError_frame m a1) as (S1 & _ & X1 & _). rewrite X1, S1, F', L', Fr, Lr.
    split; [auto|]. split; set_solver.
Qed.

Lemma retryClick_view (B : Browser) (envs : nat -> LoadEnv) (picks : list nat)
    (a : App) :
  net_view a (retryClick B envs picks a).
Proof.
  unfold retryClick.
  assert (H : net_view a (fst (fold_left
                (fun acc k => retryListener B (envs k) acc)
                (seq 0 (default 0 (retryBtn (ui a)))) (a, [])))).
  { apply (fold_left_inv (fun acc => net_view a (fst acc))); [|apply net_view_refl].
    intros [s w] k Hs. rewrite retryListener_unfold. cbn [fst] in *.
    apply (net_view_trans _ _ _ Hs).
    apply (net_view_trans _ (error_dismissed s)); [|apply start_view].
    apply net_view_quiet, quiet_same; reflexivity. }
  destruct (fold_left _ _ _) as [a1 w]. cbn [fst] in H.
  apply (finishLoads_inv B (fun s => net_view a s) (fun _ => True));
    [|apply Forall_forall; auto | exact H].
  intros env s _ Hs. exact (net_view_trans _ _ _ Hs (finish_view B env s)).
Qed.

Lemma step_view (B : Browser) (op : Op) (a : App) : net_view a (step B op a).
Proof.
  destruct (loads op) eqn:E; [|apply net_view_quiet, step_quiet, E].
  destruct op; try discriminate E; cbn [step].
  - apply loadChapters_view.
  - apply retryClick_view.
Qed.

(** The loading flag after a click and its loads. *)
Lemma retryClick_loading (B : Browser) (envs : nat -> LoadEnv) (picks : list nat)
    (a : App) :
  isLoading (st a) = false -> isLoading (st (retryClick B envs picks a)) = false.
Proof.
  intros Ha. unfold retryClick.
  assert (H : let acc := fold_left
                (fun acc k => retryListener B (envs k) acc)
                (seq 0 (default 0 (retryBtn (ui a)))) (a, []) in
              isLoading (st (fst acc)) = false \/ snd acc <> []).
  { cbv zeta.
    apply (fold_left_inv (fun acc => isLoading (st (fst acc)) = false \/ snd acc <> []));
      [|left; exact Ha].
    intros [s w] k Hs. rewrite retryListener_unfold. cbn [fst snd] in *.
    destruct (container (ui (error_dismissed s))) as [c|] eqn:Hc.
    - destruct (start_cases B (envs k) (error_dismissed s) c Hc)
        as [(_ & ->) | (_ & ->)]; cbn [fst snd].
      + right. destruct w; discriminate.
      + left. rewrite (loadChapters_unfold B (envs k) _ c Hc). reflexivity.
    - unfold loadChapters_start. rewrite Hc. cbn [fst snd]. rewrite app_nil_r.
      exact Hs. }
  cbv zeta in H. destruct (fold_left _ _ _) as [a1 w]. cbn [fst snd] in H.
  apply (finishLoads_post B (fun _ => True) (fun s => isLoading (st s) = false)
           (fun _ => True)); auto.
  apply Forall_forall. auto.
Qed.

Lemma step_loading (B : Browser) (op : Op) (a : App) :
  isLoading (st a) = false -> isLoading (st (step B op a)) = false.
Proof.
  intros Ha. destruct (loads op) eqn:E.
  - destruct op; try discriminate E; cbn [step].
    + apply loadChapters_net, Ha.
    + apply retryClick_loading, Ha.
  - destruct (step_quiet B op a E) as (_ & _ & I & _). rewrite I. exact Ha.
Qed.

Lemma run_view (B : Browser) (ops : list Op) (a : App) : net_view a (run B ops a).
Proof.
  unfold run. apply (fold_left_inv (fun a' => net_view a a')); [|apply net_view_refl].
  intros s op Hs. exact (net_view_trans _ _ _ Hs (step_view B op s)).
Qed.

(** Whatever the user and the browser do, the engine calls fetch only for
    the configured fragment files. *)
Theorem only_configured_files_are_fetched (B : Browser) (ops : list Op) (a : App)
    (url : string) :
  In url (fetched (fx (run B ops a))) ->
  In url (fetched (fx a)) \/
  exists file, In file CHAPTERS_TO_LOAD /\
               url = (CHAPTERS_DIRECTORY ++ "/" ++ file)%string.
Proof.
  intros H. destruct (run_view B ops a) as (F & _).
  destruct (F url H) as [H'|H']; [auto|]. right.
  apply in_map_iff in H'. destruct H' as (file & <- & Hin). exists file. auto.
Qed.

(** The set of loaded chapters only grows, and only by configured files. *)
Theorem loaded_set_grows_by_configured_files (B : Browser) (ops : list Op) (a : App) :
  loadedChapters (st a) ⊆ loadedChapters (st (run B ops a)) /\
  loadedChapters (st (run B ops a)) ⊆
    loadedChapters (st a) ∪ list_to_set CHAPTERS_TO_LOAD.
Proof. destruct (run_view B ops a) as (_ & L1 & L2). auto. Qed.

(** The loading flag is never left set: once the loads that an operation
    starts have finished, the flag is clear again, whether they hit the
    cache, fetched, or failed, since the finally block of loadChapters
    clears it on every path. *)
Theorem loading_flag_is_cleared (B : Browser) (ops : list Op) (a : App) :
  isLoading (st a) = false -> isLoading (st (run B ops a)) = false.
Proof.
  unfold run. revert a. induction ops as [|op r IH]; intros a Ha; [exact Ha|].
  simpl. apply IH, step_loading, Ha.
Qed.

(** The cache and the network are written by loads only: a session without
    a load fetches nothing and leaves the cache, the loaded set and the
    loading flag as they are. *)
Theorem session_without_load_is_offline (B : Browser) (ops : list Op) (a : App) :
  forallb (fun op => negb (loads op)) ops = true ->
  fetched (fx (run B ops a)) = fetched (fx a) /\
  chapterCache (st (run B ops a)) = chapterCache (st a) /\
  loadedChapters (st (run B ops a)) = loadedChapters (st a).
Proof.
  intros H.
  assert (Hq : quiet a (run B ops a)).
  { unfold run. revert a. induction ops as [|op r IH]; intros a; [apply quiet_refl|].
    simpl in H. apply andb_prop in H. destruct H as [H1 H2].
    simpl. eapply quiet_trans; [|apply IH, H2].
    apply step_quiet. apply negb_true_iff, H1. }
  destruct Hq as (F & L & _ & K). auto.
Qed.

Lemma only_configured_files_are_fetched_witness :
  exists file, In file CHAPTERS_TO_LOAD /\
    "chapters/dynamics.html" = (CHAPTERS_DIRECTORY ++ "/" ++ file)%string.
Proof.
  destruct (only_configured_files_are_fetched Sample.browser Demo.visit Sample.app0
              "chapters/dynamics.html") as [H|H].
  - vm_compute. right. left. reflexivity.
  - destruct H.
  - exact H.
Defined.

Lemma loading_flag_is_cleared_witness :
  isLoading (st (run Sample.browser Demo.visit Sample.app0)) = false.
Proof. apply (loading_flag_is_cleared Sample.browser Demo.visit Sample.app0). reflexivity. Defined.

Lemma session_without_load_is_offline_witness :
  fetched (fx (run Sample.browser Demo.browsing Sample.app1)) = fetched (fx Sample.app1).
Proof.
  apply (session_without_load_is_offline Sample.browser Demo.browsing Sample.app1).
  reflexivity.
Defined.

(** ** Repeated failures *)

Lemma showError_retry (m : string) (a : App) (c : Container) (e : bool) (k : nat) :
  container (ui a) = Some c -> errorContainer (ui a) = Some e ->
  retryBtn (ui a) = Some k ->
  is_Some (container (ui (showError m a))) /\
  errorContainer (ui (showError m a)) = Some false /\
  retryBtn (ui (showError m a)) = Some (S k).
Proof.
  intros Hc He Hr. destruct a as [s p u f]; destruct u.
  simpl in *; subst. unfold showError; simpl.
  destruct errorMessage0; simpl; eauto.
Qed.

Lemma failed_load_adds_listener (B : Browser) (env : LoadEnv) (a : App)
    (c : Container) (e : bool) (k : nat) :
  container (ui a) = Some c -> errorContainer (ui a) = Some e ->
  retryBtn (ui a) = Some k -> init_error env <> None ->
  is_Some (container (ui (loadChapters B env a))) /\
  errorContainer (ui (loadChapters B env a)) = Some false /\
  retryBtn (ui (loadChapters B env a)) = Some (S k).
Proof.
  intros Hc He Hr Hi. destruct (init_error env) as [m|] eqn:Em; [|contradiction].
  rewrite (loadChapters_fails B env a c m Hc Em).
  destruct (before_init_ui env a c Hc) as (C & E & _ & R).
  destruct (container (ui (before_init env a))) as [c1|] eqn:E1; [|discriminate].
  rewrite He in E. rewrite Hr in R.
  exact (showError_retry m (before_init env a) c1 e k E1 E R).
Qed.

(** Every failed load adds one more click listener to the retry button and
    none is ever removed, so that after n failures in a row a click on the
    button runs the load n times more than before. *)
Theorem failures_add_retry_listeners (B : Browser) (envs : list LoadEnv) (a : App)
    (c : Container) (e : bool) (k : nat) :
  container (ui a) = Some c -> errorContainer (ui a) = Some e ->
  retryBtn (ui a) = Some k ->
  Forall (fun env => init_error env <> None) envs ->
  retryBtn (ui (fold_left (fun a env => loadChapters B env a) envs a))
    = Some (k + length envs)%nat.
Proof.
  revert a c e k. induction envs as [|env r IH]; intros a c e k Hc He Hr Hf.
  - simpl. rewrite Hr, Nat.add_0_r. reflexivity.
  - inversion Hf as [|x l Hx Hl]; subst. simpl.
    destruct (failed_load_adds_listener B env a c e k Hc He Hr Hx) as ((c1 & C1) & E1 & R1).
    rewrite (IH _ c1 false (S k) C1 E1 R1 Hl). f_equal. lia.
Qed.

Lemma failures_add_retry_listeners_witness :
  retryBtn (ui (fold_left (fun a env => loadChapters Sample.browser env a)
                  [Sample.env_failing; Sample.env_failing; Sample.env_failing]
                  Sample.app0)) = Some 3%nat.
Proof.
  apply (failures_add_retry_listeners Sample.browser
           [Sample.env_failing; Sample.env_failing; Sample.env_failing] Sample.app0
           {| c_innerHTML := ""; c_hidden := false |} true 0);
    try reflexivity.
  repeat constructor; discriminate.
Defined.

(** ** More on the lazy loader *)

Lemma handleEntry_idle (a : App) (entry : IntersectionObserverEntry) :
  isIntersecting entry = false \/ pl_el (target entry) ∈ observedElements (st a) ->
  handleEntry entry a = Normal a.
Proof.
  intros [H|H]; unfold handleEntry.
  - rewrite H. reflexivity.
  - rewrite (bool_decide_eq_true_2 _ H), andb_false_r. reflexivity.
Qed.

(** Entries that report an element as not intersecting, or an element that
    is already marked, change nothing at all. *)
Theorem idle_entries_change_nothing (entries : list IntersectionObserverEntry)
    (a : App) :
  (forall entry, In entry entries ->
     isIntersecting entry = false \/
     pl_el (target entry) ∈ observedElements (st a)) ->
  handleIntersection entries a = Normal a.
Proof.
  unfold handleIntersection. induction entries as [|e r IH]; intros H; [reflexivity|].
  simpl. rewrite (handleEntry_idle a e) by (apply H; left; reflexivity).
  apply IH. intros entry Hin. apply H. right. exact Hin.
Qed.

Lemma idle_entries_change_nothing_witness :
  handleIntersection
    [visible Sample.sim; {| target := Demo.stray; isIntersecting := false |}]
    Sample.app2 = Normal Sample.app2.
Proof.
  apply idle_entries_change_nothing.
  intros entry [<-|[<-|[]]].
  - right. apply (bool_decide_unpack _). vm_compute. exact I.
  - left. reflexivity.
Defined.

Lemma handleEntry_unbound (el : nat) (a : App) (entry : IntersectionObserverEntry) :
  (negb (pl_el (target entry) =? el)%nat || negb (has_initializer (target entry))) = true ->
  invocations el (completed (handleEntry entry a)) = invocations el a.
Proof.
  intros H. unfold handleEntry.
  destruct (isIntersecting entry && _); [|reflexivity].
  set (a1 := on_st _ a).
  assert (Ha : invocations el a1 = invocations el a) by reflexivity.
  rewrite <- Ha. clear Ha. unfold initializePlot.
  destruct (Js.truthy (pl_plotId (target entry))) eqn:Et; [|reflexivity].
  destruct (PLOT_INITIALIZERS (pl_plotId (target entry))) as [[i| |]|] eqn:Ei;
    try reflexivity.
  cbn [completed].
  destruct (callInitializer_frame i (target entry) a1) as (_ & _ & _ & _ & _ & _ & _ & L).
  rewrite (invocations_log _ a1 _ _ _ L).
  unfold has_initializer in H. rewrite Et, Ei in H. simpl in H.
  rewrite orb_false_r in H. apply negb_true_iff in H. rewrite H. lia.
Qed.

Lemma step_unbound (B : Browser) (el : nat) (op : Op) (a : App) :
  unbound el op = true -> invocations el (step B op a) = invocations el a.
Proof.
  intros H. destruct op; cbn [step].
  - apply invocations_same, loadChapters_lazy.
  - apply invocations_same, retryClick_lazy.
  - unfold handleIntersection. simpl in H. revert a.
    induction entries as [|e r IH]; intros a; [reflexivity|].
    simpl in H. apply andb_prop in H. destruct H as [H1 H2].
    simpl. pose proof (handleEntry_unbound el a e H1) as He.
    destruct (handleEntry e a) as [a1|m a1]; cbn [completed] in *.
    + rewrite (IH H2), He. reflexivity.
    + exact He.
  - apply invocations_same, kinematics_resume_frame.
  - apply invocations_same, toggleChapter_frame.
  - destruct (toggleSubsection_frame s forceState a) as (_ & F1 & _).
    apply invocations_same. rewrite F1. reflexivity.
  - destruct (expandAll_frame (doc_chapters (body (page a))) a) as (_ & F1).
    apply invocations_same. rewrite F1. reflexivity.
  - apply invocations_same.
    apply (fold_left_inv (fun a' => initialized (fx a') = initialized (fx a)));
      [|reflexivity].
    intros s c Hs. destruct (toggleChapter_frame c (Some false) s)
      as (_ & _ & _ & _ & _ & _ & I & _). rewrite I. exact Hs.
  - destruct (handleSearch_frame B value a) as (_ & F1 & _).
    apply invocations_same. rewrite F1. reflexivity.
  - destruct (clearSearch_frame a) as (_ & F1 & _).
    apply invocations_same. rewrite F1. reflexivity.
Qed.

(** An element whose plot id is empty or names none of the initializers
    is marked as observed the first time it is seen, and no initializer is
    ever called on it, whatever happens to the page, batches that end in
    an exception included. *)
Theorem plot_without_initializer_is_never_initialized (B : Browser) (el : nat) :
  (forall ops a, forallb (unbound el) ops = true ->
     invocations el (run B ops a) = invocations el a) /\
  (forall p a, pl_el p = el -> has_initializer p = false ->
     el ∉ observedElements (st a) ->
     completed (handleIntersection [visible p] a) =
     on_st (set_observedElements (fun o => o ∪ {[el]})) a).
Proof.
  split.
  - intros ops. unfold run. induction ops as [|op r IH]; intros a H; [reflexivity|].
    simpl in H. apply andb_prop in H. destruct H as [H1 H2].
    simpl. rewrite (IH _ H2). apply step_unbound, H1.
  - intros p a Hel Hi Ho. subst el.
    unfold handleIntersection. cbn [forEach]. unfold handleEntry. cbn [visible target isIntersecting].
    rewrite (bool_decide_eq_false_2 _ Ho). cbn [negb andb].
    unfold initializePlot. unfold has_initializer in Hi.
    destruct (Js.truthy (pl_plotId p)); [|reflexivity].
    destruct (PLOT_INITIALIZERS (pl_plotId p)) as [[i| |]|];
      [discriminate | reflexivity | reflexivity | reflexivity].
Qed.

Lemma plot_without_initializer_is_never_initialized_witness :
  invocations 11
    (run Sample.browser
       [OpHandleIntersection [visible Demo.stray]; OpCollapseAll;
        OpHandleIntersection [visible Demo.stray; visible Sample.sim]] Sample.app1)
  = 0%nat /\
  11%nat ∈ observedElements
    (st (completed (handleIntersection [visible Demo.stray] Sample.app1))).
Proof.
  destruct (plot_without_initializer_is_never_initialized Sample.browser 11) as (H1 & H2).
  split.
  - rewrite H1 by reflexivity. reflexivity.
  - rewrite (H2 Demo.stray Sample.app1 eq_refl eq_refl).
    + simpl. set_solver.
    + apply (bool_decide_unpack _). vm_compute. exact I.
Defined.

(** ** Expand all, collapse all *)

Lemma toggle_false_unfold (c : Chapter) (a : App) (el : nat) :
  ch_content c = Some el ->
  exists a0, toggleChapter c (Some false) a = cleanupChapterResources c a0 /\
             st a0 = st a /\ fx a0 = fx a /\
             "active" ∉ chapterClass (page a0) (ch_el c) /\
             (forall e, "active" ∉ chapterClass (page a) e ->
                        "active" ∉ chapterClass (page a0) e).
Proof.
  intros Hc. unfold toggleChapter. rewrite Hc.
  eexists. split; [reflexivity|]. simpl.
  split; [reflexivity|]. split; [reflexivity|]. split.
  - rewrite fn_lookup_insert. set_solver.
  - intros e He. destruct (decide (ch_el c = e)) as [<-|Hne].
    + rewrite fn_lookup_insert. set_solver.
    + rewrite fn_lookup_insert_ne by exact Hne.
      rewrite fn_lookup_insert_ne by exact Hne. exact He.
Qed.

Lemma collapse_establishes (c : Chapter) (a : App) (el : nat) :
  ch_content c = Some el -> released c (toggleChapter c (Some false) a).
Proof.
  intros Hc. destruct (toggle_false_unfold c a el Hc) as (a0 & -> & _ & _ & Ha & _).
  destruct (cleanupChapterResources_frame c a0) as (P & _).
  unfold released. rewrite P. split; [exact Ha|].
  unfold cleanupChapterResources.
  destruct (cleanup_fold_spec (chapter_plots c) a0) as (I1 & _). exact I1.
Qed.

Lemma collapse_preserves (c d : Chapter) (a : App) :
  released c a -> released c (toggleChapter d (Some false) a).
Proof.
  intros (Ha & Hp). destruct (ch_content d) as [el|] eqn:Hd.
  - destruct (toggle_false_unfold d a el Hd) as (a0 & -> & S0 & _ & _ & Hk).
    destruct (cleanupChapterResources_frame d a0) as (P & _).
    unfold released. rewrite P. split; [apply Hk, Ha|].
    unfold cleanupChapterResources.
    destruct (cleanup_fold_spec (chapter_plots d) a0) as (_ & I2 & I3 & I4 & _).
    rewrite S0 in I2, I3, I4.
    intros p Hin. destruct (Hp p Hin) as (H1 & H2 & H3). auto.
  - unfold toggleChapter. rewrite Hd. split; assumption.
Qed.

Lemma collapse_fold (l : list Chapter) (c : Chapter) (a : App) (el : nat) :
  In c l -> ch_content c = Some el ->
  released c (fold_left (fun a c => toggleChapter c (Some false) a) l a).
Proof.
  intros Hin Hc. revert a. induction l as [|d r IH]; intros a; [contradiction|].
  simpl. destruct Hin as [->|Hin]; [|apply IH, Hin].
  apply (fold_left_inv (released c)).
  - intros s x Hs. apply collapse_preserves, Hs.
  - apply (collapse_establishes c a el Hc).
Qed.

Lemma cleanupPlot_accounts (k : string) (h : nat) (a : App) (q : PlotNode) :
  (activeCharts (st a) !! k = Some h \/ In h (destroyed (fx a)) ->
   activeCharts (st (cleanupPlot a q)) !! k = Some h \/
   In h (destroyed (fx (cleanupPlot a q)))) /\
  (activeAnimations (st a) !! k = Some h \/ In h (stopped (fx a)) ->
   activeAnimations (st (cleanupPlot a q)) !! k = Some h \/
   In h (stopped (fx (cleanupPlot a q)))).
Proof.
  destruct (cleanupPlot_spec a q) as (C & A & _ & D & S).
  rewrite C, A, D, S. split; intros [H|H].
  - destruct (decide (pl_plotId q = k)) as [->|N].
    + right. rewrite H. apply in_or_app. right. left. reflexivity.
    + left. rewrite lookup_delete_ne by exact N. exact H.
  - right. apply in_or_app. left. exact H.
  - destruct (decide (pl_plotId q = k)) as [->|N].
    + right. rewrite H. apply in_or_app. right. left. reflexivity.
    + left. rewrite lookup_delete_ne by exact N. exact H.
  - right. apply in_or_app. left. exact H.
Qed.

Lemma collapse_accounts (k : string) (h : nat) (d : Chapter) (a : App) :
  (activeCharts (st a) !! k = Some h \/ In h (destroyed (fx a)) ->
   activeCharts (st (toggleChapter d (Some false) a)) !! k = Some h \/
   In h (destroyed (fx (toggleChapter d (Some false) a)))) /\
  (activeAnimations (st a) !! k = Some h \/ In h (stopped (fx a)) ->
   activeAnimations (st (toggleChapter d (Some false) a)) !! k = Some h \/
   In h (stopped (fx (toggleChapter d (Some false) a)))).
Proof.
  destruct (ch_content d) as [e|] eqn:Hd.
  - destruct (toggle_false_unfold d a e Hd) as (a0 & -> & S0 & F0 & _).
    rewrite <- S0, <- F0. unfold cleanupChapterResources.
    apply (fold_left_inv (fun a' =>
      (activeCharts (st a0) !! k = Some h \/ In h (destroyed (fx a0)) ->
       activeCharts (st a') !! k = Some h \/ In h (destroyed (fx a'))) /\
      (activeAnimations (st a0) !! k = Some h \/ In h (stopped (fx a0)) ->
       activeAnimations (st a') !! k = Some h \/ In h (stopped (fx a'))))); [|tauto].
    intros s q (H1 & H2). destruct (cleanupPlot_accounts k h s q) as (G1 & G2).
    split; auto.
  - unfold toggleChapter. rewrite Hd. tauto.
Qed.

(** Collapse all: afterwards every chapter of the page that has a content
    node is collapsed, none of its plots is left in the chart or the
    animation registry or marked as observed, and every chart or animation
    that was registered for one of its plots has been destroyed or stopped.
    Nothing is fetched and the cache and the search index stay. *)
Theorem collapse_all_releases_every_chapter (B : Browser) (a : App) (c : Chapter)
    (el : nat) :
  In c (doc_chapters (body (page a))) ->
  ch_content c = Some el ->
  let a' := step B OpCollapseAll a in
  released c a' /\
  (forall p h, In p (chapter_plots c) ->
     activeCharts (st a) !! pl_plotId p = Some h -> In h (destroyed (fx a'))) /\
  (forall p h, In p (chapter_plots c) ->
     activeAnimations (st a) !! pl_plotId p = Some h -> In h (stopped (fx a'))) /\
  fetched (fx a') = fetched (fx a) /\
  chapterCache (st a') = chapterCache (st a) /\
  searchIndex (st a') = searchIndex (st a).
Proof.
  intros Hin Hc. cbv zeta. cbn [step].
  pose proof (collapse_fold _ c a el Hin Hc) as Hrel.
  set (l := doc_chapters (body (page a))) in *. clearbody l.
  split; [exact Hrel|].
  destruct Hrel as (_ & Hrel).
  assert (Hacc : forall k h,
    (activeCharts (st a) !! k = Some h ->
     activeCharts (st (fold_left (fun a c => toggleChapter c (Some false) a) l a)) !! k
       = Some h \/
     In h (destroyed (fx (fold_left (fun a c => toggleChapter c (Some false) a) l a)))) /\
    (activeAnimations (st a) !! k = Some h ->
     activeAnimations (st (fold_left (fun a c => toggleChapter c (Some false) a) l a)) !! k
       = Some h \/
     In h (stopped (fx (fold_left (fun a c => toggleChapter c (Some false) a) l a))))).
  { intros k h.
    apply (fold_left_inv (fun a' =>
      (activeCharts (st a) !! k = Some h ->
       activeCharts (st a') !! k = Some h \/ In h (destroyed (fx a'))) /\
      (activeAnimations (st a) !! k = Some h ->
       activeAnimations (st a') !! k = Some h \/ In h (stopped (fx a'))))); [|tauto].
    intros s d (H1 & H2). destruct (collapse_accounts k h d s) as (G1 & G2).
    split; auto. }
  split; [|split].
  - intros p h Hp Hh. destruct (Hacc (pl_plotId p) h) as (G & _).
    destruct (G Hh) as [E|E]; [|exact E].
    destruct (Hrel p Hp) as (N & _). rewrite N in E. discriminate.
  - intros p h Hp Hh. destruct (Hacc (pl_plotId p) h) as (_ & G).
    destruct (G Hh) as [E|E]; [|exact E].
    destruct (Hrel p Hp) as (_ & N & _). rewrite N in E. discriminate.
  - apply (fold_left_inv (fun a' =>
      fetched (fx a') = fetched (fx a) /\ chapterCache (st a') = chapterCache (st a) /\
      searchIndex (st a') = searchIndex (st a))); [|tauto].
    intros s d (H1 & H2 & H3).
    destruct (toggleChapter_frame d (Some false) s) as (_ & _ & _ & G4 & G5 & _ & _ & G8).
    rewrite G4, G5, G8. tauto.
Qed.

Lemma collapse_all_releases_every_chapter_witness :
  released Sample.dynamics (step Sample.browser OpCollapseAll Sample.app2) /\
  In 0%nat (stopped (fx (step Sample.browser OpCollapseAll Sample.app2))).
Proof.
  assert (Hin : In Sample.dynamics (doc_chapters (body (page Sample.app2)))).
  { vm_compute. right. left. reflexivity. }
  destruct (collapse_all_releases_every_chapter Sample.browser Sample.app2
              Sample.dynamics 9 Hin eq_refl) as (H1 & _ & H3 & _).
  split; [exact H1|].
  apply (H3 Sample.sim 0%nat); [left; reflexivity | vm_compute; reflexivity].
Defined.

Lemma expand_opens (d : Chapter) (a : App) :
  (forall e, "active" ∈ chapterClass (page a) e ->
             "active" ∈ chapterClass (page (toggleChapter d (Some true) a)) e) /\
  (forall e, styles (page a) e !! "maxHeight" <> None ->
             styles (page (toggleChapter d (Some true) a)) e !! "maxHeight" <> None) /\
  (forall el, ch_content d = Some el ->
     "active" ∈ chapterClass (page (toggleChapter d (Some true) a)) (ch_el d) /\
     styles (page (toggleChapter d (Some true) a)) el !! "maxHeight" <> None).
Proof.
  unfold toggleChapter. destruct (ch_content d) as [el|]; [|split; [|split]; auto; discriminate].
  assert (Hcl : forall (cl : nat -> gset string) (x : gset string) e,
            "active" ∈ cl e ->
            "active" ∈ (<[ch_el d := (<[ch_el d := x]> cl) (ch_el d) ∪ {["active"]}]>
                          (<[ch_el d := x]> cl)) e).
  { intros cl x e He. destruct (decide (ch_el d = e)) as [<-|N].
    - rewrite fn_lookup_insert. set_solver.
    - rewrite !fn_lookup_insert_ne by exact N. exact He. }
  split; [|split].
  - intros e He.
    destruct (0 <? length (chapter_subsections d))%nat; simpl; apply Hcl, He.
  - intros e He.
    destruct (0 <? length (chapter_subsections d))%nat; simpl.
    + destruct (decide (el = e)) as [<-|N].
      * rewrite !fn_lookup_insert. rewrite lookup_insert_ne by discriminate.
        rewrite lookup_insert_eq. discriminate.
      * rewrite !fn_lookup_insert_ne by exact N. exact He.
    + destruct (decide (el = e)) as [<-|N].
      * rewrite fn_lookup_insert, lookup_insert_eq. discriminate.
      * rewrite fn_lookup_insert_ne by exact N. exact He.
  - intros el' [= <-]. split.
    + destruct (0 <? length (chapter_subsections d))%nat; simpl;
        rewrite fn_lookup_insert; set_solver.
    + destruct (0 <? length (chapter_subsections d))%nat; simpl.
      * rewrite !fn_lookup_insert. rewrite lookup_insert_ne by discriminate.
        rewrite lookup_insert_eq. discriminate.
      * rewrite fn_lookup_insert, lookup_insert_eq. discriminate.
Qed.

(** Expand all: afterwards every chapter of the page that has a content
    node is marked active and its content carries an inline maximal
    height; chapters that were open stay open; and the state and the
    effects are untouched: no plot is initialised by expanding, that is
    left to the observer. *)
Theorem expand_all_opens_every_chapter (B : Browser) (a : App) (c : Chapter)
    (el : nat) :
  In c (doc_chapters (body (page a))) ->
  ch_content c = Some el ->
  let a' := step B OpExpandAll a in
  "active" ∈ chapterClass (page a') (ch_el c) /\
  styles (page a') el !! "maxHeight" <> None /\
  (forall e, "active" ∈ chapterClass (page a) e -> "active" ∈ chapterClass (page a') e) /\
  st a' = st a /\ fx a' = fx a.
Proof.
  intros Hin Hc. cbv zeta. cbn [step].
  set (l := doc_chapters (body (page a))) in *. clearbody l.
  destruct (expandAll_frame l a) as (S1 & F1).
  split; [|split; [|split; [|split; assumption]]].
  - clear S1 F1. revert a Hin. induction l as [|d r IH]; intros a Hin; [contradiction|].
    simpl. destruct Hin as [->|Hin]; [|apply IH, Hin].
    apply (fold_left_inv (fun a' => "active" ∈ chapterClass (page a') (ch_el c))).
    + intros s x Hs. apply (expand_opens x s), Hs.
    + destruct (expand_opens c a) as (_ & _ & H3). apply (H3 el Hc).
  - clear S1 F1. revert a Hin. induction l as [|d r IH]; intros a Hin; [contradiction|].
    simpl. destruct Hin as [->|Hin]; [|apply IH, Hin].
    apply (fold_left_inv (fun a' => styles (page a') el !! "maxHeight" <> None)).
    + intros s x Hs. destruct (expand_opens x s) as (_ & H2 & _). apply H2, Hs.
    + destruct (expand_opens c a) as (_ & _ & H3). apply (H3 el Hc).
  - intros e He.
    apply (fold_left_inv (fun a' => "active" ∈ chapterClass (page a') e)); [|exact He].
    intros s x Hs. apply (expand_opens x s), Hs.
Qed.

Lemma expand_all_opens_every_chapter_witness :
  "active" ∈ chapterClass (page (step Sample.browser OpExpandAll Sample.app1))
               (ch_el Sample.kinematics) /\
  st (step Sample.browser OpExpandAll Sample.app1) = st Sample.app1.
Proof.
  assert (Hin : In Sample.kinematics (doc_chapters (body (page Sample.app1)))).
  { vm_compute. left. reflexivity. }
  destruct (expand_all_opens_every_chapter Sample.browser Sample.app1
              Sample.kinematics 4 Hin eq_refl) as (H1 & _ & _ & H4 & _).
  split; [exact H1 | exact H4].
Defined.

Lemma step_view_only (B : Browser) (op : Op) (a : App) :
  view_only op = true ->
  st (step B op a) = st a /\ fx (step B op a) = fx a /\
  body (page (step B op a)) = body (page a).
Proof.
  intros H. destruct op; try discriminate H; cbn [step].
  - destruct (toggleSubsection_frame s forceState a) as (G1 & G2 & _ & G4 & _). auto.
  - apply (fold_left_inv (fun a' =>
      st a' = st a /\ fx a' = fx a /\ body (page a') = body (page a))); [|auto].
    intros s c (H1 & H2 & H3). destruct (expand_frame c s) as (G1 & G2 & _ & G4 & _).
    rewrite G1, G2, G4. auto.
  - apply handleSearch_frame.
  - apply clearSearch_frame.
Qed.

(** Searching, clearing the search, opening or closing a subsection and
    expanding everything change only what the page shows: whatever the
    queries, and whether or not a search ends in an exception, the whole
    state (registries, observed set, cache, index, flags) and the whole
    effect log (requests, initialisations, destroyed charts, stopped
    animations) are as before, and so is the document tree. *)
Theorem view_operations_keep_state (B : Browser) (ops : list Op) (a : App) :
  forallb view_only ops = true ->
  st (run B ops a) = st a /\ fx (run B ops a) = fx a /\
  body (page (run B ops a)) = body (page a).
Proof.
  unfold run. revert a. induction ops as [|op r IH]; intros a H; [auto|].
  simpl in H. apply andb_prop in H. destruct H as [H1 H2].
  simpl. destruct (IH (step B op a) H2) as (I1 & I2 & I3).
  destruct (step_view_only B op a H1) as (G1 & G2 & G3).
  rewrite I1, I2, I3. auto.
Qed.

Lemma view_operations_keep_state_witness :
  st (run Sample.browser
        [OpHandleSearch "("; OpExpandAll; OpHandleSearch "a t";
         OpToggleSubsection Sample.section1 None; OpClearSearch] Sample.app2)
  = st Sample.app2.
Proof.
  apply (view_operations_keep_state Sample.browser
           [OpHandleSearch "("; OpExpandAll; OpHandleSearch "a t";
            OpToggleSubsection Sample.section1 None; OpClearSearch] Sample.app2).
  reflexivity.
Defined.

(** ** More on the search *)

Lemma showChapter_active (q : string) (matched : gset nat) (a : App) (d : Chapter) :
  (forall e, "active" ∈ chapterClass (page a) e ->
             "active" ∈ chapterClass (page (showChapter q matched a d)) e) /\
  (forall el, ch_content d = Some el -> ch_el d ∈ matched -> Js.truthy q = true ->
              "active" ∈ chapterClass (page (showChapter q matched a d)) (ch_el d)).
Proof.
  unfold showChapter. set (a1 := on_page _ a).
  assert (H1 : forall e, "active" ∈ chapterClass (page a) e ->
                         "active" ∈ chapterClass (page a1) e).
  { intros e He. subst a1. simpl. destruct (decide (ch_el d = e)) as [<-|N].
    - rewrite fn_lookup_insert. unfold classList_toggle.
      destruct (negb _); set_solver.
    - rewrite fn_lookup_insert_ne by exact N. exact He. }
  split.
  - intros e He. destruct (bool_decide (ch_el d ∈ matched) && Js.truthy q).
    + apply (expand_opens d a1), H1, He.
    + apply H1, He.
  - intros el Hc Hm Hq. rewrite (bool_decide_eq_true_2 _ Hm), Hq. cbn [andb].
    destruct (expand_opens d a1) as (_ & _ & H3). apply (H3 el Hc).
Qed.

Lemma showChapters_active (q : string) (matched : gset nat) (l : list Chapter)
    (a : App) :
  (forall e, "active" ∈ chapterClass (page a) e ->
             "active" ∈ chapterClass (page (fold_left (showChapter q matched) l a)) e) /\
  (forall c el, In c l -> ch_content c = Some el -> ch_el c ∈ matched ->
     Js.truthy q = true ->
     "active" ∈ chapterClass (page (fold_left (showChapter q matched) l a)) (ch_el c)).
Proof.
  assert (Hkeep : forall l a e, "active" ∈ chapterClass (page a) e ->
            "active" ∈ chapterClass (page (fold_left (showChapter q matched) l a)) e).
  { intros l0 a0 e He.
    apply (fold_left_inv (fun a' => "active" ∈ chapterClass (page a') e)); [|exact He].
    intros s x Hs. apply (showChapter_active q matched s x), Hs. }
  split; [apply Hkeep|].
  intros c el Hin Hc Hm Hq. revert a. induction l as [|d r IH]; intros a; [contradiction|].
  simpl. destruct Hin as [->|Hin]; [|apply IH, Hin].
  apply Hkeep. destruct (showChapter_active q matched a c) as (_ & H2).
  apply (H2 el Hc Hm Hq).
Qed.

Lemma clearSearch_active (a : App) (e : nat) :
  "active" ∈ chapterClass (page a) e -> "active" ∈ chapterClass (page (clearSearch a)) e.
Proof.
  intros He. destruct (clearSearch_unfold a) as (a2 & P2 & _ & ->).
  cbn [page on_ui].
  apply (fold_left_inv (fun a' => "active" ∈ chapterClass (page a') e)).
  - intros s d Hs. simpl. destruct (decide (ch_el d = e)) as [<-|N].
    + rewrite fn_lookup_insert. set_solver.
    + rewrite fn_lookup_insert_ne by exact N. exact Hs.
  - match goal with |- context [fold_left clearItem ?l ?x] =>
      destruct (clearItems_frame l x) as (_ & _ & _ & _ & K5)
    end.
    rewrite K5, P2. exact He.
Qed.

(** A search opens what it finds: for a non-blank query without
    regular-expression syntax characters, every chapter with a content
    node and a matching item is expanded after the search; no chapter that
    was open is collapsed by the search; and clearing the search afterwards
    leaves the chapters it opened open. *)
Theorem search_opens_matching_chapters (B : Browser) (value : string) (a : App)
    (index : list IndexEntry) :
  let query := Js.trim (Js.toLowerCase value) in
  query <> "" ->
  Js.literal_pattern query = true ->
  searchIndex (st a) = Some index ->
  NoDup (map element index) ->
  exists a',
    handleSearch B value a = Normal a' /\
    (forall c el, In c (doc_chapters (body (page a))) -> ch_content c = Some el ->
       chapter_matches query index (ch_el c) = true ->
       "active" ∈ chapterClass (page a') (ch_el c) /\
       "active" ∈ chapterClass (page (clearSearch a')) (ch_el c)) /\
    (forall e, "active" ∈ chapterClass (page a) e ->
               "active" ∈ chapterClass (page a') e).
Proof.
  cbv zeta. set (query := Js.trim (Js.toLowerCase value)).
  intros Hq Hl Hidx Hnd.
  unfold handleSearch. fold query.
  rewrite (truthy_nonempty query Hq), Hidx. cbn [negb].
  set (start := {| hasResults := false; matchedChapters := ∅; loop_app := a |}).
  destruct (searchLoop_literal B query index start Hl Hnd)
    as (s' & E & _ & HM & _ & _).
  pose proof (searchLoop_frame B query index start) as Hf.
  rewrite E in *. cbv zeta in Hf. cbn [completed loop_app start] in Hf.
  destruct Hf as (_ & _ & _ & B1 & C1).
  destruct (showChapters_active query (matchedChapters s')
              (doc_chapters (body (page (loop_app s')))) (loop_app s')) as (K1 & K2).
  eexists. split; [reflexivity|].
  split.
  - intros c el Hin Hc Hm.
    assert (Ha : "active" ∈ chapterClass (page
              (fold_left (showChapter query (matchedChapters s'))
                 (doc_chapters (body (page (loop_app s')))) (loop_app s'))) (ch_el c)).
    { apply (K2 c el); [rewrite B1; exact Hin | exact Hc | |
                        apply truthy_nonempty, Hq].
      apply HM. right. exact Hm. }
    split; [exact Ha|]. apply clearSearch_active. exact Ha.
  - intros e He. cbn [page on_ui]. apply K1. rewrite C1. exact He.
Qed.

Lemma search_opens_matching_chapters_witness :
  exists a',
    handleSearch Sample.browser "  A T " Sample.app1 = Normal a' /\
    "active" ∈ chapterClass (page a') (ch_el Sample.kinematics) /\
    "active" ∈ chapterClass (page (clearSearch a')) (ch_el Sample.kinematics).
Proof.
  assert (Hnd : NoDup (map element Sample.index)).
  { vm_compute. repeat constructor; set_solver. }
  destruct (search_opens_matching_chapters Sample.browser "  A T " Sample.app1
              Sample.index ltac:(vm_compute; discriminate) eq_refl eq_refl Hnd)
    as (a' & E & H & _).
  exists a'. split; [exact E|].
  apply (H Sample.kinematics 4).
  - vm_compute. left. reflexivity.
  - reflexivity.
  - vm_compute. reflexivity.
Defined.

Lemma source_of_saved (h0 : nat -> string) (els : nat -> ItemEl) (e : nat) :
  saved_or_pristine h0 els e -> source_of (els e) = h0 e.
Proof.
  unfold source_of. intros [(Ho & Hh) | (Ho & Hne)]; rewrite Ho.
  - exact Hh.
  - rewrite (truthy_opt_Some _ Hne). reflexivity.
Qed.

(** Marks do not pile up: on a page whose indexed items carry no saved
    copy, after any run of searches (blank ones, which clear, and ones
    that end in an exception included), a search for a non-blank query
    without regular-expression syntax characters shows every matching item
    as its content of before all the searches with the occurrences of the
    new query wrapped, and every other indexed item as that content
    unchanged: nothing of the marks of earlier searches is left. *)
Theorem search_marks_do_not_accumulate (B : Browser) (values : list string)
    (value : string) (a : App) :
  let query := Js.trim (Js.toLowerCase value) in
  let index := flat_index B (page a) in
  textContent B "" = "" ->
  searchIndex (st a) = Some index ->
  NoDup (map element index) ->
  (forall entry, In entry index ->
     originalContent (itemEls (page a) (element entry)) = None) ->
  query <> "" ->
  Js.literal_pattern query = true ->
  exists a',
    handleSearch B value (searches B values a) = Normal a' /\
    forall entry, In entry index ->
      let before := innerHTML (itemEls (page a) (element entry)) in
      let after := innerHTML (itemEls (page a') (element entry)) in
      (Js.includes (text entry) query = true -> wraps_occurrences query before after) /\
      (Js.includes (text entry) query = false -> after = before).
Proof.
  cbv zeta. set (query := Js.trim (Js.toLowerCase value)).
  set (index := flat_index B (page a)).
  intros Ht Hidx Hnd Hfresh Hq Hl.
  set (h0 := fun e => innerHTML (itemEls (page a) e)).
  assert (Hcur : forall index' entry, searchIndex (st a) = Some index' ->
                   In entry index' -> entry_current B h0 entry).
  { intros index' entry Hi Hin. rewrite Hidx in Hi. injection Hi as <-.
    destruct (flat_index_entries B (page a) entry Hin) as (c & item & _ & _ & ->).
    reflexivity. }
  destruct (searches_keep B h0 values a Ht Hcur) as (S1 & _ & J1 & _).
  set (s := searches B values a) in *.
  unfold handleSearch. fold query.
  rewrite (truthy_nonempty query Hq), S1, Hidx. cbn [negb].
  set (start := {| hasResults := false; matchedChapters := ∅; loop_app := s |}).
  destruct (searchLoop_literal B query index start Hl Hnd)
    as (s' & E & _ & _ & HI & _).
  rewrite E.
  destruct (showChapters_frame query (matchedChapters s')
              (doc_chapters (body (page (loop_app s')))) (loop_app s'))
    as (_ & _ & _ & _ & I2).
  eexists. split; [reflexivity|].
  intros entry Hin. cbn [page on_ui]. rewrite I2, (HI entry Hin). cbn [loop_app start].
  assert (Hsrc : source_of (itemEls (page s) (element entry)) = h0 (element entry)).
  { apply source_of_saved, J1. left. split; [apply Hfresh, Hin | reflexivity]. }
  split; intros Hm; rewrite Hm; unfold item_after; cbn [innerHTML]; rewrite Hsrc.
  - apply replace_literal_wraps, Hq.
  - reflexivity.
Qed.

Lemma search_marks_do_not_accumulate_witness :
  exists a',
    handleSearch Sample.browser "uniform"
      (searches Sample.browser ["a t"; "("; " "; "F ="] Sample.app1) = Normal a' /\
    innerHTML (itemEls (page a') 1) =
      ("<b>v</b> = a t (" ++ Js.mark_open ++ "uniform" ++ Js.mark_close ++ ")")%string /\
    innerHTML (itemEls (page a') 2) = "F = m a".
Proof.
  assert (Hnd : NoDup (map element (flat_index Sample.browser (page Sample.app1)))).
  { vm_compute. repeat constructor; set_solver. }
  destruct (search_marks_do_not_accumulate Sample.browser ["a t"; "("; " "; "F ="]
              "uniform" Sample.app1) as (a' & E & _).
  - reflexivity.
  - vm_compute. reflexivity.
  - exact Hnd.
  - intros entry [<-|[<-|[]]]; vm_compute; reflexivity.
  - vm_compute. discriminate.
  - vm_compute. reflexivity.
  - exists a'. split; [exact E|].
    assert (Ea : a' = completed (handleSearch Sample.browser "uniform"
                   (searches Sample.browser ["a t"; "("; " "; "F ="] Sample.app1)))
      by (rewrite E; reflexivity).
    rewrite Ea. split; vm_compute; reflexivity.
Defined.

Lemma is_space_lower (c : ascii) : Js.is_space (Js.lower_char c) = Js.is_space c.
Proof. destruct c as [[] [] [] [] [] [] [] []]; reflexivity. Qed.

Lemma trimEnd_kept (c : ascii) (r : string) :
  Js.is_space c = false -> Js.trimEnd (String c r) <> "".
Proof.
  intros H. simpl. destruct (Js.trimEnd r); [rewrite H|]; discriminate.
Qed.

Lemma trim_blank (s : string) : Js.trim (Js.toLowerCase s) = "" <-> blank s = true.
Proof.
  unfold Js.trim. induction s as [|c r IH]; [simpl; tauto|].
  cbn [Js.toLowerCase Js.trimStart blank]. rewrite is_space_lower.
  destruct (Js.is_space c) eqn:Ec; cbn [andb].
  - exact IH.
  - split; [|discriminate]. intros H. exfalso.
    apply (trimEnd_kept (Js.lower_char c) (Js.toLowerCase r)); [|exact H].
    rewrite is_space_lower. exact Ec.
Qed.

(** A value of white space only is no query: the search handler does
    exactly what the clear button does; and every other value is searched
    for, after trimming and lowercasing, as a non-empty query. *)
Theorem blank_query_clears_search (B : Browser) (value : string) (a : App) :
  (blank value = true -> handleSearch B value a = Normal (clearSearch a)) /\
  (blank value = false -> Js.trim (Js.toLowerCase value) <> "").
Proof.
  split.
  - intros H. apply trim_blank in H. unfold handleSearch. rewrite H. reflexivity.
  - intros H E. apply trim_blank in E. congruence.
Qed.

Lemma blank_query_clears_search_witness :
  handleSearch Sample.browser "   " Sample.app2 = Normal (clearSearch Sample.app2).
Proof.
  apply (blank_query_clears_search Sample.browser "   " Sample.app2). reflexivity.
Defined.

(** ** More on the force-analysis simulation *)

Lemma animate_stopped (speed : ForceSim.number) (sim : ForceSim.Sim) :
  ForceSim.isPlaying sim = false -> ForceSim.animate speed sim = sim.
Proof. intros H. unfold ForceSim.animate. rewrite H. reflexivity. Qed.

(** A stopped simulation ignores frames: while no start is asked for, the
    frames that still arrive change nothing, whatever the animation speed,
    the sliders and the reset button keep working, and the simulation
    stays stopped. *)
Theorem stopped_simulation_ignores_frames (events : list ForceSim.Event)
    (sim : ForceSim.Sim) :
  ForceSim.isPlaying sim = false ->
  forallb no_start events = true ->
  ForceSim.play events sim = ForceSim.play (filter no_frame events) sim /\
  ForceSim.isPlaying (ForceSim.play events sim) = false.
Proof.
  unfold ForceSim.play. revert sim.
  induction events as [|e r IH]; intros sim Hp Hn; [auto|].
  simpl in Hn. apply andb_prop in Hn. destruct Hn as [Hn1 Hn2].
  destruct e; try discriminate Hn1; cbn [fold_left filter no_frame ForceSim.handle].
  - rewrite (animate_stopped speed sim Hp). apply IH; assumption.
  - apply IH; [exact Hp | assumption].
  - apply IH; [exact Hp | assumption].
  - apply IH; [reflexivity | assumption].
Qed.

Lemma stopped_simulation_ignores_frames_witness :
  ForceSim.play [ForceSim.Frame (ForceSim.of_Z 1); ForceSim.ResetButton;
                 ForceSim.Frame (ForceSim.of_Z 3)]
    (ForceSim.handle (ForceSim.start 300) ForceSim.Stop)
  = ForceSim.play [ForceSim.ResetButton]
      (ForceSim.handle (ForceSim.start 300) ForceSim.Stop).
Proof.
  apply (stopped_simulation_ignores_frames
           [ForceSim.Frame (ForceSim.of_Z 1); ForceSim.ResetButton;
            ForceSim.Frame (ForceSim.of_Z 3)]
           (ForceSim.handle (ForceSim.start 300) ForceSim.Stop));
    reflexivity.
Defined.
